(** * libaribcaption: the FreeType text renderer

    A shallow embedding of [src/renderer/text_renderer_freetype.cpp]:
    the OpenType GSUB half-width parser ([ReadCoverageTable],
    [ReadScriptFeatureIndices], [LoadGSUBTable]) and the face resolver
    and glyph renderer ([SetFontFamily], [LoadFontFace], [DrawChar]);
    and of the provider factory of [src/renderer/font_provider.cpp]
    ([FontProvider::Create]).

    Conventions.
    - Machine integers are [Z] with the wrap-around written out:
      [u16], [u32] for [uint16_t], [uint32_t]/[FT_UInt], [sz] for
      [size_t] and [ulong] for [FT_ULong] (both 64 bits, LP64).
    - A byte buffer is a [list byte]; reading [data[i]] with
      [i >= data.size()] is undefined behaviour in the source and is the
      outcome [OutOfBounds i] here.
    - The only loop of the parser that is not bounded by a 16-bit count
      read from the table is the range expansion of coverage format 2;
      it takes fuel, and running out of it is the outcome [OutOfFuel].
    - An [assert] is checked, as in a build with assertions: when it
      does not hold the call does not return and the outcome is
      [AssertFailed]. *)

From Stdlib Require Import ZArith Lia List.
From stdpp Require Import base option list gmap strings.
Import ListNotations.
Local Open Scope Z_scope.

Abbreviation byte := Byte.byte.

(** ** Machine integers *)

Definition u16 (z : Z) : Z := z mod 2 ^ 16.
Definition u32 (z : Z) : Z := z mod 2 ^ 32.
Definition sz (z : Z) : Z := z mod 2 ^ 64.
Definition ulong (z : Z) : Z := z mod 2 ^ 64.

(** [static_cast<int16_t>] of a 16-bit pattern. *)
Definition to_int16 (z : Z) : Z :=
  let u := u16 z in if u <? 2 ^ 15 then u else u - 2 ^ 16.

Definition b2z (b : byte) : Z := Z.of_N (Byte.to_N b).

(** ** Outcomes of the parser *)

Inductive outcome (A : Type) : Type :=
| Done (a : A)          (* ran to a [return] with a value *)
| Bail                  (* early [return {}] / [return std::nullopt] *)
| OutOfBounds (i : Z)   (* [data[i]] evaluated with [i >= data.size()] *)
| OutOfFuel             (* the fuel of a loop ran out *)
| AssertFailed.         (* an [assert] does not hold: the program aborts *)
Arguments Done {A} a.
Arguments Bail {A}.
Arguments OutOfBounds {A} i.
Arguments OutOfFuel {A}.
Arguments AssertFailed {A}.

#[global] Instance outcome_ret : MRet outcome := fun A a => Done a.
#[global] Instance outcome_bind : MBind outcome := fun A B f m =>
  match m with
  | Done a => f a
  | Bail => Bail
  | OutOfBounds i => OutOfBounds i
  | OutOfFuel => OutOfFuel
  | AssertFailed => AssertFailed
  end.

(** The caller's view of a function whose early returns all give the
    same default value [d]. *)
Definition returning {A} (d : A) (m : outcome A) : outcome A :=
  match m with Bail => Done d | r => r end.

(** ** Big-endian readers (lines 89-113) *)

Module GSUB.

Definition size (data : list byte) : Z := Z.of_nat (length data).

(** [data[offset]] of a [std::vector<uint8_t>]. *)
Definition at_ (data : list byte) (offset : Z) : outcome Z :=
  if (0 <=? offset) && (offset <? size data) then
    match data !! Z.to_nat offset with
    | Some b => Done (b2z b)
    | None => OutOfBounds offset
    end
  else OutOfBounds offset.

Definition FT_MAKE_TAG (x1 x2 x3 x4 : Z) : Z :=
  Z.lor (Z.lor (Z.lor (Z.shiftl x1 24) (Z.shiftl x2 16)) (Z.shiftl x3 8)) x4.

Definition GetUint16 (data : list byte) (offset : Z) : outcome Z :=
  b0 ← at_ data offset;
  b1 ← at_ data (sz (offset + 1));
  Done (u16 (Z.lor (Z.shiftl b0 8) b1)).

Definition GetUint32 (data : list byte) (offset : Z) : outcome Z :=
  b0 ← at_ data offset;
  b1 ← at_ data (sz (offset + 1));
  b2 ← at_ data (sz (offset + 2));
  b3 ← at_ data (sz (offset + 3));
  Done (u32 (Z.lor (Z.lor (Z.lor (u32 (Z.shiftl b0 24)) (u32 (Z.shiftl b1 16)))
                          (u32 (Z.shiftl b2 8))) b3)).

Definition GetOffset16 (data : list byte) (offset : Z) : outcome Z :=
  GetUint16 data offset.

Definition GetOffset32 (data : list byte) (offset : Z) : outcome Z :=
  GetUint32 data offset.

Definition GetInt16 (data : list byte) (offset : Z) : outcome Z :=
  v ← GetUint16 data offset; Done (to_int16 v).

Definition GetTag (data : list byte) (offset : Z) : outcome Z :=
  b0 ← at_ data offset;
  b1 ← at_ data (sz (offset + 1));
  b2 ← at_ data (sz (offset + 2));
  b3 ← at_ data (sz (offset + 3));
  Done (FT_MAKE_TAG b0 b1 b2 b3).

(** 'h','w','i','d' / 'k','a','n','a' / 'J','A','N',' ' (lines 85-87). *)
Definition kOpenTypeFeatureHalfWidth : Z := FT_MAKE_TAG 104 119 105 100.
Definition kOpenTypeScriptHiraganaKatakana : Z := FT_MAKE_TAG 107 97 110 97.
Definition kOpenTypeLangSysJapanese : Z := FT_MAKE_TAG 74 65 78 32.

(** ** ReadCoverageTable (lines 115-176) *)

(** Lines 131-137.  [n] is the number of iterations left, that is
    [glyph_count - coverage_index]. *)
Fixpoint coverage_glyphs (gsub : list byte) (glyph_array_offset : Z)
    (n : nat) (coverage_index : Z) (coverage : list Z) : outcome (list Z) :=
  match n with
  | O => Done coverage
  | S n' =>
      if size gsub <? sz (glyph_array_offset + coverage_index * 2 + 2) then Bail
      else
        glyph_id ← GetUint16 gsub (sz (glyph_array_offset + coverage_index * 2));
        coverage_glyphs gsub glyph_array_offset n' (coverage_index + 1)
                        (coverage ++ [glyph_id])
  end.

(** Lines 169-171: [for (uint16_t glyph_id = start_glyph_id;
    glyph_id <= end_glyph_id; glyph_id++) coverage.push_back(glyph_id)].
    The counter is a [uint16_t], so [glyph_id++] wraps at 65535. *)
Fixpoint push_range (fuel : nat) (glyph_id end_glyph_id : Z)
    (coverage : list Z) : outcome (list Z) :=
  match fuel with
  | O => OutOfFuel
  | S fuel' =>
      if glyph_id <=? end_glyph_id then
        push_range fuel' (u16 (glyph_id + 1)) end_glyph_id (coverage ++ [glyph_id])
      else Done coverage
  end.

(** Lines 156-172.  [n] is [range_count - range_index]. *)
Fixpoint coverage_ranges (fuel : nat) (gsub : list byte) (range_records_offset : Z)
    (n : nat) (range_index : Z) (coverage_index : Z) (coverage : list Z)
    : outcome (list Z) :=
  match n with
  | O => Done coverage
  | S n' =>
      let kRangeRecordSize := 6 in
      if size gsub <?
         sz (range_records_offset + range_index * kRangeRecordSize + kRangeRecordSize)
      then Bail
      else
        start_glyph_id ←
          GetUint16 gsub (sz (range_records_offset + range_index * kRangeRecordSize));
        end_glyph_id ←
          GetUint16 gsub (sz (range_records_offset + range_index * kRangeRecordSize + 2));
        start_coverage_index ←
          GetUint16 gsub (sz (range_records_offset + range_index * kRangeRecordSize + 4));
        if (end_glyph_id <? start_glyph_id)
           || negb (start_coverage_index =? coverage_index)
        then Bail
        else
          let coverage_index := u32 (coverage_index + (end_glyph_id - start_glyph_id)) in
          let coverage_index := u32 (coverage_index + 1) in
          coverage ← push_range fuel start_glyph_id end_glyph_id coverage;
          coverage_ranges fuel gsub range_records_offset n' (range_index + 1)
                          coverage_index coverage
  end.

(** [Bail] is [std::nullopt]. *)
Definition ReadCoverageTable (fuel : nat) (gsub : list byte) (offset : Z)
    : outcome (list Z) :=
  if size gsub <? sz (offset + 2) then Bail
  else
    coverage_format ← GetUint16 gsub offset;
    if coverage_format =? 1 then
      if size gsub <? sz (offset + 4) then Bail
      else
        glyph_count ← GetUint16 gsub (sz (offset + 2));
        let glyph_array_offset := sz (offset + 4) in
        coverage_glyphs gsub glyph_array_offset (Z.to_nat glyph_count) 0 []
    else if coverage_format =? 2 then
      if size gsub <? sz (offset + 4) then Bail
      else
        range_count ← GetUint16 gsub (sz (offset + 2));
        let range_records_offset := sz (offset + 4) in
        coverage_ranges fuel gsub range_records_offset (Z.to_nat range_count) 0 0 []
    else Bail.


(** ** ReadScriptFeatureIndices (lines 178-262) *)

Section ReadScriptFeatureIndices.
Variable gsub : list byte.
Variable script_list_offset : Z.
Variable required_script_tag required_lang_sys_tag : Z.

(** Lines 228-239: the result is [lang_sys_offset] after the loop.
    [n] is [lang_sys_count - lang_sys_index]. *)
Fixpoint lang_sys_records (script_offset lang_sys_records_offset : Z)
    (n : nat) (lang_sys_index : Z) (lang_sys_offset : Z) : outcome Z :=
  match n with
  | O => Done lang_sys_offset
  | S n' =>
      let kLangSysRecordSize := 6 in
      let lang_sys_record_offset :=
        sz (lang_sys_records_offset + lang_sys_index * kLangSysRecordSize) in
      if size gsub <? sz (lang_sys_record_offset + kLangSysRecordSize) then Bail
      else
        lang_sys_tag ← GetTag gsub lang_sys_record_offset;
        if lang_sys_tag =? required_lang_sys_tag then
          o ← GetUint16 gsub (sz (lang_sys_record_offset + 4));
          Done (sz (script_offset + o))                            (* break *)
        else
          lang_sys_records script_offset lang_sys_records_offset n'
                           (lang_sys_index + 1) lang_sys_offset
  end.

(** Lines 252-258.  [n] is [feature_index_count - i]. *)
Fixpoint feature_index_array (feature_indices_offset : Z)
    (n : nat) (i : Z) (feature_indices : list Z) : outcome (list Z) :=
  match n with
  | O => Done feature_indices
  | S n' =>
      if size gsub <? sz (feature_indices_offset + i * 2 + 2) then Bail
      else
        feature_index ← GetUint16 gsub (sz (feature_indices_offset + i * 2));
        feature_index_array feature_indices_offset n' (i + 1)
                            (feature_indices ++ [feature_index])
  end.

(** Lines 210-260.  [n] is [script_count - script_index]. *)
Fixpoint script_records (script_records_offset : Z)
    (n : nat) (script_index : Z) (feature_indices : list Z) : outcome (list Z) :=
  match n with
  | O => Done feature_indices
  | S n' =>
      let kScriptRecordSize := 6 in
      let script_record_offset :=
        sz (script_records_offset + script_index * kScriptRecordSize) in
      if size gsub <? sz (script_record_offset + kScriptRecordSize) then Bail
      else
        script_tag ← GetTag gsub script_record_offset;
        if negb (script_tag =? required_script_tag) then
          script_records script_records_offset n' (script_index + 1)
                         feature_indices                           (* continue *)
        else
          o ← GetOffset16 gsub (sz (script_record_offset + 4));
          let script_offset := sz (script_list_offset + o) in
          if size gsub <? sz (script_offset + 4) then Bail
          else
            d ← GetOffset16 gsub script_offset;
            let default_lang_sys_offset := sz (script_offset + d) in
            lang_sys_count ← GetUint16 gsub (sz (script_offset + 2));
            let lang_sys_records_offset := sz (script_offset + 4) in
            lang_sys_offset ←
              lang_sys_records script_offset lang_sys_records_offset
                               (Z.to_nat lang_sys_count) 0 default_lang_sys_offset;
            if lang_sys_offset =? script_offset then
              script_records script_records_offset n' (script_index + 1)
                             feature_indices                       (* continue *)
            else if size gsub <? sz (lang_sys_offset + 6) then Bail
            else
              required_feature_index ← GetUint16 gsub (sz (lang_sys_offset + 2));
              let feature_indices :=
                if negb (required_feature_index =? 0xffff)
                then feature_indices ++ [required_feature_index]
                else feature_indices in
              feature_index_count ← GetUint16 gsub (sz (lang_sys_offset + 4));
              let feature_indices_offset := sz (lang_sys_offset + 6) in
              feature_index_array feature_indices_offset
                                  (Z.to_nat feature_index_count) 0
                                  feature_indices                  (* break *)
  end.

(** Every early return is [return {}], the empty vector. *)
Definition ReadScriptFeatureIndices : outcome (list Z) :=
  returning []
    (if size gsub <? sz (script_list_offset + 2) then Bail
     else
       script_count ← GetUint16 gsub script_list_offset;
       let script_records_offset := sz (script_list_offset + 2) in
       script_records script_records_offset (Z.to_nat script_count) 0 []).
End ReadScriptFeatureIndices.

(** ** LoadGSUBTable (lines 264-440) *)

(** Lines 406-409: [half_width_subst_map[glyph_id] =
    static_cast<uint16_t>(glyph_id + delta_glyph_id)] for every covered
    glyph (the casts to [FT_UInt] keep the 16-bit values). *)
Definition single_subst_delta (coverage : list Z) (delta_glyph_id : Z)
    (half_width_subst_map : gmap Z Z) : gmap Z Z :=
  fold_left (fun m glyph_id => <[glyph_id := u16 (glyph_id + delta_glyph_id)]> m)
            coverage half_width_subst_map.

Section LoadGSUBTable.
Variable fuel : nat.
Variable gsub : list byte.
Variable required_feature_tag : Z.

Let gsub_size : Z := size gsub.

(** Lines 421-432.  [n] is [glyph_count - coverage_index]. *)
Fixpoint substitute_glyphs (coverage : list Z) (substitute_glyph_ids_offset : Z)
    (n : nat) (coverage_index : Z) (half_width_subst_map : gmap Z Z)
    : outcome (gmap Z Z) :=
  match n with
  | O => Done half_width_subst_map
  | S n' =>
      if gsub_size <? sz (substitute_glyph_ids_offset + coverage_index * 2 + 2)
      then Bail
      else
        substitute_glyph_id ←
          GetUint16 gsub (sz (substitute_glyph_ids_offset + coverage_index * 2));
        if Z.of_nat (length coverage) <=? coverage_index then Bail
        else
          (* coverage.value()[coverage_index], in range by the test above *)
          let covered := nth (Z.to_nat coverage_index) coverage 0 in
          substitute_glyphs coverage substitute_glyph_ids_offset n'
            (coverage_index + 1)
            (<[covered := substitute_glyph_id]> half_width_subst_map)
  end.

(** Lines 367-386: the extension redirection of one subtable.  [None] is
    the [continue] of line 373; otherwise the lookup type, subtable
    offset and substitution format in force afterwards. *)
Definition extension_redirect (is_extension : bool)
    (lookup_type subtable_offset subst_format : Z) : outcome (option (Z * Z * Z)) :=
  if is_extension then
    if negb (subst_format =? 1) then Done None
    else if gsub_size <? sz (subtable_offset + 8) then Bail
    else
      extension_lookup_type ← GetUint16 gsub (sz (subtable_offset + 2));
      extension_offset ← GetOffset32 gsub (sz (subtable_offset + 4));
      let lookup_type := extension_lookup_type in
      let subtable_offset := sz (subtable_offset + extension_offset) in
      if gsub_size <? sz (subtable_offset + 2) then Bail
      else
        subst_format ← GetUint16 gsub subtable_offset;
        Done (Some (lookup_type, subtable_offset, subst_format))
  else Done (Some (lookup_type, subtable_offset, subst_format)).

(** Lines 387-434: a subtable once its lookup type is known. *)
Definition single_substitution (lookup_type subtable_offset subst_format : Z)
    (half_width_subst_map : gmap Z Z) : outcome (gmap Z Z) :=
  if lookup_type =? 1 then
    if gsub_size <? sz (subtable_offset + 4) then Bail
    else
      o ← GetOffset16 gsub (sz (subtable_offset + 2));
      let coverage_offset := sz (subtable_offset + o) in
      coverage ← ReadCoverageTable fuel gsub coverage_offset;
      if subst_format =? 1 then
        if gsub_size <? sz (subtable_offset + 6) then Bail
        else
          delta_glyph_id ← GetInt16 gsub (sz (subtable_offset + 4));
          Done (single_subst_delta coverage delta_glyph_id half_width_subst_map)
      else if subst_format =? 2 then
        glyph_count ← GetUint16 gsub (sz (subtable_offset + 4));
        if gsub_size <? sz (subtable_offset + 6) then Bail
        else
          let substitute_glyph_ids_offset := sz (subtable_offset + 6) in
          substitute_glyphs coverage substitute_glyph_ids_offset
                            (Z.to_nat glyph_count) 0 half_width_subst_map
      else Done half_width_subst_map
  else Done half_width_subst_map.

(** Lines 357-435.  [lookup_type] is assigned inside the loop (line 380)
    and so is carried from one subtable to the next.
    [n] is [subtable_count - subtable_index]. *)
Fixpoint subtables (lookup_offset subtable_offsets_offset : Z) (is_extension : bool)
    (n : nat) (subtable_index : Z) (lookup_type : Z)
    (half_width_subst_map : gmap Z Z) : outcome (gmap Z Z) :=
  match n with
  | O => Done half_width_subst_map
  | S n' =>
      if gsub_size <? sz (subtable_offsets_offset + subtable_index * 2 + 2) then Bail
      else
        o ← GetOffset16 gsub (sz (subtable_offsets_offset + subtable_index * 2));
        let subtable_offset := sz (lookup_offset + o) in
        if gsub_size <? sz (subtable_offset + 2) then Bail
        else
          subst_format ← GetUint16 gsub subtable_offset;
          r ← extension_redirect is_extension lookup_type subtable_offset subst_format;
          match r with
          | None =>
              subtables lookup_offset subtable_offsets_offset is_extension n'
                        (subtable_index + 1) lookup_type half_width_subst_map
          | Some (lookup_type, subtable_offset, subst_format) =>
              half_width_subst_map ←
                single_substitution lookup_type subtable_offset subst_format
                                    half_width_subst_map;
              subtables lookup_offset subtable_offsets_offset is_extension n'
                        (subtable_index + 1) lookup_type half_width_subst_map
          end
  end.

Variable feature_list_offset lookup_list_offset : Z.
Variable feature_count : Z.

Let lookup_offsets_offset : Z := sz (lookup_list_offset + 2).
Let feature_records_offset : Z := sz (feature_list_offset + 2).

(** Lines 333-436.  [n] is [lookup_index_count - lookup_index]. *)
Fixpoint lookups (lookup_list_indices_offset : Z) (n : nat) (lookup_index : Z)
    (half_width_subst_map : gmap Z Z) : outcome (gmap Z Z) :=
  match n with
  | O => Done half_width_subst_map
  | S n' =>
      if gsub_size <? sz (lookup_list_indices_offset + lookup_index * 2 + 2) then Bail
      else
        lookup_list_index ←
          GetUint16 gsub (sz (lookup_list_indices_offset + lookup_index * 2));
        if (feature_count <=? lookup_list_index)
           || (gsub_size <? sz (lookup_offsets_offset + lookup_list_index * 2 + 2))
        then Bail
        else
          o ← GetOffset16 gsub (sz (lookup_offsets_offset + lookup_list_index * 2));
          let lookup_offset := sz (lookup_list_offset + o) in
          if gsub_size <? sz (lookup_offset + 6) then Bail
          else
            lookup_type ← GetUint16 gsub lookup_offset;
            lookup_flag ← GetUint16 gsub (sz (lookup_offset + 2));
            subtable_count ← GetUint16 gsub (sz (lookup_offset + 4));
            let is_extension := lookup_type =? 7 in
            let subtable_offsets_offset := sz (lookup_offset + 6) in
            half_width_subst_map ←
              subtables lookup_offset subtable_offsets_offset is_extension
                        (Z.to_nat subtable_count) 0 lookup_type half_width_subst_map;
            lookups lookup_list_indices_offset n' (lookup_index + 1)
                    half_width_subst_map
  end.

(** Lines 308-438: [for (auto feature_index : feature_indices)]. *)
Fixpoint features (feature_indices : list Z) (half_width_subst_map : gmap Z Z)
    : outcome (gmap Z Z) :=
  match feature_indices with
  | [] => Done half_width_subst_map
  | feature_index :: rest =>
      let kFeatureRecordSize := 6 in
      let feature_record_offset :=
        sz (feature_records_offset + feature_index * kFeatureRecordSize) in
      if (feature_count <=? feature_index)
         || (gsub_size <? sz (feature_record_offset + kFeatureRecordSize))
      then Bail
      else
        feature_tag ← GetTag gsub feature_record_offset;
        if negb (feature_tag =? required_feature_tag) then
          features rest half_width_subst_map                       (* continue *)
        else
          o ← GetOffset16 gsub (sz (feature_record_offset + 4));
          let feature_offset := sz (feature_list_offset + o) in
          if gsub_size <? sz (feature_offset + 4) then Bail
          else
            feature_params_offset ← GetOffset16 gsub feature_offset;
            if negb (feature_params_offset =? 0) then Bail
            else
              lookup_index_count ← GetUint16 gsub (sz (feature_offset + 2));
              let lookup_list_indices_offset := sz (feature_offset + 4) in
              lookups lookup_list_indices_offset (Z.to_nat lookup_index_count) 0
                      half_width_subst_map                         (* break *)
  end.
End LoadGSUBTable.

(** [table] is what the two calls of [FT_Load_Sfnt_Table(face, 'GSUB', ...)]
    of lines 268-275 deliver: [None] when either reports an error,
    otherwise the [gsub_size] bytes of the table.  Every early return is
    [return {}], the empty map. *)
Definition LoadGSUBTable (fuel : nat) (table : option (list byte))
    (required_feature_tag script_tag lang_sys_tag : Z) : outcome (gmap Z Z) :=
  returning ∅
    match table with
    | None => Bail
    | Some gsub =>
        let half_width_subst_map : gmap Z Z := ∅ in
        let gsub_size := size gsub in
        if ulong (gsub_size - 2) <? 8 then Bail
        else
          script_list_offset ← GetOffset16 gsub 4;
          feature_indices ←
            ReadScriptFeatureIndices gsub script_list_offset script_tag lang_sys_tag;
          feature_list_offset ← GetOffset16 gsub 6;
          lookup_list_offset ← GetOffset16 gsub 8;
          lookup_count ← GetUint16 gsub lookup_list_offset;
          if (gsub_size <? sz (lookup_list_offset + 2))
             || (gsub_size <? sz (feature_list_offset + 2))
          then Bail
          else
            feature_count ← GetUint16 gsub feature_list_offset;
            features fuel gsub required_feature_tag feature_list_offset
                     lookup_list_offset feature_count feature_indices
                     half_width_subst_map
    end.

End GSUB.

(** ** The renderer's collaborators

    The declarations of these types live in headers
    ([font_provider.hpp], [text_renderer.hpp], [bitmap.hpp],
    [canvas.hpp], FreeType's own) that the renderer only uses; they are
    interfaces here. *)

Inductive Result (T E : Type) : Type :=
| Ok (value : T)
| Err (error : E).
Arguments Ok {T E} value.
Arguments Err {T E} error.

Definition is_err {T E} (r : Result T E) : bool :=
  match r with Ok _ => false | Err _ => true end.

(** Modelled from the spec: the error enumeration of the font provider
    ([font_provider.hpp]); section 6 names [FontNotFound] "and other
    categories", section 7 says they map 1:1 into render statuses. *)
Module FontProviderError.
Inductive t := kFontNotFound | kCodePointNotFound | kOtherError.
End FontProviderError.

(** Modelled from the spec: the render statuses of section 7
    ([text_renderer.hpp]). *)
Module TextRenderStatus.
Inductive t := kOK | kFontNotFound | kCodePointNotFound | kOtherError.
End TextRenderStatus.

(** Modelled from the spec: [FontProviderErrorToStatus] is declared in
    [text_renderer.hpp]; "font-provider errors are mapped 1:1 into render
    statuses when they reach the caller" (section 7). *)
Definition FontProviderErrorToStatus (error : FontProviderError.t)
    : TextRenderStatus.t :=
  match error with
  | FontProviderError.kFontNotFound => TextRenderStatus.kFontNotFound
  | FontProviderError.kCodePointNotFound => TextRenderStatus.kCodePointNotFound
  | FontProviderError.kOtherError => TextRenderStatus.kOtherError
  end.

Module TextRenderFallbackPolicy.
Inductive t := kAuto | kFailOnCodePointNotFound.
End TextRenderFallbackPolicy.

Record FontfaceInfo := {
  family_name : string;
  postscript_name : string;
  filename : string;
  face_index : Z;
  font_data : list byte;
}.

Record UnderlineInfo := { start_x : Z; width : Z }.

Record Rect := { rect_left : Z; rect_top : Z; rect_right : Z; rect_bottom : Z }.

(** [font_provider_.GetFontFace(font_name, codepoint)]. *)
Class FontProvider := {
  GetFontFace : string -> option Z -> Result FontfaceInfo FontProviderError.t;
}.

Record FT_SfntName := { platform_id : Z; name_id : Z; string_ : list byte }.

Record FT_Size_Metrics := { ascender : Z; descender : Z; x_scale : Z }.

(** [DrawChar] calls [FT_Get_Glyph] on the glyph slot twice, for the
    filling (line 551) and for the stroke border (line 567); each call
    allocates and can fail on its own. *)
Inductive GlyphUse := ForFilling | ForStroke.

Record FT_BitmapGlyphRec (FT_Bitmap : Type) := {
  glyph_left : Z;
  glyph_top : Z;
  bitmap : FT_Bitmap;
}.
Arguments glyph_left {FT_Bitmap} _.
Arguments glyph_top {FT_Bitmap} _.
Arguments bitmap {FT_Bitmap} _.

(** The outline library.  A call that reports an [FT_Error] is [None];
    otherwise the value is what the call leaves behind: the handle, the
    size metrics of the face, its glyph slot. *)
Class FreeType := {
  FT_Face : Type;
  FT_Face_eq_dec :: EqDecision FT_Face;
  FT_GlyphSlot : Type;
  FT_Glyph : Type;
  FT_Bitmap : Type;
  FT_New_Face : string -> Z -> option FT_Face;
  FT_New_Memory_Face : list byte -> Z -> option FT_Face;
  num_faces : FT_Face -> Z;
  FT_Get_Postscript_Name : FT_Face -> string;
  (* entry [i] is [FT_Get_Sfnt_Name(face, i, _)] for [i] below
     [FT_Get_Sfnt_Name_Count(face)] *)
  FT_Sfnt_Names : FT_Face -> list (option FT_SfntName);
  FT_Get_Char_Index : FT_Face -> Z -> Z;
  FT_Load_Sfnt_Table : FT_Face -> Z -> option (list byte);
  underline_position : FT_Face -> Z;
  underline_thickness : FT_Face -> Z;
  FT_MulFix : Z -> Z -> Z;
  FT_Set_Pixel_Sizes : FT_Face -> Z -> Z -> option FT_Size_Metrics;
  (* the glyph slot depends on the pixel sizes set before *)
  FT_Load_Glyph : FT_Face -> Z * Z -> Z -> option FT_GlyphSlot;
  FT_Get_Glyph : FT_GlyphSlot -> GlyphUse -> option FT_Glyph;
  FT_Glyph_To_Bitmap : FT_Glyph -> option (FT_BitmapGlyphRec FT_Bitmap);
  (* [FT_Stroker_New], [FT_Stroker_Set] with the radius and round cap and
     join, [FT_Glyph_StrokeBorder]: their errors are not looked at *)
  FT_Glyph_StrokeBorder : FT_Glyph -> Z -> FT_Glyph;
}.

(** [Bitmap], [ColorRGBA] and the [Canvas] over a bitmap. *)
Class Canvas := {
  Bitmap : Type;
  ColorRGBA : Type;
  DrawRect : Bitmap -> ColorRGBA -> Rect -> Bitmap;
  DrawBitmap : Bitmap -> Bitmap -> Z -> Z -> Bitmap;
}.

(** The [float] of [stroke_width]. *)
Class Float32 := {
  float : Type;
  float_zero : float;
  float_ltb : float -> float -> bool;
  (* [static_cast<FT_Fixed>(stroke_width * 64)] *)
  float_to_26_6 : float -> Z;
}.

(** [FTBitmapToColoredBitmap] (lines 636-648) fills a fresh [Bitmap]
    through [alphablend::FillLineWithAlphas]; both are interfaces. *)
Class AlphaBlend `{FreeType} `{Canvas} := {
  FTBitmapToColoredBitmap : FT_Bitmap -> ColorRGBA -> Bitmap;
}.

(** [utf::ConvertUTF16BEToUTF8(units, count)] of [base/utf_helper.hpp]. *)
Class UtfHelper := {
  ConvertUTF16BEToUTF8 : list byte -> Z -> string;
}.

(** The [CharStyle] bits the renderer tests. *)
Class CharStyleBits := {
  kCharStyleStroke : Z;
  kCharStyleUnderline : Z;
}.

Definition TT_PLATFORM_MICROSOFT : Z := 3.
Definition TT_NAME_ID_FONT_FAMILY : Z := 1.
Definition TT_NAME_ID_FULL_NAME : Z := 4.

(** [v.empty()], [v.size()] and [v[i]] of a [std::vector]. *)
Definition vec_empty {A} (v : list A) : bool :=
  match v with [] => true | _ => false end.

Definition vec_size {A} (v : list A) : Z := Z.of_nat (length v).

Definition vec_at {A} (v : list A) (i : Z) : outcome A :=
  if (0 <=? i) && (i <? vec_size v) then
    match v !! Z.to_nat i with
    | Some x => Done x
    | None => OutOfBounds i
    end
  else OutOfBounds i.

(** [static_cast<int>] of a [long]. *)
Definition to_int (z : Z) : Z :=
  let u := u32 z in if u <? 2 ^ 31 then u else u - 2 ^ 32.

Definition string_empty (s : string) : bool :=
  match s with EmptyString => true | _ => false end.

(** ** The renderer (class [TextRendererFreetype]) *)

Section Renderer.
Context `{FontProvider} `{FreeType} `{Canvas} `{!AlphaBlend}.
Context `{Float32} `{UtfHelper} `{CharStyleBits}.

(** The data members the member functions use (the class is declared in
    [text_renderer_freetype.hpp]).  [library_] is set once by
    [Initialize], and [log_] only writes messages; neither is kept. *)
Record Renderer := {
  font_family_ : list string;
  main_face_ : option FT_Face;            (* ScopedHolder<FT_Face> *)
  fallback_face_ : option FT_Face;
  main_face_data_ : list byte;
  fallback_face_data_ : list byte;
  main_face_index_ : Z;
  main_half_width_subst_map_ : option (gmap Z Z);
  fallback_half_width_subst_map_ : option (gmap Z Z);
}.

Definition set_font_family_ (v : list string) (self : Renderer) : Renderer :=
  {| font_family_ := v; main_face_ := main_face_ self;
     fallback_face_ := fallback_face_ self;
     main_face_data_ := main_face_data_ self;
     fallback_face_data_ := fallback_face_data_ self;
     main_face_index_ := main_face_index_ self;
     main_half_width_subst_map_ := main_half_width_subst_map_ self;
     fallback_half_width_subst_map_ := fallback_half_width_subst_map_ self |}.

Definition set_main_face_ (v : option FT_Face) (self : Renderer) : Renderer :=
  {| font_family_ := font_family_ self; main_face_ := v;
     fallback_face_ := fallback_face_ self;
     main_face_data_ := main_face_data_ self;
     fallback_face_data_ := fallback_face_data_ self;
     main_face_index_ := main_face_index_ self;
     main_half_width_subst_map_ := main_half_width_subst_map_ self;
     fallback_half_width_subst_map_ := fallback_half_width_subst_map_ self |}.

Definition set_fallback_face_ (v : option FT_Face) (self : Renderer) : Renderer :=
  {| font_family_ := font_family_ self; main_face_ := main_face_ self;
     fallback_face_ := v;
     main_face_data_ := main_face_data_ self;
     fallback_face_data_ := fallback_face_data_ self;
     main_face_index_ := main_face_index_ self;
     main_half_width_subst_map_ := main_half_width_subst_map_ self;
     fallback_half_width_subst_map_ := fallback_half_width_subst_map_ self |}.

Definition set_main_face_data_ (v : list byte) (self : Renderer) : Renderer :=
  {| font_family_ := font_family_ self; main_face_ := main_face_ self;
     fallback_face_ := fallback_face_ self;
     main_face_data_ := v;
     fallback_face_data_ := fallback_face_data_ self;
     main_face_index_ := main_face_index_ self;
     main_half_width_subst_map_ := main_half_width_subst_map_ self;
     fallback_half_width_subst_map_ := fallback_half_width_subst_map_ self |}.

Definition set_fallback_face_data_ (v : list byte) (self : Renderer) : Renderer :=
  {| font_family_ := font_family_ self; main_face_ := main_face_ self;
     fallback_face_ := fallback_face_ self;
     main_face_data_ := main_face_data_ self;
     fallback_face_data_ := v;
     main_face_index_ := main_face_index_ self;
     main_half_width_subst_map_ := main_half_width_subst_map_ self;
     fallback_half_width_subst_map_ := fallback_half_width_subst_map_ self |}.

Definition set_main_face_index_ (v : Z) (self : Renderer) : Renderer :=
  {| font_family_ := font_family_ self; main_face_ := main_face_ self;
     fallback_face_ := fallback_face_ self;
     main_face_data_ := main_face_data_ self;
     fallback_face_data_ := fallback_face_data_ self;
     main_face_index_ := v;
     main_half_width_subst_map_ := main_half_width_subst_map_ self;
     fallback_half_width_subst_map_ := fallback_half_width_subst_map_ self |}.

Definition set_main_half_width_subst_map_ (v : option (gmap Z Z))
    (self : Renderer) : Renderer :=
  {| font_family_ := font_family_ self; main_face_ := main_face_ self;
     fallback_face_ := fallback_face_ self;
     main_face_data_ := main_face_data_ self;
     fallback_face_data_ := fallback_face_data_ self;
     main_face_index_ := main_face_index_ self;
     main_half_width_subst_map_ := v;
     fallback_half_width_subst_map_ := fallback_half_width_subst_map_ self |}.

Definition set_fallback_half_width_subst_map_ (v : option (gmap Z Z))
    (self : Renderer) : Renderer :=
  {| font_family_ := font_family_ self; main_face_ := main_face_ self;
     fallback_face_ := fallback_face_ self;
     main_face_data_ := main_face_data_ self;
     fallback_face_data_ := fallback_face_data_ self;
     main_face_index_ := main_face_index_ self;
     main_half_width_subst_map_ := main_half_width_subst_map_ self;
     fallback_half_width_subst_map_ := v |}.

(** The renderer as its constructor leaves it. *)
Definition fresh : Renderer :=
  {| font_family_ := []; main_face_ := None; fallback_face_ := None;
     main_face_data_ := []; fallback_face_data_ := [];
     main_face_index_ := 0;
     main_half_width_subst_map_ := None;
     fallback_half_width_subst_map_ := None |}.

(** The calls a member function makes on the font provider and, on the
    outline library, those that open, close, read or set up a face, in
    order.  Queries such as [FT_Get_Char_Index] and the calls on glyphs
    are not recorded. *)
Inductive Call :=
| CallGetFontFace (font_name : string) (codepoint : option Z)
| CallNewFace (file : string) (index : Z)
| CallNewMemoryFace (data : list byte) (index : Z)
| CallDoneFace (face : FT_Face)
| CallLoadSfntTable (face : FT_Face) (tag : Z)    (* by LoadGSUBTable *)
| CallSetPixelSizes (face : FT_Face) (pixel_width pixel_height : Z)
| CallLoadGlyph (face : FT_Face) (glyph_index : Z).

(** One [GetFontFace] call for each of [names], in order. *)
Definition provider_queries (codepoint : option Z) (names : list string)
    : list Call :=
  map (fun font_name => CallGetFontFace font_name codepoint) names.

(** A [ScopedHolder<FT_Face>] gives up what it holds ([Reset], or being
    assigned to): [FT_Done_Face] on the handle, if there is one. *)
Definition release (holder : option FT_Face) : list Call :=
  match holder with
  | Some face => [CallDoneFace face]
  | None => []
  end.

(** *** SetFontFamily (lines 58-74) *)

Definition SetFontFamily (self : Renderer) (font_family : list string)
    : bool * Renderer * list Call :=
  if vec_empty font_family then (false, self, [])
  else
    let '(self, calls) :=
      if negb (vec_empty (font_family_ self))
         && negb (bool_decide (font_family_ self = font_family))
      then
        (* Reset Freetype faces *)
        (set_main_face_index_ 0
           (set_fallback_face_data_ []
              (set_main_face_data_ []
                 (set_fallback_face_ None (set_main_face_ None self)))),
         release (main_face_ self) ++ release (fallback_face_ self))
      else (self, []) in
    (true, set_font_family_ font_family self, calls).

(** *** MatchFontFamilyName (lines 650-675) *)

Fixpoint match_sfnt_names (names : list (option FT_SfntName)) (name : string)
    : bool :=
  match names with
  | [] => false
  | None :: rest => match_sfnt_names rest name                   (* continue *)
  | Some sfnt_name :: rest =>
      if (name_id sfnt_name =? TT_NAME_ID_FONT_FAMILY)
         || (name_id sfnt_name =? TT_NAME_ID_FULL_NAME)
      then
        let name_str :=
          if platform_id sfnt_name =? TT_PLATFORM_MICROSOFT then
            ConvertUTF16BEToUTF8 (string_ sfnt_name)
                                 (vec_size (string_ sfnt_name) ÷ 2)
          else String.string_of_list_byte (string_ sfnt_name) in
        if bool_decide (name_str = name) then true
        else match_sfnt_names rest name
      else match_sfnt_names rest name
  end.

Definition MatchFontFamilyName (face : FT_Face) (name : string) : bool :=
  match_sfnt_names (FT_Sfnt_Names face) name.

(** *** LoadFontFace (lines 677-770) *)

(** Lines 691-695: [while (result.is_err() && font_index + 1 <
    font_family_.size())].  [rest] is the part of [font_family_] after
    [font_index]. *)
Fixpoint next_suitable_font (codepoint : option Z) (rest : list string)
    (font_index : Z) (result : Result FontfaceInfo FontProviderError.t)
    (calls : list Call)
    : Z * Result FontfaceInfo FontProviderError.t * list Call :=
  match rest with
  | [] => (font_index, result, calls)
  | font_name :: rest' =>
      if is_err result then
        next_suitable_font codepoint rest' (font_index + 1)
          (GetFontFace font_name codepoint)
          (calls ++ [CallGetFontFace font_name codepoint])
      else (font_index, result, calls)
  end.

(** [FT_New_Face] on the file name, or [FT_New_Memory_Face] on the
    slot's buffer (lines 719-731 and 746-758). *)
Definition new_face (use_memory_data : bool) (info : FontfaceInfo)
    (memory_data : list byte) (index : Z) : option FT_Face * Call :=
  if negb use_memory_data then
    (FT_New_Face (filename info) index, CallNewFace (filename info) index)
  else
    (FT_New_Memory_Face memory_data index, CallNewMemoryFace memory_data index).

(** Lines 743-768.  The bound [face->num_faces] is read from the face
    opened by the iteration before, so the loop takes fuel. *)
Fixpoint find_exact_face (fuel : nat) (use_memory_data : bool)
    (info : FontfaceInfo) (memory_data : list byte) (font_index : Z)
    (i : Z) (face : FT_Face) (calls : list Call)
    : outcome (Result (FT_Face * Z) FontProviderError.t * list Call) :=
  match fuel with
  | O => OutOfFuel
  | S fuel' =>
      if i <? num_faces face then
        let calls := calls ++ [CallDoneFace face] in
        match new_face use_memory_data info memory_data i with
        | (None, call) =>
            Done (Err FontProviderError.kFontNotFound, calls ++ [call])
        | (Some face, call) =>
            let calls := calls ++ [call] in
            if negb (string_empty (postscript_name info))
               && bool_decide (postscript_name info = FT_Get_Postscript_Name face)
            then Done (Ok (face, font_index), calls)
            else if negb (string_empty (family_name info))
                    && MatchFontFamilyName face (family_name info)
            then Done (Ok (face, font_index), calls)
            else find_exact_face fuel' use_memory_data info memory_data
                                 font_index (i + 1) face calls
        end
      else Done (Err FontProviderError.kFontNotFound, calls)
  end.

(** Lines 703-716: data that came with [info] goes into the buffer of
    the slot, whose face is given up first. *)
Definition store_font_data (self : Renderer) (is_fallback : bool)
    (info : FontfaceInfo) (calls : list Call) : Renderer * list Call :=
  if negb (vec_empty (font_data info)) then
    if negb is_fallback then
      (set_main_face_data_ (font_data info) (set_main_face_ None self),
       calls ++ release (main_face_ self))
    else
      (set_fallback_face_data_ (font_data info) (set_fallback_face_ None self),
       calls ++ release (fallback_face_ self))
  else (self, calls).

(** Lines 701-769: the provider's answer [info] opened as a face. *)
Definition open_font_face (fuel : nat) (self : Renderer) (is_fallback : bool)
    (info : FontfaceInfo) (font_index : Z) (calls : list Call)
    : outcome (Result (FT_Face * Z) FontProviderError.t * Renderer * list Call) :=
  let use_memory_data := negb (vec_empty (font_data info)) in
  let '(self, calls) := store_font_data self is_fallback info calls in
  let memory_data :=
    if negb is_fallback then main_face_data_ self else fallback_face_data_ self in
  match new_face use_memory_data info memory_data (face_index info) with
  | (None, call) =>
      Done (Err FontProviderError.kFontNotFound, self, calls ++ [call])
  | (Some face, call) =>
      let calls := calls ++ [call] in
      if 0 <=? face_index info then Done (Ok (face, font_index), self, calls)
      else if string_empty (family_name info)
              && string_empty (postscript_name info)
      then Done (Err FontProviderError.kOtherError, self, calls)
      else
        '(result, calls) ←
          find_exact_face fuel use_memory_data info memory_data font_index
                          0 face calls;
        Done (result, self, calls)
  end.

Definition LoadFontFace (fuel : nat) (self : Renderer) (is_fallback : bool)
    (codepoint : option Z) (begin_index : option Z)
    : outcome (Result (FT_Face * Z) FontProviderError.t * Renderer * list Call) :=
  if match begin_index with
     | Some b => vec_size (font_family_ self) <=? b
     | None => false
     end
  then Done (Err FontProviderError.kFontNotFound, self, [])
  else
    (* begin_index is optional *)
    let font_index := default 0 begin_index in
    font_name ← vec_at (font_family_ self) font_index;
    let result := GetFontFace font_name codepoint in
    let '(font_index, result, calls) :=
      next_suitable_font codepoint
        (drop (Z.to_nat (font_index + 1)) (font_family_ self))
        font_index result [CallGetFontFace font_name codepoint] in
    match result with
    | Err error =>
        (* Not found, return Err Result *)
        Done (Err error, self, calls)
    | Ok info => open_font_face fuel self is_fallback info font_index calls
    end.

(** *** DrawChar (lines 442-634)

    [assert(char_height > 0)] (line 447) is the first statement of the
    function: with [char_height <= 0] the call aborts before anything
    else is looked at.  [int] arithmetic on coordinates is taken in
    [Z]. *)

(** Lines 453-454. *)
Definition is_space_character (ucs4 : Z) : bool :=
  (ucs4 =? 0x0009) || (ucs4 =? 0x0020) || (ucs4 =? 0x00A0) || (ucs4 =? 0x1680)
  || (ucs4 =? 0x3000) || (ucs4 =? 0x202F) || (ucs4 =? 0x205F)
  || ((0x2000 <=? ucs4) && (ucs4 <=? 0x200A)).

(** Lines 458-469: the main face, loaded from [font_family_] if it is
    not there yet; or the status to return. *)
Definition ensure_main_face (fuel : nat) (self : Renderer)
    : outcome ((TextRenderStatus.t + FT_Face) * Renderer * list Call) :=
  match main_face_ self with
  | Some face => Done (inr face, self, [])
  | None =>
      '(result, self, calls) ← LoadFontFace fuel self false None None;
      match result with
      | Err error => Done (inl (FontProviderErrorToStatus error), self, calls)
      | Ok (face, index) =>
          Done (inr face,
                set_main_face_index_ index (set_main_face_ (Some face) self),
                calls ++ release (main_face_ self))
      end
  end.

(** Line 482: [fallback_face_ && (glyph_index =
    FT_Get_Char_Index(fallback_face_, ucs4))]. *)
Definition fallback_glyph (self : Renderer) (ucs4 : Z) : option (FT_Face * Z) :=
  match fallback_face_ self with
  | Some face =>
      let glyph_index := FT_Get_Char_Index face ucs4 in
      if negb (glyph_index =? 0) then Some (face, glyph_index) else None
  | None => None
  end.

(** Lines 471-506: the face to draw with and the glyph index in it; or
    the status to return. *)
Definition resolve_glyph (fuel : nat) (self : Renderer) (main_face : FT_Face)
    (ucs4 : Z) (fallback_policy : TextRenderFallbackPolicy.t)
    : outcome ((TextRenderStatus.t + FT_Face * Z) * Renderer * list Call) :=
  let face := main_face in
  let glyph_index := FT_Get_Char_Index face ucs4 in
  if glyph_index =? 0 then
    match fallback_policy with
    | TextRenderFallbackPolicy.kFailOnCodePointNotFound =>
        Done (inl TextRenderStatus.kCodePointNotFound, self, [])
    | TextRenderFallbackPolicy.kAuto =>
        (* Missing glyph, check fallback face *)
        match fallback_glyph self ucs4 with
        | Some (face, glyph_index) => Done (inr (face, glyph_index), self, [])
        | None =>
            if vec_size (font_family_ self) <=? sz (main_face_index_ self + 1) then
              (* Fallback fonts not available *)
              Done (inl TextRenderStatus.kCodePointNotFound, self, [])
            else
              '(result, self, calls) ←
                LoadFontFace fuel self true (Some ucs4)
                             (Some (sz (main_face_index_ self + 1)));
              match result with
              | Err error =>
                  Done (inl (FontProviderErrorToStatus error), self, calls)
              | Ok (face, _) =>
                  let calls := calls ++ release (fallback_face_ self) in
                  let self := set_fallback_face_ (Some face) self in
                  (* Use this fallback fontface for rendering this time *)
                  let glyph_index := FT_Get_Char_Index face ucs4 in
                  if glyph_index =? 0 then
                    Done (inl TextRenderStatus.kCodePointNotFound, self, calls)
                  else Done (inr (face, glyph_index), self, calls)
              end
        end
    end
  else Done (inr (face, glyph_index), self, []).

(** Lines 509-519: the substitution map of the slot of [face] is
    computed if it is absent. *)
Definition ensure_subst_map (fuel : nat) (self : Renderer) (face : FT_Face)
    : outcome (Renderer * list Call) :=
  let load :=
    GSUB.LoadGSUBTable fuel (FT_Load_Sfnt_Table face (GSUB.FT_MAKE_TAG 71 83 85 66))
      GSUB.kOpenTypeFeatureHalfWidth GSUB.kOpenTypeScriptHiraganaKatakana
      GSUB.kOpenTypeLangSysJapanese in
  let call := CallLoadSfntTable face (GSUB.FT_MAKE_TAG 71 83 85 66) in
  if bool_decide (Some face = main_face_ self) then
    match main_half_width_subst_map_ self with
    | None =>
        m ← load; Done (set_main_half_width_subst_map_ (Some m) self, [call])
    | Some _ => Done (self, [])
    end
  else if bool_decide (Some face = fallback_face_ self) then
    match fallback_half_width_subst_map_ self with
    | None =>
        m ← load; Done (set_fallback_half_width_subst_map_ (Some m) self, [call])
    | Some _ => Done (self, [])
    end
  else Done (self, []).

(** Line 520: [face == main_face_ ? main_half_width_subst_map_ :
    fallback_half_width_subst_map_]. *)
Definition subst_map (self : Renderer) (face : FT_Face) : option (gmap Z Z) :=
  if bool_decide (Some face = main_face_ self)
  then main_half_width_subst_map_ self
  else fallback_half_width_subst_map_ self.

(** Lines 508-528: the glyph index and [char_width] to draw with. *)
Definition half_width_substitution (fuel : nat) (self : Renderer) (face : FT_Face)
    (glyph_index char_width char_height : Z)
    : outcome (Z * Z * Renderer * list Call) :=
  if char_width =? char_height ÷ 2 then
    '(self, calls) ← ensure_subst_map fuel self face;
    match subst_map self face with
    | Some m =>
        match m !! glyph_index with
        | Some subst => Done (subst, char_height, self, calls)
        | None => Done (glyph_index, char_width, self, calls)
        end
    | None => Done (glyph_index, char_width, self, calls)
    end
  else Done (glyph_index, char_width, self, []).

(** What lines 530-588 prepare for drawing. *)
Record Prepared := {
  baseline : Z;
  em_adjust_y : Z;
  underline : Z;
  underline_thickness_px : Z;
  glyph_image : FT_BitmapGlyphRec FT_Bitmap;
  border_glyph_image : option (FT_BitmapGlyphRec FT_Bitmap);
}.

(** Lines 564-588: the stroke border, if the style asks for one. *)
Definition stroke_border (slot : FT_GlyphSlot) (style : Z) (stroke_width : float)
    : TextRenderStatus.t + option (FT_BitmapGlyphRec FT_Bitmap) :=
  if negb (Z.land style kCharStyleStroke =? 0) && float_ltb float_zero stroke_width
  then
    match FT_Get_Glyph slot ForStroke with
    | None => inl TextRenderStatus.kOtherError
    | Some stroke_glyph =>
        let stroke_glyph :=
          FT_Glyph_StrokeBorder stroke_glyph (float_to_26_6 stroke_width) in
        match FT_Glyph_To_Bitmap stroke_glyph with
        | None => inl TextRenderStatus.kOtherError
        | Some stroke_glyph => inr (Some stroke_glyph)
        end
    end
  else inr None.

(** Lines 530-588: every call on the outline library that can fail. *)
Definition prepare_glyph (face : FT_Face) (glyph_index : Z)
    (style : Z) (stroke_width : float) (char_width char_height : Z)
    : (TextRenderStatus.t + Prepared) * list Call :=
  let pixel_width := u32 char_width in
  let pixel_height := u32 char_height in
  let calls := [CallSetPixelSizes face pixel_width pixel_height] in
  match FT_Set_Pixel_Sizes face pixel_width pixel_height with
  | None => (inl TextRenderStatus.kOtherError, calls)
  | Some metrics =>
      let baseline := to_int (Z.shiftr (ascender metrics) 6) in
      let ascender := to_int (Z.shiftr (ascender metrics) 6) in
      let descender := to_int (Z.shiftr (descender metrics) 6) in
      let underline :=
        to_int (Z.shiftr (FT_MulFix (underline_position face) (x_scale metrics)) 6) in
      let underline_thickness :=
        to_int (Z.shiftr (FT_MulFix (underline_thickness face) (x_scale metrics)) 6) in
      let em_height := ascender + Z.abs descender in
      let em_adjust_y := (char_height - em_height) ÷ 2 in
      let calls := calls ++ [CallLoadGlyph face glyph_index] in
      match FT_Load_Glyph face (pixel_width, pixel_height) glyph_index with
      | None => (inl TextRenderStatus.kOtherError, calls)
      | Some slot =>
          (* Generate glyph bitmap for filling *)
          match FT_Get_Glyph slot ForFilling with
          | None => (inl TextRenderStatus.kOtherError, calls)
          | Some glyph_image =>
              match FT_Glyph_To_Bitmap glyph_image with
              | None => (inl TextRenderStatus.kOtherError, calls)
              | Some glyph_image =>
                  match stroke_border slot style stroke_width with
                  | inl status => (inl status, calls)
                  | inr border_glyph_image =>
                      (inr {| baseline := baseline;
                              em_adjust_y := em_adjust_y;
                              underline := underline;
                              underline_thickness_px := underline_thickness;
                              glyph_image := glyph_image;
                              border_glyph_image := border_glyph_image |},
                       calls)
                  end
              end
          end
      end
  end.

(** Lines 593-611. *)
Definition draw_underline (p : Prepared) (target_y : Z) (style : Z)
    (color : ColorRGBA) (underline_info : option UnderlineInfo)
    (canvas : Bitmap) : Bitmap :=
  match underline_info with
  | Some info =>
      if negb (Z.land style kCharStyleUnderline =? 0)
         && (0 <? underline_thickness_px p)
      then
        let underline_y :=
          target_y + baseline p + em_adjust_y p + Z.abs (underline p) in
        let half_thickness := underline_thickness_px p ÷ 2 in
        let underline_rect :=
          if negb (Z.rem (underline_thickness_px p) 2 =? 0) then  (* odd number *)
            {| rect_left := start_x info;
               rect_top := underline_y - half_thickness;
               rect_right := start_x info + width info;
               rect_bottom := underline_y + 1 + half_thickness |}
          else                                                  (* even number *)
            {| rect_left := start_x info;
               rect_top := underline_y - (half_thickness - 1);
               rect_right := start_x info + width info;
               rect_bottom := underline_y + 1 + half_thickness |} in
        DrawRect canvas color underline_rect
      else canvas
  | None => canvas
  end.

(** Lines 614-631: a glyph bitmap coloured and blitted. *)
Definition draw_glyph (p : Prepared) (target_x target_y : Z)
    (g : FT_BitmapGlyphRec FT_Bitmap) (color : ColorRGBA) (canvas : Bitmap)
    : Bitmap :=
  let start_x := target_x + glyph_left g in
  let start_y := target_y + baseline p + em_adjust_y p - glyph_top g in
  let bmp := FTBitmapToColoredBitmap (bitmap g) color in
  DrawBitmap canvas bmp start_x start_y.

(** Lines 590-631: underline, stroke border, filling, in this order. *)
Definition composite (p : Prepared) (target_x target_y : Z) (style : Z)
    (color stroke_color : ColorRGBA) (underline_info : option UnderlineInfo)
    (target_bmp : Bitmap) : Bitmap :=
  let canvas := draw_underline p target_y style color underline_info target_bmp in
  let canvas :=
    match border_glyph_image p with
    | Some border => draw_glyph p target_x target_y border stroke_color canvas
    | None => canvas
    end in
  draw_glyph p target_x target_y (glyph_image p) color canvas.

(** The result is the status, the renderer and the bitmap of
    [render_ctx] after the call, and the calls made. *)
Definition DrawChar (fuel : nat) (self : Renderer) (target_bmp : Bitmap)
    (target_x target_y : Z) (ucs4 : Z) (style : Z)
    (color stroke_color : ColorRGBA) (stroke_width : float)
    (char_width char_height : Z) (underline_info : option UnderlineInfo)
    (fallback_policy : TextRenderFallbackPolicy.t)
    : outcome (TextRenderStatus.t * Renderer * Bitmap * list Call) :=
  if negb (0 <? char_height) then AssertFailed      (* assert(char_height > 0) *)
  else
  let stroke_width :=
    if float_ltb stroke_width float_zero then float_zero else stroke_width in
  (* Handle space characters *)
  if is_space_character ucs4 then Done (TextRenderStatus.kOK, self, target_bmp, [])
  else
    '(main, self, calls1) ← ensure_main_face fuel self;
    match main with
    | inl status => Done (status, self, target_bmp, calls1)
    | inr main_face =>
        '(resolved, self, calls2) ←
          resolve_glyph fuel self main_face ucs4 fallback_policy;
        match resolved with
        | inl status => Done (status, self, target_bmp, calls1 ++ calls2)
        | inr (face, glyph_index) =>
            '(glyph_index, char_width, self, calls3) ←
              half_width_substitution fuel self face glyph_index
                                      char_width char_height;
            let '(prepared, calls4) :=
              prepare_glyph face glyph_index style stroke_width
                            char_width char_height in
            let calls := calls1 ++ calls2 ++ calls3 ++ calls4 in
            match prepared with
            | inl status => Done (status, self, target_bmp, calls)
            | inr p =>
                Done (TextRenderStatus.kOK, self,
                      composite p target_x target_y style color stroke_color
                                underline_info target_bmp,
                      calls)
            end
        end
    end.

(** *** Vocabulary: a failure of the outline library in a draw

    One case for each call of lines 530-588 that reports an error, the
    calls before it having succeeded. *)
Inductive outline_failure (face : FT_Face) (glyph_index style : Z)
    (stroke_width : float) (char_width char_height : Z) : Prop :=
| set_pixel_sizes_fails :
    FT_Set_Pixel_Sizes face (u32 char_width) (u32 char_height) = None ->
    outline_failure face glyph_index style stroke_width char_width char_height
| load_glyph_fails metrics :
    FT_Set_Pixel_Sizes face (u32 char_width) (u32 char_height) = Some metrics ->
    FT_Load_Glyph face (u32 char_width, u32 char_height) glyph_index = None ->
    outline_failure face glyph_index style stroke_width char_width char_height
| get_glyph_fails metrics slot :
    FT_Set_Pixel_Sizes face (u32 char_width) (u32 char_height) = Some metrics ->
    FT_Load_Glyph face (u32 char_width, u32 char_height) glyph_index = Some slot ->
    FT_Get_Glyph slot ForFilling = None ->
    outline_failure face glyph_index style stroke_width char_width char_height
| glyph_to_bitmap_fails metrics slot glyph :
    FT_Set_Pixel_Sizes face (u32 char_width) (u32 char_height) = Some metrics ->
    FT_Load_Glyph face (u32 char_width, u32 char_height) glyph_index = Some slot ->
    FT_Get_Glyph slot ForFilling = Some glyph ->
    FT_Glyph_To_Bitmap glyph = None ->
    outline_failure face glyph_index style stroke_width char_width char_height
| stroke_get_glyph_fails metrics slot glyph image :
    FT_Set_Pixel_Sizes face (u32 char_width) (u32 char_height) = Some metrics ->
    FT_Load_Glyph face (u32 char_width, u32 char_height) glyph_index = Some slot ->
    FT_Get_Glyph slot ForFilling = Some glyph ->
    FT_Glyph_To_Bitmap glyph = Some image ->
    Z.land style kCharStyleStroke <> 0 ->
    float_ltb float_zero stroke_width = true ->
    FT_Get_Glyph slot ForStroke = None ->
    outline_failure face glyph_index style stroke_width char_width char_height
| stroke_to_bitmap_fails metrics slot glyph image stroke_glyph :
    FT_Set_Pixel_Sizes face (u32 char_width) (u32 char_height) = Some metrics ->
    FT_Load_Glyph face (u32 char_width, u32 char_height) glyph_index = Some slot ->
    FT_Get_Glyph slot ForFilling = Some glyph ->
    FT_Glyph_To_Bitmap glyph = Some image ->
    Z.land style kCharStyleStroke <> 0 ->
    float_ltb float_zero stroke_width = true ->
    FT_Get_Glyph slot ForStroke = Some stroke_glyph ->
    FT_Glyph_To_Bitmap
      (FT_Glyph_StrokeBorder stroke_glyph (float_to_26_6 stroke_width)) = None ->
    outline_failure face glyph_index style stroke_width char_width char_height.
End Renderer.

(** ** A small world to run the renderer in

    Two font files, [a.ttf] (face 1) and [b.ttf] (face 2).  Face 1 has a
    GSUB table whose [hwid] feature under [kana]/[JAN ] is one single
    substitution of format 2 over the coverage range 5..6: glyph 5 goes
    to 100 and glyph 6 to 200.  Face 2 has no GSUB table.  Both map
    U+30A2 to glyph 5; only face 2 has U+1F600.  Family [M] is served
    from memory and its data is refused by the outline library; family
    [E] makes the provider fail with [kOtherError]. *)

Module Fixture.
Import Byte.

Definition gsub_table : list byte :=
  [ x00; x01; x00; x00; x00; x0a; x00; x24;
    x00; x32; x00; x01; x6b; x61; x6e; x61;
    x00; x08; x00; x00; x00; x01; x4a; x41;
    x4e; x20; x00; x0a; x00; x00; xff; xff;
    x00; x01; x00; x00; x00; x01; x68; x77;
    x69; x64; x00; x08; x00; x00; x00; x01;
    x00; x00; x00; x01; x00; x04; x00; x01;
    x00; x00; x00; x01; x00; x08; x00; x02;
    x00; x0a; x00; x02; x00; x64; x00; xc8;
    x00; x02; x00; x01; x00; x05; x00; x06;
    x00; x00 ].

(** A coverage table of format 2 with the one range 65535..65535,
    [startCoverageIndex] 0. *)
Definition coverage_to_65535 : list byte :=
  [ x00; x02; x00; x01; xff; xff; xff; xff; x00; x00 ].

(** A GSUB table of one byte. *)
Definition one_byte_table : list byte := [ x00 ].

(** A GSUB table that is its 10-byte header: version 1.0,
    [scriptListOffset] and [featureListOffset] 10 (the end of the
    table), [lookupListOffset] 0xFFFF. *)
Definition header_only_table : list byte :=
  [ x00; x01; x00; x00; x00; x0a; x00; x0a; xff; xff ].

(** [gsub_table] cut after the first four bytes of its substitution
    subtable (at offset 62), with [coverageOffset] 0: the subtable,
    format 2, is its own coverage table, of format 2 with no range. *)
Definition truncated_table : list byte :=
  take 62 gsub_table ++ [ x00; x02; x00; x00 ].

Definition info (file : string) (data : list byte) : FontfaceInfo :=
  {| family_name := EmptyString; postscript_name := EmptyString;
     filename := file; face_index := 0; font_data := data |}.

Definition provider : FontProvider :=
  {| GetFontFace font_name codepoint :=
       if bool_decide (font_name = "A"%string) then Ok (info "a.ttf" [])
       else if bool_decide (font_name = "B"%string) then Ok (info "b.ttf" [])
       else if bool_decide (font_name = "M"%string) then Ok (info EmptyString [x00])
       else if bool_decide (font_name = "E"%string)
            then Err FontProviderError.kOtherError
       else Err FontProviderError.kFontNotFound |}.

Definition freetype : FreeType :=
  {| FT_Face := nat;
     FT_GlyphSlot := Z;
     FT_Glyph := Z;
     FT_Bitmap := Z;
     FT_New_Face file index :=
       if bool_decide (file = "a.ttf"%string) then Some 1%nat
       else if bool_decide (file = "b.ttf"%string) then Some 2%nat
       else None;
     FT_New_Memory_Face data index := None;
     num_faces face := 1;
     FT_Get_Postscript_Name face := EmptyString;
     FT_Sfnt_Names face := [];
     FT_Get_Char_Index face ucs4 :=
       if ucs4 =? 0x30A2 then 5
       else if (ucs4 =? 0x1F600) && bool_decide (face = 2%nat) then 9
       else 0;
     FT_Load_Sfnt_Table face tag :=
       if bool_decide (face = 1%nat) then Some gsub_table else None;
     underline_position face := -64;
     underline_thickness face := 64;
     FT_MulFix a b := a * b;
     FT_Set_Pixel_Sizes face pixel_width pixel_height :=
       if pixel_width <? 1000
       then Some {| ascender := 64 * pixel_height; descender := 0; x_scale := 1 |}
       else None;
     FT_Load_Glyph face sizes glyph_index := Some glyph_index;
     FT_Get_Glyph slot use := Some slot;
     FT_Glyph_To_Bitmap glyph :=
       Some {| glyph_left := 0; glyph_top := 0; bitmap := glyph |};
     FT_Glyph_StrokeBorder glyph radius := glyph |}.

(** A bitmap is the list of what was drawn into it. *)
Definition canvas : Canvas :=
  {| Bitmap := list (Z * Z * Z);
     ColorRGBA := Z;
     DrawRect bmp color rect := bmp ++ [(color, rect_left rect, rect_top rect)];
     DrawBitmap bmp src x y := bmp ++ src ++ [(0, x, y)] |}.

Definition alphablend : @AlphaBlend freetype canvas :=
  Build_AlphaBlend freetype canvas (fun ft_bmp color => [(color, ft_bmp, 0)]).

Definition float32 : Float32 :=
  {| float := Z; float_zero := 0; float_ltb := Z.ltb;
     float_to_26_6 f := f * 64 |}.

Definition utf : UtfHelper :=
  {| ConvertUTF16BEToUTF8 units count := String.string_of_list_byte units |}.

Definition style_bits : CharStyleBits :=
  {| kCharStyleStroke := 8; kCharStyleUnderline := 4 |}.

(** A renderer whose family list is [families] and nothing else. *)
Definition with_families (families : list string) : @Renderer freetype :=
  set_font_family_ families fresh.

(** The renderer once [face] is loaded for the single family
    [family]. *)
Definition loaded (family : string) (face : @FT_Face freetype)
    : @Renderer freetype :=
  set_main_face_ (Some face) (with_families [family]).

(** That renderer with [fallback] held as the fallback face. *)
Definition with_fallback (family : string) (face fallback : @FT_Face freetype)
    : @Renderer freetype :=
  set_fallback_face_ (Some fallback) (loaded family face).

(** The [hwid] substitutions of [gsub_table]. *)
Definition table_map : gmap Z Z := <[5 := 100]> (<[6 := 200]> ∅).

(** The renderer with the main face [face] of the single family
    [family] and [table_map] cached for the main slot. *)
Definition with_cached_map (family : string)
    (face : option (@FT_Face freetype)) : @Renderer freetype :=
  set_main_half_width_subst_map_ (Some table_map)
    (set_main_face_ face (with_families [family])).

Definition fuel : nat := Z.to_nat 70000.

Definition blank : @Bitmap canvas := ([] : list (Z * Z * Z)).

(** [DrawChar] into a blank bitmap at the origin, in the default style
    with fill colour 1, stroke colour 2 and no stroke. *)
Definition draw (self : @Renderer freetype) (ucs4 char_width char_height : Z)
    (fallback_policy : TextRenderFallbackPolicy.t) :=
  @DrawChar provider freetype canvas alphablend float32 utf style_bits
    fuel self blank 0 0 ucs4 0 1 2 0 char_width char_height None
    fallback_policy.

(** [DrawChar] of U+30A2 at 16 by 32 pixels, a half-width cell. *)
Definition draw_half_width (self : @Renderer freetype) :=
  draw self 0x30A2 16 32 TextRenderFallbackPolicy.kAuto.
End Fixture.

(** ** Vocabulary of the statements *)

(** The whitespace set of section 3 of the specification. *)
Definition whitespace_set (c : Z) : Prop :=
  In c [0x0009; 0x0020; 0x00A0; 0x1680; 0x202F; 0x205F; 0x3000]
  \/ 0x2000 <= c <= 0x200A.

(** No read of the run went past the end of its buffer. *)
Definition in_bounds {A} (r : outcome A) : Prop :=
  match r with
  | OutOfBounds _ => False
  | _ => True
  end.

(** The 16-bit big-endian number at [offset] of a table (0 when the
    table ends before). *)
Definition u16_at (data : list byte) (offset : Z) : Z :=
  match GSUB.GetUint16 data offset with
  | Done v => v
  | _ => 0
  end.

(** Coverage format 2 in the words of section 4.2 of the specification:
    range records [{startGlyphID, endGlyphID, startCoverageIndex}];
    valid when [startGlyphID <= endGlyphID] and [startCoverageIndex] is
    the running coverage index, the sum of the lengths of the ranges
    before; each range expanded inclusively, in order. *)
Record RangeRecord := {
  startGlyphID : Z;
  endGlyphID : Z;
  startCoverageIndex : Z;
}.

Definition range_length (r : RangeRecord) : Z :=
  endGlyphID r - startGlyphID r + 1.

Fixpoint ranges_valid (running : Z) (ranges : list RangeRecord) : Prop :=
  match ranges with
  | [] => True
  | r :: ranges' =>
      startGlyphID r <= endGlyphID r
      /\ startCoverageIndex r = running
      /\ ranges_valid (running + range_length r) ranges'
  end.

Definition expand_ranges (ranges : list RangeRecord) : list Z :=
  flat_map (fun r => seqZ (startGlyphID r) (range_length r)) ranges.

(** Range record [i] of the coverage table at [offset], and all
    [rangeCount] of them. *)
Definition range_record (gsub : list byte) (offset : Z) (i : Z) : RangeRecord :=
  {| startGlyphID := u16_at gsub (offset + 4 + i * 6);
     endGlyphID := u16_at gsub (offset + 4 + i * 6 + 2);
     startCoverageIndex := u16_at gsub (offset + 4 + i * 6 + 4) |}.

Definition range_records (gsub : list byte) (offset : Z) : list RangeRecord :=
  range_record gsub offset <$> seqZ 0 (u16_at gsub (offset + 2)).

(** Glyph ids are 16-bit numbers, in a coverage list and on both sides
    of a substitution map. *)
Definition is_glyph_id (g : Z) : Prop := 0 <= g < 65536.

Definition glyph_map (m : gmap Z Z) : Prop :=
  forall g subst, m !! g = Some subst -> is_glyph_id g /\ is_glyph_id subst.

(** The [glyphArray] of the format 1 coverage table at [offset]. *)
Definition glyph_array (gsub : list byte) (offset : Z) : list Z :=
  (fun i => u16_at gsub (offset + 4 + i * 2)) <$> seqZ 0 (u16_at gsub (offset + 2)).

(** What reading the [scriptTag] of each script record of the script
    list at [script_list_offset] gives. *)
Definition script_tags (gsub : list byte) (script_list_offset : Z)
    : list (outcome Z) :=
  (fun i => GSUB.GetTag gsub (script_list_offset + 2 + i * 6))
    <$> seqZ 0 (u16_at gsub script_list_offset).

(** The [featureTag] of each feature record of the feature list at
    [feature_list_offset], as [GetTag] reads it. *)
Definition feature_tags (gsub : list byte) (feature_list_offset : Z)
    : list (outcome Z) :=
  (fun i => GSUB.GetTag gsub (feature_list_offset + 2 + i * 6))
    <$> seqZ 0 (u16_at gsub feature_list_offset).

Section Renderer_vocabulary.
Context `{FreeType} `{UtfHelper}.

(** The text of a name record as lines 662-668 decode it: UTF-16BE for
    the Microsoft platform, the bytes as they are otherwise. *)
Definition sfnt_name_text (sfnt_name : FT_SfntName) : string :=
  if platform_id sfnt_name =? TT_PLATFORM_MICROSOFT then
    ConvertUTF16BEToUTF8 (string_ sfnt_name) (vec_size (string_ sfnt_name) ÷ 2)
  else String.string_of_list_byte (string_ sfnt_name).

(** While the renderer holds a main face, [main_face_index_] is the
    position of a family of [font_family_]. *)
Definition main_face_index_valid (self : Renderer) : Prop :=
  main_face_ self <> None ->
  0 <= main_face_index_ self < vec_size (font_family_ self).

(** The calls that resolve, open or close a face. *)
Definition is_face_call (call : Call) : bool :=
  match call with
  | CallGetFontFace _ _ | CallNewFace _ _ | CallNewMemoryFace _ _
  | CallDoneFace _ => true
  | CallLoadSfntTable _ _ | CallSetPixelSizes _ _ _ | CallLoadGlyph _ _ => false
  end.

Definition is_table_call (call : Call) : bool :=
  match call with
  | CallLoadSfntTable _ _ => true
  | _ => false
  end.
End Renderer_vocabulary.

(** ** FontProvider::Create ([font_provider.cpp], lines 37-67)

    The function is put together by the preprocessor.  [Config] holds
    the macros it tests; [None] is a configuration in which the file
    does not compile (the [static_assert] of line 63). *)

Module FontProviderType.
(** The enumerators the [switch] names; [kOther] is any other value of
    the enumeration, which the [default:] label takes. *)
Inductive t := kAuto | kCoreText | kDirectWrite | kFontconfig | kOther.
End FontProviderType.

Inductive FontProviderClass :=
| FontProviderCoreText
| FontProviderDirectWrite
| FontProviderFontconfig.

Record Config := {
  LIBARIBCAPTION_USE_CORETEXT : bool;
  LIBARIBCAPTION_USE_DIRECTWRITE : bool;
  LIBARIBCAPTION_USE_FONTCONFIG : bool;
  _WIN32 : bool;
  __APPLE__ : bool;
}.

(** Lines 55-64: [case FontProviderType::kAuto: default:]. *)
Definition auto_select (config : Config) : option FontProviderClass :=
  if _WIN32 config && LIBARIBCAPTION_USE_DIRECTWRITE config
  then Some FontProviderDirectWrite
  else if __APPLE__ config && LIBARIBCAPTION_USE_CORETEXT config
  then Some FontProviderCoreText
  else if LIBARIBCAPTION_USE_FONTCONFIG config
  then Some FontProviderFontconfig
  else None.

(** A [case] that is compiled out leaves its enumerator to
    [default:]. *)
Definition Create (config : Config) (type : FontProviderType.t)
    : option FontProviderClass :=
  selected ← auto_select config;
  match type with
  | FontProviderType.kCoreText =>
      if LIBARIBCAPTION_USE_CORETEXT config then Some FontProviderCoreText
      else Some selected
  | FontProviderType.kDirectWrite =>
      if LIBARIBCAPTION_USE_DIRECTWRITE config then Some FontProviderDirectWrite
      else Some selected
  | FontProviderType.kFontconfig =>
      if LIBARIBCAPTION_USE_FONTCONFIG config then Some FontProviderFontconfig
      else Some selected
  | FontProviderType.kAuto | FontProviderType.kOther => Some selected
  end.

(** The provider class is compiled in. *)
Definition compiled_in (config : Config) (provider : FontProviderClass) : bool :=
  match provider with
  | FontProviderCoreText => LIBARIBCAPTION_USE_CORETEXT config
  | FontProviderDirectWrite => LIBARIBCAPTION_USE_DIRECTWRITE config
  | FontProviderFontconfig => LIBARIBCAPTION_USE_FONTCONFIG config
  end.

(** The class an enumerator names. *)
Definition named_class (type : FontProviderType.t) : option FontProviderClass :=
  match type with
  | FontProviderType.kCoreText => Some FontProviderCoreText
  | FontProviderType.kDirectWrite => Some FontProviderDirectWrite
  | FontProviderType.kFontconfig => Some FontProviderFontconfig
  | FontProviderType.kAuto | FontProviderType.kOther => None
  end.

(** ** More inputs to run the code on *)

Module Samples.
Import Byte.

(** A coverage table of format 1 with the glyph array 5, 7. *)
Definition coverage_format_1 : list byte :=
  [ x00; x01; x00; x02; x00; x05; x00; x07 ].

(** The same table cut before its second glyph. *)
Definition coverage_format_1_cut : list byte :=
  [ x00; x01; x00; x02; x00; x05 ].

(** A font collection [c.ttc] of three faces, numbered from 0.  Face 1
    has the PostScript name [Two-Regular]; face 2 has a name record
    that is not available, a Macintosh full name [Three] and a
    Microsoft family name in UTF-16BE. *)
Definition collection : FreeType :=
  {| FT_Face := Z;
     FT_GlyphSlot := Z;
     FT_Glyph := Z;
     FT_Bitmap := Z;
     FT_New_Face file index :=
       if bool_decide (file = "c.ttc"%string) && (index <? 3) then Some index
       else None;
     FT_New_Memory_Face data index := None;
     num_faces face := 3;
     FT_Get_Postscript_Name face :=
       if face =? 1 then "Two-Regular"%string else EmptyString;
     FT_Sfnt_Names face :=
       if face =? 2 then
         [ None;
           Some {| platform_id := 1; name_id := 4;
                   string_ := [ x54; x68; x72; x65; x65 ] |};
           Some {| platform_id := 3; name_id := 1;
                   string_ := [ x00; x33 ] |} ]
       else [];
     FT_Get_Char_Index face ucs4 := 0;
     FT_Load_Sfnt_Table face tag := None;
     underline_position face := 0;
     underline_thickness face := 0;
     FT_MulFix a b := a * b;
     FT_Set_Pixel_Sizes face pixel_width pixel_height := None;
     FT_Load_Glyph face sizes glyph_index := None;
     FT_Get_Glyph slot use := None;
     FT_Glyph_To_Bitmap glyph := None;
     FT_Glyph_StrokeBorder glyph radius := glyph |}.

(** Face [index] of [c.ttc]. *)
Definition collection_face (index : Z) : @FT_Face collection := index.

(** What the provider answers for a face of [c.ttc] whose index it does
    not know. *)
Definition unknown_index (family postscript : string) : FontfaceInfo :=
  {| family_name := family; postscript_name := postscript;
     filename := "c.ttc"; face_index := -1; font_data := [] |}.

(** A build for Linux with Fontconfig only, and one for Windows with
    DirectWrite and Fontconfig. *)
Definition linux : Config :=
  {| LIBARIBCAPTION_USE_CORETEXT := false;
     LIBARIBCAPTION_USE_DIRECTWRITE := false;
     LIBARIBCAPTION_USE_FONTCONFIG := true;
     _WIN32 := false; __APPLE__ := false |}.

Definition windows : Config :=
  {| LIBARIBCAPTION_USE_CORETEXT := false;
     LIBARIBCAPTION_USE_DIRECTWRITE := true;
     LIBARIBCAPTION_USE_FONTCONFIG := true;
     _WIN32 := true; __APPLE__ := false |}.
End Samples.

(** * Properties *)

(** ** The readers *)

Lemma b2z_range (b : byte) : 0 <= b2z b < 256.
Proof.
  unfold b2z. pose proof (Byte.to_N_bounded b). lia.
Qed.

Lemma u32_small (z : Z) : 0 <= z < 2 ^ 32 -> u32 z = z.
Proof. intros Hz. unfold u32. apply Z.mod_small. exact Hz. Qed.

Lemma bind_Done {A B} (m : outcome A) (f : A -> outcome B) (b : B) :
  m ≫= f = Done b -> exists a, m = Done a /\ f a = Done b.
Proof.
  destruct m as [a| | | |]; simpl; try discriminate. eauto.
Qed.

Lemma returning_not_Bail {A} (d : A) (m : outcome A) : returning d m <> Bail.
Proof. destruct m; simpl; discriminate. Qed.

Module GSUB_facts.
Import GSUB.

Lemma at_Done (data : list byte) (offset : Z) :
  0 <= offset < size data -> exists v, at_ data offset = Done v /\ 0 <= v < 256.
Proof.
  intros Hr. unfold at_, size in *.
  destruct (Z.leb_spec 0 offset); [|lia].
  destruct (Z.ltb_spec offset (Z.of_nat (length data))); [|lia]. simpl.
  destruct (data !! Z.to_nat offset) as [b|] eqn:E.
  - exists (b2z b). split; [reflexivity | apply b2z_range].
  - apply lookup_ge_None in E. lia.
Qed.

Lemma at_OutOfBounds (data : list byte) (offset : Z) :
  size data <= offset -> at_ data offset = OutOfBounds offset.
Proof.
  intros Hr. unfold at_.
  destruct (Z.ltb_spec offset (size data)); [lia|].
  rewrite andb_false_r. reflexivity.
Qed.

Lemma sz_small (z : Z) : 0 <= z < 2 ^ 64 -> sz z = z.
Proof. intros Hz. unfold sz. apply Z.mod_small. exact Hz. Qed.

Lemma u16_range (z : Z) : 0 <= u16 z < 65536.
Proof. unfold u16. apply (Z.mod_pos_bound z (2 ^ 16)). lia. Qed.

(** A 16-bit read that the table covers returns the number there. *)
Lemma GetUint16_u16_at (data : list byte) (offset : Z) :
  0 <= offset -> offset + 2 <= size data -> size data < 2 ^ 64 ->
  GetUint16 data offset = Done (u16_at data offset).
Proof.
  intros Ho Hend Hsize. unfold u16_at, GetUint16.
  destruct (at_Done data offset) as (b0 & -> & _); [lia|]. simpl.
  rewrite sz_small by lia.
  destruct (at_Done data (offset + 1)) as (b1 & -> & _); [lia|]. reflexivity.
Qed.

Lemma u16_at_range (data : list byte) (offset : Z) :
  0 <= u16_at data offset < 65536.
Proof.
  unfold u16_at, GetUint16.
  destruct (at_ data offset); simpl; try lia.
  destruct (at_ data (sz (offset + 1))); simpl; try lia.
  apply u16_range.
Qed.

(** *** The range loop of coverage format 2 *)

(** With [end_glyph_id = 65535] the test [glyph_id <= end_glyph_id] holds
    for every value of the 16-bit counter: the loop never exits. *)
Lemma push_range_end_65535 (fuel : nat) :
  forall glyph_id coverage,
    glyph_id <= 65535 -> push_range fuel glyph_id 65535 coverage = OutOfFuel.
Proof.
  induction fuel as [|fuel IH]; intros glyph_id coverage Hle; simpl.
  - reflexivity.
  - destruct (Z.leb_spec glyph_id 65535); [|lia].
    apply IH. unfold u16.
    pose proof (Z.mod_pos_bound (glyph_id + 1) (2 ^ 16)). lia.
Qed.

(** Below 65535 the loop pushes the range and exits; [end - start + 2]
    rounds are enough. *)
Lemma push_range_Done (fuel : nat) :
  forall glyph_id end_glyph_id coverage,
    0 <= glyph_id <= end_glyph_id + 1 -> end_glyph_id < 65535 ->
    end_glyph_id - glyph_id + 1 < Z.of_nat fuel ->
    push_range fuel glyph_id end_glyph_id coverage
    = Done (coverage ++ seqZ glyph_id (end_glyph_id - glyph_id + 1)).
Proof.
  induction fuel as [|fuel IH]; intros glyph_id end_glyph_id coverage Hg He Hf.
  - lia.
  - simpl. destruct (Z.leb_spec glyph_id end_glyph_id).
    + assert (Hu : u16 (glyph_id + 1) = glyph_id + 1)
        by (unfold u16; apply Z.mod_small; lia).
      rewrite Hu. rewrite IH by lia.
      rewrite (seqZ_cons glyph_id (end_glyph_id - glyph_id + 1)) by lia.
      rewrite <- app_assoc. simpl.
      replace (Z.succ glyph_id) with (glyph_id + 1) by lia.
      replace (Z.pred (end_glyph_id - glyph_id + 1))
        with (end_glyph_id - (glyph_id + 1) + 1) by lia.
      reflexivity.
    + replace (end_glyph_id - glyph_id + 1) with 0 by lia.
      simpl. rewrite app_nil_r. reflexivity.
Qed.

(** *** The helpers read within the table

    [ReadCoverageTable] and [ReadScriptFeatureIndices] test every offset
    against [gsub.size()] before they read there. *)

Lemma in_bounds_bind {A B} (m : outcome A) (f : A -> outcome B) :
  in_bounds m -> (forall a, m = Done a -> in_bounds (f a)) -> in_bounds (m ≫= f).
Proof.
  destruct m as [a| | | |]; simpl; intros Hm Hf; auto.
Qed.

Lemma GetUint16_value (data : list byte) (offset v : Z) :
  GetUint16 data offset = Done v -> 0 <= v < 65536.
Proof.
  unfold GetUint16.
  destruct (at_ data offset); simpl; try discriminate.
  destruct (at_ data (sz (offset + 1))); simpl; try discriminate.
  intros [= <-]. apply u16_range.
Qed.

Lemma GetUint16_in_bounds (data : list byte) (offset : Z) :
  0 <= offset -> offset + 2 <= size data -> size data < 2 ^ 64 ->
  in_bounds (GetUint16 data offset).
Proof.
  intros Ho Hend Hsize. rewrite GetUint16_u16_at by lia. exact I.
Qed.

Lemma GetTag_in_bounds (data : list byte) (offset : Z) :
  0 <= offset -> offset + 4 <= size data -> size data < 2 ^ 64 ->
  in_bounds (GetTag data offset).
Proof.
  intros Ho Hend Hsize. unfold GetTag.
  destruct (at_Done data offset) as (b0 & -> & _); [lia|]. simpl.
  rewrite !sz_small by lia.
  destruct (at_Done data (offset + 1)) as (b1 & -> & _); [lia|]. simpl.
  destruct (at_Done data (offset + 2)) as (b2 & -> & _); [lia|]. simpl.
  destruct (at_Done data (offset + 3)) as (b3 & -> & _); [lia|]. exact I.
Qed.

Lemma push_range_in_bounds (fuel : nat) :
  forall glyph_id end_glyph_id coverage,
    in_bounds (push_range fuel glyph_id end_glyph_id coverage).
Proof.
  induction fuel as [|fuel IH]; intros; simpl; [exact I|].
  destruct (glyph_id <=? end_glyph_id); [apply IH | exact I].
Qed.

Section Helpers_in_bounds.
Variable gsub : list byte.
Hypothesis size_bound : size gsub < 2 ^ 63.

(** A [size_t] sum that does not wrap. *)
Ltac no_wrap :=
  repeat match goal with
         | |- context [sz ?z] => rewrite (sz_small z) by lia
         end.

(** The test [gsub.size() < offset + k], then the reads below
    [offset + k]. *)
Ltac bounds_check :=
  no_wrap;
  match goal with
  | |- context [size gsub <? ?bound] =>
      destruct (Z.ltb_spec (size gsub) bound); [exact I|]
  end.

Ltac read_u16 v Hv :=
  no_wrap;
  apply in_bounds_bind; [apply GetUint16_in_bounds; lia|];
  intros v Hv; apply GetUint16_value in Hv.

Ltac read_tag t :=
  no_wrap;
  apply in_bounds_bind; [apply GetTag_in_bounds; lia|];
  intros t _.

Lemma coverage_glyphs_in_bounds (glyph_array_offset : Z) (n : nat) :
  forall coverage_index coverage,
    0 <= glyph_array_offset < 2 ^ 63 + 4 ->
    0 <= coverage_index -> coverage_index + Z.of_nat n <= 65536 ->
    in_bounds (coverage_glyphs gsub glyph_array_offset n coverage_index coverage).
Proof.
  induction n as [|n IH]; intros coverage_index coverage Hoff Hi Hn;
    cbn [coverage_glyphs]; [exact I|].
  bounds_check. read_u16 glyph_id Hglyph. apply IH; lia.
Qed.

Lemma coverage_ranges_in_bounds (fuel : nat) (range_records_offset : Z) (n : nat) :
  forall range_index coverage_index coverage,
    0 <= range_records_offset < 2 ^ 63 + 4 ->
    0 <= range_index -> range_index + Z.of_nat n <= 65536 ->
    in_bounds (coverage_ranges fuel gsub range_records_offset n range_index
                               coverage_index coverage).
Proof.
  induction n as [|n IH]; intros range_index coverage_index coverage Hoff Hi Hn;
    cbn [coverage_ranges]; cbv zeta; [exact I|].
  bounds_check.
  read_u16 start_glyph_id Hstart. read_u16 end_glyph_id Hstop.
  read_u16 start_coverage_index Hindex.
  destruct ((end_glyph_id <? start_glyph_id)
            || negb (start_coverage_index =? coverage_index)); [exact I|].
  apply in_bounds_bind; [apply push_range_in_bounds|].
  intros coverage' _. apply IH; lia.
Qed.

(** X3 (coverage parsing stays in bounds).  On a table below 2^63
    bytes and at an offset below 2^63, [ReadCoverageTable] reads no
    byte past the end of the table, whatever the table holds. *)
Lemma ReadCoverageTable_in_bounds (fuel : nat) (offset : Z) :
  0 <= offset < 2 ^ 63 ->
  in_bounds (ReadCoverageTable fuel gsub offset).
Proof.
  intros Hoff. unfold ReadCoverageTable.
  bounds_check. read_u16 coverage_format Hformat.
  destruct (coverage_format =? 1).
  - bounds_check. read_u16 glyph_count Hcount.
    apply coverage_glyphs_in_bounds; lia.
  - destruct (coverage_format =? 2); [|exact I].
    bounds_check. read_u16 range_count Hcount.
    apply coverage_ranges_in_bounds; lia.
Qed.

Lemma feature_index_array_in_bounds (feature_indices_offset : Z) (n : nat) :
  forall i feature_indices,
    0 <= feature_indices_offset < 2 ^ 63 ->
    0 <= i -> i + Z.of_nat n <= 65536 ->
    in_bounds (feature_index_array gsub feature_indices_offset n i feature_indices).
Proof.
  induction n as [|n IH]; intros i feature_indices Hoff Hi Hn;
    cbn [feature_index_array]; [exact I|].
  bounds_check. read_u16 feature_index Hindex. apply IH; lia.
Qed.

Lemma lang_sys_records_in_bounds (required_lang_sys_tag : Z)
    (script_offset lang_sys_records_offset : Z) (n : nat) :
  forall lang_sys_index lang_sys_offset,
    0 <= lang_sys_records_offset < 2 ^ 63 ->
    0 <= lang_sys_index -> lang_sys_index + Z.of_nat n <= 65536 ->
    in_bounds (lang_sys_records gsub required_lang_sys_tag script_offset
                                lang_sys_records_offset n lang_sys_index
                                lang_sys_offset).
Proof.
  induction n as [|n IH]; intros lang_sys_index lang_sys_offset Hoff Hi Hn;
    cbn [lang_sys_records]; cbv zeta; [exact I|].
  bounds_check. read_tag lang_sys_tag.
  destruct (lang_sys_tag =? required_lang_sys_tag).
  - read_u16 o Ho. exact I.
  - apply IH; lia.
Qed.

(** The offset the language-system loop ends with is the default one or
    a 16-bit offset into the script table. *)
Lemma lang_sys_records_value (required_lang_sys_tag : Z)
    (script_offset lang_sys_records_offset : Z) (n : nat) :
  forall lang_sys_index lang_sys_offset r,
    0 <= script_offset < 2 ^ 62 ->
    lang_sys_records gsub required_lang_sys_tag script_offset
                     lang_sys_records_offset n lang_sys_index lang_sys_offset
    = Done r ->
    r = lang_sys_offset \/ 0 <= r < 2 ^ 62 + 65536.
Proof.
  induction n as [|n IH]; intros lang_sys_index lang_sys_offset r Hscript;
    cbn [lang_sys_records]; cbv zeta.
  - intros [= <-]. left. reflexivity.
  - destruct (size gsub <? _); [discriminate|].
    intros Hloop. apply bind_Done in Hloop as (lang_sys_tag & _ & Hloop).
    destruct (lang_sys_tag =? required_lang_sys_tag).
    + apply bind_Done in Hloop as (o & Ho & [= <-]).
      apply GetUint16_value in Ho. right. rewrite sz_small; lia.
    + apply (IH _ _ _ Hscript Hloop).
Qed.

Lemma script_records_in_bounds
    (script_list_offset required_script_tag required_lang_sys_tag : Z)
    (script_records_offset : Z) (n : nat) :
  forall script_index feature_indices,
    0 <= script_list_offset < 2 ^ 32 ->
    0 <= script_records_offset < 2 ^ 63 ->
    0 <= script_index -> script_index + Z.of_nat n <= 65536 ->
    in_bounds (script_records gsub script_list_offset required_script_tag
                              required_lang_sys_tag script_records_offset n
                              script_index feature_indices).
Proof.
  induction n as [|n IH]; intros script_index feature_indices Hlist Hoff Hi Hn;
    cbn [script_records]; cbv zeta; [exact I|].
  bounds_check. read_tag script_tag.
  destruct (negb (script_tag =? required_script_tag)); [apply IH; lia|].
  unfold GetOffset16. read_u16 o Ho.
  bounds_check. read_u16 d Hd. read_u16 lang_sys_count Hcount.
  apply in_bounds_bind; [apply lang_sys_records_in_bounds; lia|].
  intros lang_sys_offset Hloop.
  apply lang_sys_records_value in Hloop; [|lia].
  destruct (lang_sys_offset =? script_list_offset + o); [apply IH; lia|].
  assert (0 <= lang_sys_offset < 2 ^ 62 + 65536) by lia.
  bounds_check. read_u16 required_feature_index Hrequired.
  read_u16 feature_index_count Hfeatures.
  apply feature_index_array_in_bounds; lia.
Qed.

(** X5 (script list parsing stays in bounds).  On a table below 2^63
    bytes and for a script list offset below 2^32,
    [ReadScriptFeatureIndices] reads no byte past the end of the table,
    whatever the table holds. *)
Lemma ReadScriptFeatureIndices_in_bounds
    (script_list_offset required_script_tag required_lang_sys_tag : Z) :
  0 <= script_list_offset < 2 ^ 32 ->
  in_bounds (ReadScriptFeatureIndices gsub script_list_offset required_script_tag
                                      required_lang_sys_tag).
Proof.
  intros Hlist. unfold ReadScriptFeatureIndices.
  assert (Hbody : forall m : outcome (list Z), in_bounds m -> in_bounds (returning [] m))
    by (intros [| | | |]; simpl; auto).
  apply Hbody.
  bounds_check. read_u16 script_count Hcount.
  apply script_records_in_bounds; lia.
Qed.
End Helpers_in_bounds.

(** *** Coverage format 2 when no range ends at glyph 65535 *)

Section Coverage_format_2.
Variable fuel : nat.
Variable gsub : list byte.
Variable offset : Z.
Hypothesis fuel_enough : 65536 < Z.of_nat fuel.
Hypothesis offset_nonneg : 0 <= offset.
Hypothesis size_bound : size gsub < 2 ^ 63.

(** The loop over the range records, from record [i] on with [n]
    records left: the expansion if they are valid from the running
    index [coverage_index] on, [std::nullopt] if they are not. *)
Lemma coverage_ranges_spec (n : nat) :
  forall (i coverage_index : Z) (coverage : list Z),
    0 <= i -> i + Z.of_nat n <= 65535 ->
    offset + 4 + (i + Z.of_nat n) * 6 <= size gsub ->
    0 <= coverage_index <= i * 65536 ->
    let ranges := range_record gsub offset <$> seqZ i (Z.of_nat n) in
    Forall (fun r => endGlyphID r < 65535) ranges ->
    (ranges_valid coverage_index ranges ->
     coverage_ranges fuel gsub (offset + 4) n i coverage_index coverage
     = Done (coverage ++ expand_ranges ranges))
    /\ (~ ranges_valid coverage_index ranges ->
        coverage_ranges fuel gsub (offset + 4) n i coverage_index coverage = Bail).
Proof.
  induction n as [|n IH]; intros i coverage_index coverage Hi Hcount Hend Hci ranges
    Hbelow.
  - subst ranges. simpl. rewrite app_nil_r. split; [reflexivity | tauto].
  - assert (Hranges : ranges = range_record gsub offset i
                               :: (range_record gsub offset <$> seqZ (i + 1) (Z.of_nat n))).
    { subst ranges. rewrite Nat2Z.inj_succ, seqZ_cons by lia.
      rewrite Z.pred_succ, <- Z.add_1_r. reflexivity. }
    rewrite Hranges in *. clear ranges Hranges.
    apply Forall_cons in Hbelow as [Hhead Hbelow].
    rewrite Nat2Z.inj_succ in Hcount, Hend.
    cbn [coverage_ranges ranges_valid expand_ranges flat_map]. cbv zeta.
    rewrite !sz_small by lia.
    destruct (Z.ltb_spec (size gsub) (offset + 4 + i * 6 + 6)); [lia|].
    rewrite !GetUint16_u16_at by lia. cbn [mbind outcome_bind].
    change (u16_at gsub (offset + 4 + i * 6))
      with (startGlyphID (range_record gsub offset i)).
    change (u16_at gsub (offset + 4 + i * 6 + 2))
      with (endGlyphID (range_record gsub offset i)).
    change (u16_at gsub (offset + 4 + i * 6 + 4))
      with (startCoverageIndex (range_record gsub offset i)).
    set (r := range_record gsub offset i) in *.
    assert (Hstart : 0 <= startGlyphID r < 65536) by apply u16_at_range.
    assert (Hstop : 0 <= endGlyphID r < 65536) by apply u16_at_range.
    destruct (Z.ltb_spec (endGlyphID r) (startGlyphID r)) as [Hlt|Hle].
    { cbn [orb]. split; [intros (Hv & _); lia | reflexivity]. }
    destruct (Z.eqb_spec (startCoverageIndex r) coverage_index) as [Heq|Hne].
    2:{ cbn [orb negb]. split; [intros (_ & Hv & _); congruence | reflexivity]. }
    cbn [orb negb].
    rewrite push_range_Done by lia. cbn [mbind outcome_bind].
    assert (Hnext : u32 (u32 (coverage_index + (endGlyphID r - startGlyphID r)) + 1)
                    = coverage_index + range_length r).
    { unfold range_length.
      rewrite (u32_small (coverage_index + (endGlyphID r - startGlyphID r)))
        by lia.
      rewrite u32_small by lia. lia. }
    rewrite Hnext.
    destruct (IH (i + 1) (coverage_index + range_length r)
                 (coverage ++ seqZ (startGlyphID r)
                                   (endGlyphID r - startGlyphID r + 1)))
      as [IHvalid IHinvalid]; try (unfold range_length; lia); [exact Hbelow|].
    split.
    + intros (_ & _ & Hvalid). rewrite (IHvalid Hvalid), <- app_assoc.
      reflexivity.
    + intros Hinvalid. apply IHinvalid. tauto.
Qed.

(** X26 (coverage format 2).  A format 2 table whose range records
    all lie within [gsub] and end below glyph 65535 parses to the
    ranges expanded inclusively, in record order, exactly when the
    records are valid; otherwise [ReadCoverageTable] returns
    [std::nullopt]. *)
Lemma ReadCoverageTable_format_2 :
  offset + 4 <= size gsub ->
  u16_at gsub offset = 2 ->
  offset + 4 + u16_at gsub (offset + 2) * 6 <= size gsub ->
  Forall (fun r => endGlyphID r < 65535) (range_records gsub offset) ->
  (ranges_valid 0 (range_records gsub offset) ->
   ReadCoverageTable fuel gsub offset
   = Done (expand_ranges (range_records gsub offset)))
  /\ (~ ranges_valid 0 (range_records gsub offset) ->
      ReadCoverageTable fuel gsub offset = Bail).
Proof.
  intros Hheader Hformat Hrecords Hbelow.
  pose proof (u16_at_range gsub (offset + 2)) as Hcount.
  unfold ReadCoverageTable.
  rewrite !sz_small by lia.
  destruct (Z.ltb_spec (size gsub) (offset + 2)); [lia|].
  rewrite !GetUint16_u16_at by lia. cbn [mbind outcome_bind].
  rewrite Hformat. simpl.
  destruct (Z.ltb_spec (size gsub) (offset + 4)); [lia|].
  unfold range_records in *.
  destruct (coverage_ranges_spec (Z.to_nat (u16_at gsub (offset + 2))) 0 0 [])
    as [Hvalid Hinvalid]; rewrite ?Z2Nat.id; try lia; [exact Hbelow|].
  rewrite Z2Nat.id in Hvalid, Hinvalid by lia.
  split; assumption.
Qed.
End Coverage_format_2.

End GSUB_facts.

Module GSUB_claims.
Import GSUB GSUB_facts.

(** C9 (coverage format 2).  The claim promises that a format 2 table
    whose records all have [startGlyphID <= endGlyphID] and the running
    [startCoverageIndex] parses to the expanded ranges.  The table with
    the single record 65535..65535 at coverage index 0 meets both
    conditions, and [ReadCoverageTable] does not return on it whatever
    the fuel: its 16-bit loop counter wraps from 65535 to 0 and the exit
    test of line 169 never fails. *)
Theorem ReadCoverageTable_range_to_65535_never_returns :
  forall fuel : nat,
    ReadCoverageTable fuel Fixture.coverage_to_65535 0 = OutOfFuel.
Proof.
  intros fuel.
  change (ReadCoverageTable fuel Fixture.coverage_to_65535 0)
    with (push_range fuel 65535 65535 [] ≫= fun coverage => Done coverage).
  rewrite push_range_end_65535 by lia. reflexivity.
Qed.

(** Every early [return {}] of [LoadGSUBTable] reaches the caller as the
    empty map: the call returns a map, reads out of bounds or does not
    return. *)
Lemma LoadGSUBTable_not_Bail (fuel : nat) (table : option (list byte))
    (required_feature_tag script_tag lang_sys_tag : Z) :
  LoadGSUBTable fuel table required_feature_tag script_tag lang_sys_tag <> Bail.
Proof. apply returning_not_Bail. Qed.

(** *** The header test of line 283 *)

Lemma LoadGSUBTable_absent (fuel : nat) (required_feature_tag script_tag lang_sys_tag : Z) :
  LoadGSUBTable fuel None required_feature_tag script_tag lang_sys_tag = Done ∅.
Proof. reflexivity. Qed.

(** X6 (tables of 2 to 9 bytes).  From 2 to 9 bytes the test
    [gsub_size - 2 < 8] of line 283 holds and [LoadGSUBTable] returns
    the empty map without reading the table. *)
Lemma LoadGSUBTable_short (fuel : nat) (gsub : list byte)
    (required_feature_tag script_tag lang_sys_tag : Z) :
  2 <= size gsub < 10 ->
  LoadGSUBTable fuel (Some gsub) required_feature_tag script_tag lang_sys_tag
  = Done ∅.
Proof.
  intros Hs. unfold LoadGSUBTable.
  assert (Hu : ulong (size gsub - 2) = size gsub - 2)
    by (unfold ulong; apply Z.mod_small; lia).
  rewrite Hu. destruct (Z.ltb_spec (size gsub - 2) 8); [reflexivity | lia].
Qed.

(** Below 2 bytes [gsub_size - 2] wraps around in [FT_ULong], the test
    fails and line 286 reads [gsub[4]]. *)
Lemma LoadGSUBTable_below_2 (fuel : nat) (gsub : list byte)
    (required_feature_tag script_tag lang_sys_tag : Z) :
  size gsub < 2 ->
  LoadGSUBTable fuel (Some gsub) required_feature_tag script_tag lang_sys_tag
  = OutOfBounds 4.
Proof.
  intros Hs. unfold LoadGSUBTable.
  assert (Hu : ulong (size gsub - 2) = 2 ^ 64 + (size gsub - 2)).
  { unfold ulong, size in *.
    rewrite <- (Z.mod_add _ 1) by lia.
    rewrite Z.mod_small; lia. }
  rewrite Hu. destruct (Z.ltb_spec (2 ^ 64 + (size gsub - 2)) 8).
  - unfold size in *. lia.
  - unfold GetOffset16, GetUint16. rewrite (at_OutOfBounds gsub 4) by lia. reflexivity.
Qed.

(** C4 (absent or short table).  The claim promises the empty map for
    every table shorter than 10 bytes.  On a table of one byte
    [LoadGSUBTable] passes the header test of line 283 and reads
    [gsub[4]], past the end of the buffer. *)
Theorem LoadGSUBTable_one_byte_table :
  forall (fuel : nat) (required_feature_tag script_tag lang_sys_tag : Z),
    LoadGSUBTable fuel (Some Fixture.one_byte_table)
                  required_feature_tag script_tag lang_sys_tag
    = OutOfBounds 4.
Proof. intros. vm_compute. reflexivity. Qed.

(** C1 (bounds discipline).  The claim promises that no read goes past
    the end of the buffer.  On the 10-byte table that is only a header
    with [lookupListOffset = 0xFFFF], line 301 reads [lookup_count] at
    offset 65535 before line 303 compares that offset with the table
    length. *)
Theorem LoadGSUBTable_header_only_table :
  forall fuel : nat,
    LoadGSUBTable fuel (Some Fixture.header_only_table)
                  kOpenTypeFeatureHalfWidth kOpenTypeScriptHiraganaKatakana
                  kOpenTypeLangSysJapanese
    = OutOfBounds 65535.
Proof. intros. vm_compute. reflexivity. Qed.

(** The same slip at lines 416-417: [glyph_count] is read at
    [subtable_offset + 4] before the table length is compared with
    [subtable_offset + 6].  The table ends right after the first four
    bytes of the subtable at offset 62. *)
Lemma LoadGSUBTable_truncated_table :
  forall fuel : nat,
    LoadGSUBTable fuel (Some Fixture.truncated_table)
                  kOpenTypeFeatureHalfWidth kOpenTypeScriptHiraganaKatakana
                  kOpenTypeLangSysJapanese
    = OutOfBounds 66.
Proof. intros. vm_compute. reflexivity. Qed.

(** The table of the small world parses to its two substitutions. *)
Lemma LoadGSUBTable_gsub_table :
  LoadGSUBTable Fixture.fuel (Some Fixture.gsub_table)
                kOpenTypeFeatureHalfWidth kOpenTypeScriptHiraganaKatakana
                kOpenTypeLangSysJapanese
  = Done Fixture.table_map.
Proof. vm_compute. reflexivity. Qed.

(** Its coverage table, at offset 72, is of format 2 with the one range
    5..6 at coverage index 0. *)
Lemma ReadCoverageTable_gsub_table :
  ReadCoverageTable Fixture.fuel Fixture.gsub_table 72 = Done [5; 6].
Proof.
  apply (proj1 (ReadCoverageTable_format_2 Fixture.fuel Fixture.gsub_table 72
                  ltac:(vm_compute; reflexivity) ltac:(lia)
                  ltac:(vm_compute; reflexivity) ltac:(vm_compute; discriminate)
                  ltac:(reflexivity) ltac:(vm_compute; discriminate)
                  ltac:(vm_compute; repeat constructor))).
  vm_compute. intuition discriminate.
Defined.

End GSUB_claims.

(** ** The renderer *)

Section Renderer_facts.
Context `{FontProvider} `{FreeType} `{Canvas} `{!AlphaBlend}.
Context `{Float32} `{UtfHelper} `{CharStyleBits}.

(** The test of lines 453-454 accepts exactly the whitespace set. *)
Lemma is_space_character_spec (ucs4 : Z) :
  is_space_character ucs4 = true <-> whitespace_set ucs4.
Proof.
  unfold is_space_character, whitespace_set. simpl.
  rewrite !orb_true_iff, andb_true_iff, !Z.eqb_eq, !Z.leb_le. intuition.
Qed.

(** The assertion of line 447 holds exactly for a positive
    [char_height]. *)
Lemma assert_holds (char_height : Z) :
  0 < char_height -> negb (0 <? char_height) = false.
Proof.
  intros Hheight. destruct (Z.ltb_spec 0 char_height); [reflexivity | lia].
Qed.

(** Called with [char_height <= 0], [DrawChar] does not return: the
    assertion of line 447 stops the program, whatever the character. *)
Lemma DrawChar_assert
    (fuel : nat) (self : Renderer) (target_bmp : Bitmap)
    (target_x target_y ucs4 style : Z) (color stroke_color : ColorRGBA)
    (stroke_width : float) (char_width char_height : Z)
    (underline_info : option UnderlineInfo)
    (fallback_policy : TextRenderFallbackPolicy.t) :
  char_height <= 0 ->
  DrawChar fuel self target_bmp target_x target_y ucs4 style color
           stroke_color stroke_width char_width char_height
           underline_info fallback_policy
  = AssertFailed.
Proof.
  intros Hheight. unfold DrawChar.
  destruct (Z.ltb_spec 0 char_height); [lia | reflexivity].
Qed.

(** C8 (whitespace no-op).  For every code point of the whitespace set
    and all other arguments within the precondition [char_height > 0]
    of the entry point (the assertion of line 447), [DrawChar] returns
    [kOK] and the destination bitmap is the one it was given. *)
Theorem DrawChar_whitespace_is_noop
    (fuel : nat) (self : Renderer) (target_bmp : Bitmap)
    (target_x target_y ucs4 style : Z) (color stroke_color : ColorRGBA)
    (stroke_width : float) (char_width char_height : Z)
    (underline_info : option UnderlineInfo)
    (fallback_policy : TextRenderFallbackPolicy.t) :
  0 < char_height ->
  whitespace_set ucs4 ->
  exists self' calls,
    DrawChar fuel self target_bmp target_x target_y ucs4 style color
             stroke_color stroke_width char_width char_height
             underline_info fallback_policy
    = Done (TextRenderStatus.kOK, self', target_bmp, calls).
Proof.
  intros Hheight Hws. apply is_space_character_spec in Hws.
  unfold DrawChar. rewrite (assert_holds _ Hheight), Hws. eauto.
Qed.

(** C10 (whitespace returns before face resolution).  For every code
    point of the whitespace set, [DrawChar], called within its
    precondition [char_height > 0] (the assertion of line 447), makes
    no call on the font provider or the outline library and returns
    the renderer as it was: faces, buffers, face index and
    substitution maps. *)
Theorem DrawChar_whitespace_resolves_nothing
    (fuel : nat) (self : Renderer) (target_bmp : Bitmap)
    (target_x target_y ucs4 style : Z) (color stroke_color : ColorRGBA)
    (stroke_width : float) (char_width char_height : Z)
    (underline_info : option UnderlineInfo)
    (fallback_policy : TextRenderFallbackPolicy.t) :
  0 < char_height ->
  whitespace_set ucs4 ->
  exists status bmp,
    DrawChar fuel self target_bmp target_x target_y ucs4 style color
             stroke_color stroke_width char_width char_height
             underline_info fallback_policy
    = Done (status, self, bmp, []).
Proof.
  intros Hheight Hws. apply is_space_character_spec in Hws.
  unfold DrawChar. rewrite (assert_holds _ Hheight), Hws. eauto.
Qed.

(** C3 (a failed draw leaves the bitmap alone).  Whenever [DrawChar]
    returns a status other than [kOK], the bitmap of the render
    context is the one it was given: every [return] with another
    status comes before the canvas is made at line 590. *)
Theorem DrawChar_failure_keeps_bitmap
    (fuel : nat) (self : Renderer) (target_bmp : Bitmap)
    (target_x target_y ucs4 style : Z) (color stroke_color : ColorRGBA)
    (stroke_width : float) (char_width char_height : Z)
    (underline_info : option UnderlineInfo)
    (fallback_policy : TextRenderFallbackPolicy.t)
    (status : TextRenderStatus.t) (self' : Renderer) (bmp : Bitmap)
    (calls : list Call) :
  DrawChar fuel self target_bmp target_x target_y ucs4 style color
           stroke_color stroke_width char_width char_height
           underline_info fallback_policy
  = Done (status, self', bmp, calls) ->
  status <> TextRenderStatus.kOK ->
  bmp = target_bmp.
Proof.
  unfold DrawChar. intros Hdraw Hstatus.
  destruct (negb (0 <? char_height)); [discriminate|].
  destruct (is_space_character ucs4); [congruence|].
  apply bind_Done in Hdraw as ([[main self1] calls1] & _ & Hdraw).
  destruct main as [status1|main_face]; [congruence|].
  apply bind_Done in Hdraw as ([[resolved self2] calls2] & _ & Hdraw).
  destruct resolved as [status2|[face glyph_index]]; [congruence|].
  apply bind_Done in Hdraw as ([[[glyph_index' char_width'] self3] calls3] & _ & Hdraw).
  destruct (prepare_glyph face glyph_index' style _ char_width' char_height)
    as [[status4|p] calls4]; congruence.
Qed.

(** *** The walk of [LoadFontFace] over the family list *)

Lemma vec_at_middle {A} (skipped : list A) (x : A) (tail : list A) :
  vec_at (skipped ++ x :: tail) (vec_size skipped) = Done x.
Proof.
  unfold vec_at, vec_size. rewrite length_app. simpl.
  destruct (Z.leb_spec 0 (Z.of_nat (length skipped))); [|lia].
  destruct (Z.ltb_spec (Z.of_nat (length skipped))
              (Z.of_nat (length skipped + S (length tail)))); [|lia].
  simpl. rewrite Nat2Z.id.
  rewrite (list_lookup_middle skipped tail x) by reflexivity. reflexivity.
Qed.

Lemma drop_middle {A} (skipped : list A) (x : A) (tail : list A) :
  drop (Z.to_nat (vec_size skipped + 1)) (skipped ++ x :: tail) = tail.
Proof.
  unfold vec_size.
  replace (Z.to_nat (Z.of_nat (length skipped) + 1))
    with (length (skipped ++ [x])) by (rewrite length_app; simpl; lia).
  replace (skipped ++ x :: tail) with ((skipped ++ [x]) ++ tail)
    by (rewrite <- app_assoc; reflexivity).
  apply drop_app_length.
Qed.

Lemma next_suitable_font_Ok (codepoint : option Z) (rest : list string)
    (font_index : Z) (info : FontfaceInfo) (calls : list Call) :
  next_suitable_font codepoint rest font_index (Ok info) calls
  = (font_index, Ok info, calls).
Proof. destruct rest; reflexivity. Qed.

(** Every family refused: the walk ends on the last one, with its
    error. *)
Lemma next_suitable_font_refused (codepoint : option Z) (failed : list string) :
  forall (x : string) (tail : list string) (name : string)
         (error : FontProviderError.t) (font_index : Z) (calls : list Call),
    x :: tail = failed ++ [name] ->
    Forall (fun n => is_err (GetFontFace n codepoint) = true) failed ->
    GetFontFace name codepoint = Err error ->
    next_suitable_font codepoint tail font_index (GetFontFace x codepoint)
                       (calls ++ [CallGetFontFace x codepoint])
    = (font_index + vec_size failed, Err error,
       calls ++ provider_queries codepoint (failed ++ [name])).
Proof.
  induction failed as [|f failed IH]; intros x tail name error font_index calls
    Hlist Hfailed Hname; simpl in Hlist; injection Hlist as -> ->.
  - rewrite Hname. simpl. unfold vec_size. simpl.
    rewrite Z.add_0_r. reflexivity.
  - apply Forall_cons in Hfailed as [Hf Hfailed].
    destruct (failed ++ [name]) as [|y tail'] eqn:Etail.
    { destruct failed; discriminate. }
    simpl. rewrite Hf.
    rewrite (IH y tail' name error) by (auto; congruence).
    unfold vec_size. simpl length. rewrite <- app_assoc. simpl.
    rewrite Nat2Z.inj_succ.
    replace (font_index + 1 + Z.of_nat (length failed))
      with (font_index + Z.succ (Z.of_nat (length failed))) by lia.
    reflexivity.
Qed.

(** A family accepted after refused ones: the walk ends on it. *)
Lemma next_suitable_font_accepted (codepoint : option Z) (failed : list string) :
  forall (x : string) (tail : list string) (name : string) (rest : list string)
         (info : FontfaceInfo) (font_index : Z) (calls : list Call),
    x :: tail = failed ++ name :: rest ->
    Forall (fun n => is_err (GetFontFace n codepoint) = true) failed ->
    GetFontFace name codepoint = Ok info ->
    next_suitable_font codepoint tail font_index (GetFontFace x codepoint)
                       (calls ++ [CallGetFontFace x codepoint])
    = (font_index + vec_size failed, Ok info,
       calls ++ provider_queries codepoint (failed ++ [name])).
Proof.
  induction failed as [|f failed IH]; intros x tail name rest info font_index calls
    Hlist Hfailed Hname; simpl in Hlist; injection Hlist as -> ->.
  - rewrite Hname, next_suitable_font_Ok. unfold vec_size. simpl.
    rewrite Z.add_0_r. reflexivity.
  - apply Forall_cons in Hfailed as [Hf Hfailed].
    destruct (failed ++ name :: rest) as [|y tail'] eqn:Etail.
    { destruct failed; discriminate. }
    simpl. rewrite Hf.
    rewrite (IH y tail' name rest info) by (auto; congruence).
    unfold vec_size. simpl length. rewrite <- app_assoc. simpl.
    rewrite Nat2Z.inj_succ.
    replace (font_index + 1 + Z.of_nat (length failed))
      with (font_index + Z.succ (Z.of_nat (length failed))) by lia.
    reflexivity.
Qed.

(** Lines 681-699 when [begin_index] (or 0) is the position of [x] in
    the family list. *)
Lemma LoadFontFace_from (fuel : nat) (self : Renderer) (is_fallback : bool)
    (codepoint : option Z) (begin_index : option Z)
    (skipped : list string) (x : string) (tail : list string) :
  font_family_ self = skipped ++ x :: tail ->
  vec_size skipped = default 0 begin_index ->
  LoadFontFace fuel self is_fallback codepoint begin_index
  = let '(font_index, result, calls) :=
      next_suitable_font codepoint tail (vec_size skipped)
                         (GetFontFace x codepoint)
                         ([] ++ [CallGetFontFace x codepoint]) in
    match result with
    | Err error => Done (Err error, self, calls)
    | Ok info => open_font_face fuel self is_fallback info font_index calls
    end.
Proof.
  intros Hfamily Hskipped. unfold LoadFontFace.
  assert (Hcheck : match begin_index with
                   | Some b => vec_size (font_family_ self) <=? b
                   | None => false
                   end = false).
  { destruct begin_index as [b|]; [|reflexivity]. simpl in Hskipped.
    rewrite Hfamily. unfold vec_size in *. rewrite length_app. simpl.
    apply Z.leb_gt. lia. }
  rewrite Hcheck, <- Hskipped, Hfamily, vec_at_middle, drop_middle.
  reflexivity.
Qed.

(** A face that [LoadFontFace] opens is paired with the index it was
    asked to open. *)
Lemma find_exact_face_index (fuel : nat) (use_memory_data : bool)
    (info : FontfaceInfo) (memory_data : list byte) (font_index : Z) :
  forall i face calls face' index calls',
    find_exact_face fuel use_memory_data info memory_data font_index i face calls
    = Done (Ok (face', index), calls') ->
    index = font_index.
Proof.
  induction fuel as [|fuel IH]; intros i face calls face' index calls';
    cbn [find_exact_face]; [discriminate|].
  destruct (i <? num_faces face); [|discriminate].
  destruct (new_face use_memory_data info memory_data i) as [[opened|] call];
    [|discriminate].
  destruct (negb (string_empty (postscript_name info)) && _); [congruence|].
  destruct (negb (string_empty (family_name info)) && _); [congruence|].
  apply IH.
Qed.

Lemma open_font_face_index (fuel : nat) (self : Renderer) (is_fallback : bool)
    (info : FontfaceInfo) (font_index : Z) (calls : list Call)
    (face : FT_Face) (index : Z) (self' : Renderer) (calls' : list Call) :
  open_font_face fuel self is_fallback info font_index calls
  = Done (Ok (face, index), self', calls') ->
  index = font_index.
Proof.
  unfold open_font_face.
  destruct (store_font_data self is_fallback info calls) as [self1 calls1].
  destruct (new_face _ info _ (face_index info)) as [[opened|] call];
    [|discriminate].
  destruct (0 <=? face_index info); [congruence|].
  destruct (string_empty (family_name info) && string_empty (postscript_name info));
    [discriminate|].
  intros Hfind. apply bind_Done in Hfind as ([result calls2] & Hfind & Hdone).
  injection Hdone as -> _ _.
  apply (find_exact_face_index _ _ _ _ _ _ _ _ _ _ _ Hfind).
Qed.

(** With no family list and no [begin_index], line 688 evaluates
    [font_family_[0]] on the empty vector. *)
Lemma LoadFontFace_empty_family_list (fuel : nat) (self : Renderer)
    (is_fallback : bool) (codepoint : option Z) :
  font_family_ self = [] ->
  LoadFontFace fuel self is_fallback codepoint None = OutOfBounds 0.
Proof.
  intros Hfamily. unfold LoadFontFace. rewrite Hfamily. reflexivity.
Qed.

(** C5, as the code has it.  [LoadFontFace] walks the family list from
    [begin_index] (0 by default), asks the font provider for each
    family in order and goes on to the next one on each provider
    error.  The first provider success is opened as a face and paired
    with the index of its family.  With [begin_index] at or past the
    end of the list the call fails with [kFontNotFound]; when the
    provider refuses every family from [begin_index] on, the call
    fails with the error the provider gave for the last family.
    ([skipped] are the families before [begin_index], [failed] the
    refused ones the walk passes.) *)
Theorem LoadFontFace_walks_family_list
    (fuel : nat) (self : Renderer) (is_fallback : bool)
    (codepoint : option Z) (begin_index : option Z) :
  let refused := fun n => is_err (GetFontFace n codepoint) = true in
  (forall b,
      begin_index = Some b -> vec_size (font_family_ self) <= b ->
      LoadFontFace fuel self is_fallback codepoint begin_index
      = Done (Err FontProviderError.kFontNotFound, self, []))
  /\ (forall skipped failed name error,
        font_family_ self = skipped ++ failed ++ [name] ->
        vec_size skipped = default 0 begin_index ->
        Forall refused failed ->
        GetFontFace name codepoint = Err error ->
        LoadFontFace fuel self is_fallback codepoint begin_index
        = Done (Err error, self,
                provider_queries codepoint (failed ++ [name])))
  /\ (forall skipped failed name rest info,
        font_family_ self = skipped ++ failed ++ name :: rest ->
        vec_size skipped = default 0 begin_index ->
        Forall refused failed ->
        GetFontFace name codepoint = Ok info ->
        LoadFontFace fuel self is_fallback codepoint begin_index
        = open_font_face fuel self is_fallback info
                         (default 0 begin_index + vec_size failed)
                         (provider_queries codepoint (failed ++ [name]))
          /\ forall face index self' calls,
               open_font_face fuel self is_fallback info
                              (default 0 begin_index + vec_size failed)
                              (provider_queries codepoint (failed ++ [name]))
               = Done (Ok (face, index), self', calls) ->
               index = vec_size (skipped ++ failed)).
Proof.
  intros refused. split; [|split].
  - intros b -> Hb. unfold LoadFontFace.
    destruct (Z.leb_spec (vec_size (font_family_ self)) b); [reflexivity | lia].
  - intros skipped failed name error Hfamily Hskipped Hfailed Hname.
    destruct (failed ++ [name]) as [|x tail] eqn:Elist.
    { destruct failed; discriminate. }
    rewrite (LoadFontFace_from _ _ _ _ _ skipped x tail Hfamily Hskipped).
    rewrite (next_suitable_font_refused codepoint failed x tail name error)
      by auto.
    rewrite Elist. reflexivity.
  - intros skipped failed name rest info Hfamily Hskipped Hfailed Hname.
    destruct (failed ++ name :: rest) as [|x tail] eqn:Elist.
    { destruct failed; discriminate. }
    rewrite (LoadFontFace_from _ _ _ _ _ skipped x tail Hfamily Hskipped).
    rewrite (next_suitable_font_accepted codepoint failed x tail name rest info)
      by auto.
    rewrite <- Hskipped. split; [reflexivity|].
    intros face index self' calls Hopen.
    apply open_font_face_index in Hopen as ->.
    unfold vec_size. rewrite length_app. lia.
Qed.

(** *** Failures of the outline library *)

Lemma stroke_border_failure (slot : FT_GlyphSlot) (style : Z)
    (stroke_width : float) (status : TextRenderStatus.t) :
  stroke_border slot style stroke_width = inl status ->
  status = TextRenderStatus.kOtherError.
Proof.
  unfold stroke_border.
  destruct (negb (Z.land style kCharStyleStroke =? 0)
            && float_ltb float_zero stroke_width); [|discriminate].
  destruct (FT_Get_Glyph slot ForStroke) as [stroke_glyph|]; [|congruence].
  destruct (FT_Glyph_To_Bitmap _); congruence.
Qed.

(** Lines 530-588 return no other status than [kOtherError]. *)
Lemma prepare_glyph_failure (face : FT_Face) (glyph_index style : Z)
    (stroke_width : float) (char_width char_height : Z)
    (status : TextRenderStatus.t) (calls : list Call) :
  prepare_glyph face glyph_index style stroke_width char_width char_height
  = (inl status, calls) ->
  status = TextRenderStatus.kOtherError.
Proof.
  unfold prepare_glyph.
  destruct (FT_Set_Pixel_Sizes face _ _) as [metrics|]; [|congruence].
  destruct (FT_Load_Glyph face _ glyph_index) as [slot|]; [|congruence].
  destruct (FT_Get_Glyph slot ForFilling) as [glyph|]; [|congruence].
  destruct (FT_Glyph_To_Bitmap glyph) as [image|]; [|congruence].
  destruct (stroke_border slot style stroke_width) as [status'|border] eqn:Eb;
    [|congruence].
  apply stroke_border_failure in Eb. congruence.
Qed.

(** Lines 530-588 return a status exactly when a call on the outline
    library fails. *)
Lemma prepare_glyph_fails_iff (face : FT_Face) (glyph_index style : Z)
    (stroke_width : float) (char_width char_height : Z) :
  outline_failure face glyph_index style stroke_width char_width char_height
  <-> exists status calls,
        prepare_glyph face glyph_index style stroke_width char_width char_height
        = (inl status, calls).
Proof.
  unfold prepare_glyph, stroke_border. split.
  - intros [Hsize | metrics Hsize Hload | metrics slot Hsize Hload Hget
            | metrics slot glyph Hsize Hload Hget Hbitmap
            | metrics slot glyph image Hsize Hload Hget Hbitmap Hstyle Hwidth Hstroke
            | metrics slot glyph image stroke_glyph Hsize Hload Hget Hbitmap
                Hstyle Hwidth Hstroke Hborder];
      try apply Z.eqb_neq in Hstyle;
      repeat match goal with
             | Heq : _ = _ |- _ =>
                 rewrite Heq; clear Heq; cbv beta iota; cbn [negb andb]
             end;
      eauto.
  - intros (status & calls & Hprepare).
    destruct (FT_Set_Pixel_Sizes face _ _) as [metrics|] eqn:Hsize;
      [|apply set_pixel_sizes_fails; exact Hsize].
    destruct (FT_Load_Glyph face _ glyph_index) as [slot|] eqn:Hload;
      [|eapply load_glyph_fails; eassumption].
    destruct (FT_Get_Glyph slot ForFilling) as [glyph|] eqn:Hget;
      [|eapply get_glyph_fails; eassumption].
    destruct (FT_Glyph_To_Bitmap glyph) as [image|] eqn:Hbitmap;
      [|eapply glyph_to_bitmap_fails; eassumption].
    destruct (Z.land style kCharStyleStroke =? 0) eqn:Hstyle;
      [discriminate|]. apply Z.eqb_neq in Hstyle.
    destruct (float_ltb float_zero stroke_width) eqn:Hwidth; [|discriminate].
    simpl in Hprepare.
    destruct (FT_Get_Glyph slot ForStroke) as [stroke_glyph|] eqn:Hstroke;
      [|eapply stroke_get_glyph_fails; eassumption].
    destruct (FT_Glyph_To_Bitmap (FT_Glyph_StrokeBorder _ _)) eqn:Hborder;
      [discriminate|].
    eapply stroke_to_bitmap_fails; eassumption.
Qed.

(** C6, as the code has it.  In a draw with [char_height > 0], a
    failure of the outline library while the glyph is prepared (pixel
    sizes, glyph load, glyph get, bitmap conversion, for the filling or
    for the stroke border) makes [DrawChar] return [kOtherError] with
    the renderer as it was just before the first of these calls and
    with the bitmap untouched.  A failure to open the face the provider
    answered with makes [LoadFontFace] (lines 701-731) fail with
    [kFontNotFound].  The renderer is then as it was before the call
    when the answer names a font file; when the answer carries font
    data, the slot that is loaded has given up its face and holds the
    data as its buffer (lines 703-716), and the other slot, the face
    index and the substitution maps are as they were. *)
Theorem outline_failure_status
    (fuel : nat) (self : Renderer) :
  (forall (target_bmp : Bitmap) (target_x target_y ucs4 style : Z)
          (color stroke_color : ColorRGBA) (stroke_width : float)
          (char_width char_height : Z) (underline_info : option UnderlineInfo)
          (fallback_policy : TextRenderFallbackPolicy.t)
          main_face self1 calls1 face glyph_index self2 calls2
          glyph_index' char_width' self3 calls3,
      0 < char_height ->
      is_space_character ucs4 = false ->
      ensure_main_face fuel self = Done (inr main_face, self1, calls1) ->
      resolve_glyph fuel self1 main_face ucs4 fallback_policy
      = Done (inr (face, glyph_index), self2, calls2) ->
      half_width_substitution fuel self2 face glyph_index char_width char_height
      = Done (glyph_index', char_width', self3, calls3) ->
      outline_failure face glyph_index' style
        (if float_ltb stroke_width float_zero then float_zero else stroke_width)
        char_width' char_height ->
      exists calls4,
        DrawChar fuel self target_bmp target_x target_y ucs4 style color
                 stroke_color stroke_width char_width char_height
                 underline_info fallback_policy
        = Done (TextRenderStatus.kOtherError, self3, target_bmp,
                calls1 ++ calls2 ++ calls3 ++ calls4))
  /\ (forall (is_fallback : bool) (info : FontfaceInfo) (font_index : Z)
             (calls : list Call),
        (if vec_empty (font_data info)
         then FT_New_Face (filename info) (face_index info)
         else FT_New_Memory_Face (font_data info) (face_index info)) = None ->
        exists calls',
          open_font_face fuel self is_fallback info font_index calls
          = Done (Err FontProviderError.kFontNotFound,
                  (if vec_empty (font_data info) then self
                   else if is_fallback
                        then set_fallback_face_data_ (font_data info)
                               (set_fallback_face_ None self)
                        else set_main_face_data_ (font_data info)
                               (set_main_face_ None self)),
                  calls')).
Proof.
  split.
  - intros * Hheight Hspace Hmain Hresolve Hsubst Hfailure.
    apply prepare_glyph_fails_iff in Hfailure as (status & calls4 & Hprepare).
    exists calls4.
    unfold DrawChar. rewrite (assert_holds _ Hheight), Hspace, Hmain. simpl.
    rewrite Hresolve. simpl. rewrite Hsubst. simpl. rewrite Hprepare.
    apply prepare_glyph_failure in Hprepare as ->. reflexivity.
  - intros is_fallback info font_index calls Hopen.
    unfold open_font_face, store_font_data, new_face.
    destruct (vec_empty (font_data info)); simpl.
    + rewrite Hopen. eauto.
    + destruct is_fallback; simpl; rewrite Hopen; eauto.
Qed.

(** *** Half-width substitution *)

(** The calls of lines 530-588 start with [FT_Set_Pixel_Sizes] on the
    given sizes; [FT_Load_Glyph] on the given glyph follows unless it
    failed. *)
Lemma prepare_glyph_calls (face : FT_Face) (glyph_index style : Z)
    (stroke_width : float) (char_width char_height : Z) :
  exists rest,
    (prepare_glyph face glyph_index style stroke_width char_width char_height).2
    = CallSetPixelSizes face (u32 char_width) (u32 char_height) :: rest
    /\ (rest = [] \/ rest = [CallLoadGlyph face glyph_index]).
Proof.
  unfold prepare_glyph.
  destruct (FT_Set_Pixel_Sizes face _ _) as [metrics|]; [|simpl; eauto].
  destruct (FT_Load_Glyph face _ glyph_index) as [slot|]; [|simpl; eauto].
  destruct (FT_Get_Glyph slot ForFilling) as [glyph|]; [|simpl; eauto].
  destruct (FT_Glyph_To_Bitmap glyph) as [image|]; [|simpl; eauto].
  destruct (stroke_border slot style stroke_width); simpl; eauto.
Qed.

(** C7 (substitution width promotion).  In a draw with [char_width ==
    char_height / 2], let [face] and [glyph_index] be what lines
    458-506 resolve and let the substitution map of the slot of [face]
    be computed (lines 509-519).  If that map has [glyph_index], the
    next call is [FT_Set_Pixel_Sizes(face, char_height, char_height)]
    and the glyph loaded is the mapped one; if it has not, the call is
    [FT_Set_Pixel_Sizes(face, char_width, char_height)] and the glyph
    loaded is [glyph_index]. *)
Theorem DrawChar_half_width_promotion
    (fuel : nat) (self : Renderer) (target_bmp : Bitmap)
    (target_x target_y ucs4 style : Z) (color stroke_color : ColorRGBA)
    (stroke_width : float) (char_height : Z)
    (underline_info : option UnderlineInfo)
    (fallback_policy : TextRenderFallbackPolicy.t)
    (main_face : FT_Face) (self1 : Renderer) (calls1 : list Call)
    (face : FT_Face) (glyph_index : Z) (self2 : Renderer) (calls2 : list Call)
    (self3 : Renderer) (calls3 : list Call) :
  0 < char_height < 2 ^ 31 ->
  is_space_character ucs4 = false ->
  ensure_main_face fuel self = Done (inr main_face, self1, calls1) ->
  resolve_glyph fuel self1 main_face ucs4 fallback_policy
  = Done (inr (face, glyph_index), self2, calls2) ->
  ensure_subst_map fuel self2 face = Done (self3, calls3) ->
  let char_width := char_height ÷ 2 in
  let drawn :=
    match subst_map self3 face ≫= (fun m => m !! glyph_index) with
    | Some subst => (subst, char_height)
    | None => (glyph_index, char_width)
    end in
  exists status bmp rest,
    DrawChar fuel self target_bmp target_x target_y ucs4 style color
             stroke_color stroke_width char_width char_height
             underline_info fallback_policy
    = Done (status, self3, bmp,
            calls1 ++ calls2 ++ calls3
            ++ CallSetPixelSizes face drawn.2 char_height :: rest)
    /\ (rest = [] \/ rest = [CallLoadGlyph face drawn.1]).
Proof.
  intros Hheight Hspace Hmain Hresolve Hensure char_width drawn.
  assert (Hw : 0 <= char_width < 2 ^ 32).
  { unfold char_width. pose proof (Z.quot_pos char_height 2).
    pose proof (Z.quot_lt char_height 2). lia. }
  unfold DrawChar. rewrite (assert_holds char_height), Hspace, Hmain by lia.
  simpl. rewrite Hresolve. simpl.
  unfold half_width_substitution. fold char_width.
  rewrite Z.eqb_refl, Hensure. simpl.
  assert (Hdrawn :
    forall g w, drawn = (g, w) -> 0 <= w < 2 ^ 32 ->
      exists status bmp rest,
        (let '(prepared, calls4) :=
           prepare_glyph face g style
             (if float_ltb stroke_width float_zero then float_zero
              else stroke_width) w char_height in
         let calls := calls1 ++ calls2 ++ calls3 ++ calls4 in
         match prepared with
         | inl status => Done (status, self3, target_bmp, calls)
         | inr p =>
             Done (TextRenderStatus.kOK, self3,
                   composite p target_x target_y style color stroke_color
                             underline_info target_bmp, calls)
         end)
        = Done (status, self3, bmp,
                calls1 ++ calls2 ++ calls3
                ++ CallSetPixelSizes face drawn.2 char_height :: rest)
        /\ (rest = [] \/ rest = [CallLoadGlyph face drawn.1])).
  { intros g w -> Hrange. simpl.
    destruct (prepare_glyph_calls face g style
                (if float_ltb stroke_width float_zero then float_zero
                 else stroke_width) w char_height) as (rest & Hcalls & Hrest).
    rewrite (u32_small w), (u32_small char_height) in Hcalls by lia.
    destruct (prepare_glyph face g style _ w char_height) as [[status|p] calls4];
      simpl in Hcalls; subst calls4; eauto. }
  unfold drawn in *. clear drawn.
  destruct (subst_map self3 face) as [m|]; simpl in *.
  - destruct (m !! glyph_index) as [subst|]; simpl in *.
    + apply (Hdrawn subst char_height); [reflexivity | lia].
    + apply (Hdrawn glyph_index char_width); [reflexivity | lia].
  - apply (Hdrawn glyph_index char_width); [reflexivity | lia].
Qed.

(** A slot whose map is there is not parsed again, whatever face the
    slot holds now. *)
Lemma ensure_subst_map_cached (fuel : nat) (self : Renderer) (face : FT_Face)
    (m : gmap Z Z) :
  main_face_ self = Some face ->
  main_half_width_subst_map_ self = Some m ->
  ensure_subst_map fuel self face = Done (self, [])
  /\ subst_map self face = Some m.
Proof.
  intros Hface Hmap. unfold ensure_subst_map, subst_map.
  rewrite bool_decide_eq_true_2 by congruence.
  rewrite Hmap. split; reflexivity.
Qed.

(** *** SetFontFamily *)

(** [SetFontFamily] assigns neither substitution map. *)
Lemma SetFontFamily_keeps_subst_maps (self : Renderer) (font_family : list string) :
  main_half_width_subst_map_ (SetFontFamily self font_family).1.2
  = main_half_width_subst_map_ self
  /\ fallback_half_width_subst_map_ (SetFontFamily self font_family).1.2
     = fallback_half_width_subst_map_ self.
Proof.
  unfold SetFontFamily.
  destruct (vec_empty font_family); [split; reflexivity|].
  destruct (negb (vec_empty (font_family_ self))
            && negb (bool_decide (font_family_ self = font_family)));
    split; reflexivity.
Qed.

(** X12 (a new family list resets the faces).  Given a non-empty list
    that differs from the non-empty list the renderer has,
    [SetFontFamily] stores it and drops both faces, both buffers and the
    face index. *)
Lemma SetFontFamily_resets_faces (self : Renderer) (font_family : list string) :
  font_family <> [] -> font_family_ self <> [] ->
  font_family_ self <> font_family ->
  let self' := (SetFontFamily self font_family).1.2 in
  font_family_ self' = font_family
  /\ main_face_ self' = None /\ fallback_face_ self' = None
  /\ main_face_data_ self' = [] /\ fallback_face_data_ self' = []
  /\ main_face_index_ self' = 0.
Proof.
  intros Hnew Hold Hdiff. unfold SetFontFamily.
  destruct font_family as [|f font_family]; [congruence|].
  destruct (font_family_ self) as [|g family] eqn:Efamily; [congruence|].
  simpl. rewrite bool_decide_eq_false_2 by exact Hdiff.
  simpl. repeat split; reflexivity.
Qed.
End Renderer_facts.

(** ** The renderer in the small world of [Fixture] *)

Section Scenarios.
Import Fixture.
#[local] Existing Instances provider freetype canvas alphablend float32 utf
  style_bits.

(** C2 (family change and the cached maps).  The claim promises that
    [SetFontFamily] with a different list drops the cached
    substitution maps with the faces.  The renderer draws U+30A2 in a
    half-width cell with the family [A]: face 1 is loaded and its
    [hwid] map is cached.  [SetFontFamily] with [B] then drops face 1
    and keeps the map.  The same draw now loads face 2, which has no
    GSUB table and whose own map is empty; [FT_Load_Sfnt_Table] is not
    called on it, the map of face 1 sends its glyph 5 to 100 and the
    cell is drawn full width. *)
Theorem SetFontFamily_keeps_map_of_old_face :
  draw_half_width (with_families ["A"%string])
  = Done (TextRenderStatus.kOK, with_cached_map "A" (Some 1%nat),
          [(1, 100, 0); (0, 0, 32)],
          [CallGetFontFace "A" None; CallNewFace "a.ttf" 0;
           CallLoadSfntTable 1%nat (GSUB.FT_MAKE_TAG 71 83 85 66);
           CallSetPixelSizes 1%nat 32 32; CallLoadGlyph 1%nat 100])
  /\ SetFontFamily (with_cached_map "A" (Some 1%nat)) ["B"%string]
     = (true, with_cached_map "B" None, [CallDoneFace 1%nat])
  /\ draw_half_width (with_cached_map "B" None)
     = Done (TextRenderStatus.kOK, with_cached_map "B" (Some 2%nat),
             [(1, 100, 0); (0, 0, 32)],
             [CallGetFontFace "B" None; CallNewFace "b.ttf" 0;
              CallSetPixelSizes 2%nat 32 32; CallLoadGlyph 2%nat 100])
  /\ GSUB.LoadGSUBTable fuel
       (FT_Load_Sfnt_Table 2%nat (GSUB.FT_MAKE_TAG 71 83 85 66))
       GSUB.kOpenTypeFeatureHalfWidth GSUB.kOpenTypeScriptHiraganaKatakana
       GSUB.kOpenTypeLangSysJapanese
     = Done ∅.
Proof. repeat split; vm_compute; reflexivity. Qed.

(** The whitespace theorems at U+3000 and U+2003, on a renderer that
    was never given a family list. *)
Lemma DrawChar_whitespace_is_noop_witness :
  exists self' calls,
    draw fresh 0x3000 16 32 TextRenderFallbackPolicy.kAuto
    = Done (TextRenderStatus.kOK, self', blank, calls).
Proof.
  unfold draw. apply DrawChar_whitespace_is_noop.
  - lia.
  - left. simpl. tauto.
Defined.

Lemma DrawChar_whitespace_resolves_nothing_witness :
  exists status bmp,
    draw fresh 0x2003 16 32 TextRenderFallbackPolicy.kFailOnCodePointNotFound
    = Done (status, fresh, bmp, []).
Proof.
  unfold draw. apply DrawChar_whitespace_resolves_nothing.
  - lia.
  - right. lia.
Defined.

(** A draw with the family [E], which the provider refuses: the status
    is not [kOK] and nothing was drawn. *)
Lemma DrawChar_failure_keeps_bitmap_witness :
  draw_half_width (with_families ["E"%string])
  = Done (TextRenderStatus.kOtherError, with_families ["E"%string], blank,
          [CallGetFontFace "E" None])
  /\ TextRenderStatus.kOtherError <> TextRenderStatus.kOK
  /\ blank = blank.
Proof.
  assert (Hdraw : draw_half_width (with_families ["E"%string])
                  = Done (TextRenderStatus.kOtherError,
                          with_families ["E"%string], blank,
                          [CallGetFontFace "E" None]))
    by (vm_compute; reflexivity).
  split; [exact Hdraw|]. split; [discriminate|].
  unfold draw_half_width, draw in Hdraw.
  apply (DrawChar_failure_keeps_bitmap _ _ _ _ _ _ _ _ _ _ _ _ _ _ _ _ _ _ Hdraw).
  discriminate.
Defined.

(** C5 as stated fails: the provider refuses the only family [E] with
    [kOtherError], and [LoadFontFace] fails with that error, not with
    [kFontNotFound]. *)
Lemma LoadFontFace_returns_provider_error :
  Forall (fun n => is_err (GetFontFace n None) = true) ["E"%string]
  /\ LoadFontFace fuel (with_families ["E"%string]) false None None
     = Done (Err FontProviderError.kOtherError, with_families ["E"%string],
             [CallGetFontFace "E" None])
  /\ ~ (exists self' calls,
          LoadFontFace fuel (with_families ["E"%string]) false None None
          = Done (Err FontProviderError.kFontNotFound, self', calls)).
Proof.
  assert (Hload : LoadFontFace fuel (with_families ["E"%string]) false None None
                  = Done (Err FontProviderError.kOtherError,
                          with_families ["E"%string],
                          [CallGetFontFace "E" None]))
    by (vm_compute; reflexivity).
  split; [repeat constructor|]. split; [exact Hload|].
  intros (self' & calls & Hclaim). rewrite Hload in Hclaim. discriminate.
Qed.

(** The walk at three family lists: [begin_index] past the end of
    [A]; [E] alone, refused; [E; A; B], where [A] is the first family
    the provider accepts. *)
Lemma LoadFontFace_walks_family_list_witness :
  LoadFontFace fuel (with_families ["A"%string]) true (Some 0x1F600) (Some 1)
  = Done (Err FontProviderError.kFontNotFound, with_families ["A"%string], [])
  /\ LoadFontFace fuel (with_families ["E"%string]) false None None
     = Done (Err FontProviderError.kOtherError, with_families ["E"%string],
             provider_queries None ([] ++ ["E"%string]))
  /\ LoadFontFace fuel (with_families ["E"; "A"; "B"]%string) false None None
     = open_font_face fuel (with_families ["E"; "A"; "B"]%string) false
                      (info "a.ttf" []) (default 0 None + vec_size ["E"%string])
                      (provider_queries None (["E"%string] ++ ["A"%string]))
  /\ LoadFontFace fuel (with_families ["E"; "A"; "B"]%string) false None None
     = Done (Ok (1%nat, 1), with_families ["E"; "A"; "B"]%string,
             [CallGetFontFace "E" None; CallGetFontFace "A" None;
              CallNewFace "a.ttf" 0]).
Proof.
  split; [|split; [|split]].
  - apply (proj1 (LoadFontFace_walks_family_list fuel
                    (with_families ["A"%string]) true (Some 0x1F600) (Some 1)) 1).
    + reflexivity.
    + unfold vec_size. simpl. lia.
  - apply (proj1 (proj2 (LoadFontFace_walks_family_list fuel
                           (with_families ["E"%string]) false None None))
             [] [] "E"%string FontProviderError.kOtherError).
    + reflexivity.
    + reflexivity.
    + constructor.
    + reflexivity.
  - apply (proj2 (proj2 (LoadFontFace_walks_family_list fuel
                           (with_families ["E"; "A"; "B"]%string) false None None))
             [] ["E"%string] "A"%string ["B"%string] (info "a.ttf" [])).
    + reflexivity.
    + reflexivity.
    + repeat constructor.
    + reflexivity.
  - vm_compute. reflexivity.
Defined.

(** C6 as stated fails: the family [M] comes from memory and the
    outline library refuses to open it.  [LoadFontFace] fails with
    [kFontNotFound] and [DrawChar] returns the status of that error,
    not [kOtherError]; and the main slot no longer has the buffer it
    had before the call. *)
Lemma DrawChar_face_opening_failure :
  FT_New_Memory_Face [Byte.x00] 0 = None
  /\ LoadFontFace fuel (with_families ["M"%string]) false None None
     = Done (Err FontProviderError.kFontNotFound,
             set_main_face_data_ [Byte.x00] (with_families ["M"%string]),
             [CallGetFontFace "M" None; CallNewMemoryFace [Byte.x00] 0])
  /\ main_face_data_ (set_main_face_data_ [Byte.x00] (with_families ["M"%string]))
     <> main_face_data_ (with_families ["M"%string])
  /\ draw_half_width (with_families ["M"%string])
     = Done (TextRenderStatus.kFontNotFound,
             set_main_face_data_ [Byte.x00] (with_families ["M"%string]), blank,
             [CallGetFontFace "M" None; CallNewMemoryFace [Byte.x00] 0])
  /\ ~ (exists self' bmp calls,
          draw_half_width (with_families ["M"%string])
          = Done (TextRenderStatus.kOtherError, self', bmp, calls)).
Proof.
  assert (Hdraw : draw_half_width (with_families ["M"%string])
                  = Done (TextRenderStatus.kFontNotFound,
                          set_main_face_data_ [Byte.x00]
                            (with_families ["M"%string]), blank,
                          [CallGetFontFace "M" None;
                           CallNewMemoryFace [Byte.x00] 0]))
    by (vm_compute; reflexivity).
  split; [reflexivity|]. split; [vm_compute; reflexivity|].
  split; [discriminate|]. split; [exact Hdraw|].
  intros (self' & bmp & calls & Hclaim). rewrite Hdraw in Hclaim. discriminate.
Qed.

(** A draw 2000 pixels wide, which [FT_Set_Pixel_Sizes] refuses; the
    refused data of family [M] loaded as the fallback face of a
    renderer that holds face 2 there; and a file that cannot be
    opened. *)
Lemma outline_failure_status_witness :
  (exists calls4,
     draw (with_families ["A"%string]) 0x30A2 2000 32
          TextRenderFallbackPolicy.kAuto
     = Done (TextRenderStatus.kOtherError, loaded "A" 1%nat, blank,
             [CallGetFontFace "A" None; CallNewFace "a.ttf" 0]
             ++ [] ++ [] ++ calls4))
  /\ (exists calls',
        open_font_face fuel (with_fallback "A" 1%nat 2%nat) true
                       (info EmptyString [Byte.x00]) 1 []
        = Done (Err FontProviderError.kFontNotFound,
                set_fallback_face_data_ [Byte.x00] (loaded "A" 1%nat), calls'))
  /\ (exists calls',
        open_font_face fuel (with_fallback "A" 1%nat 2%nat) true
                       (info "missing.ttf" []) 1 []
        = Done (Err FontProviderError.kFontNotFound,
                with_fallback "A" 1%nat 2%nat, calls')).
Proof.
  split; [|split].
  - unfold draw.
    apply (proj1 (outline_failure_status fuel (with_families ["A"%string])))
      with (main_face := 1%nat) (self1 := loaded "A" 1%nat)
           (face := 1%nat) (glyph_index := 5) (self2 := loaded "A" 1%nat)
           (glyph_index' := 5) (char_width' := 2000).
    + lia.
    + reflexivity.
    + vm_compute. reflexivity.
    + vm_compute. reflexivity.
    + vm_compute. reflexivity.
    + apply set_pixel_sizes_fails. reflexivity.
  - apply (proj2 (outline_failure_status fuel (with_fallback "A" 1%nat 2%nat))
             true (info EmptyString [Byte.x00]) 1 []).
    reflexivity.
  - apply (proj2 (outline_failure_status fuel (with_fallback "A" 1%nat 2%nat))
             true (info "missing.ttf" []) 1 []).
    reflexivity.
Defined.

(** The half-width draw of U+30A2 with the family [A]: glyph 5 is in
    the map of face 1, the sizes set are 32 by 32 and the glyph loaded
    is 100. *)
Lemma DrawChar_half_width_promotion_witness :
  exists status bmp rest,
    draw (with_families ["A"%string]) 0x30A2 (32 ÷ 2) 32
         TextRenderFallbackPolicy.kAuto
    = Done (status, with_cached_map "A" (Some 1%nat), bmp,
            [CallGetFontFace "A" None; CallNewFace "a.ttf" 0] ++ []
            ++ [CallLoadSfntTable 1%nat (GSUB.FT_MAKE_TAG 71 83 85 66)]
            ++ CallSetPixelSizes 1%nat 32 32 :: rest)
    /\ (rest = [] \/ rest = [CallLoadGlyph 1%nat 100]).
Proof.
  unfold draw.
  apply (DrawChar_half_width_promotion fuel (with_families ["A"%string]))
    with (main_face := 1%nat)
         (self1 := loaded "A" 1%nat)
         (glyph_index := 5)
         (self2 := loaded "A" 1%nat).
  - lia.
  - reflexivity.
  - vm_compute. reflexivity.
  - vm_compute. reflexivity.
  - vm_compute. reflexivity.
Defined.
End Scenarios.

(** * Further properties of the code *)

(** ** The big-endian readers *)

Module Readers_facts.
Import GSUB GSUB_facts.

Lemma at_value (data : list byte) (offset v : Z) :
  at_ data offset = Done v -> 0 <= v < 256.
Proof.
  unfold at_. destruct ((0 <=? offset) && (offset <? size data)); [|discriminate].
  destruct (data !! Z.to_nat offset) as [b|]; [|discriminate].
  intros [= <-]. apply b2z_range.
Qed.

Lemma at_lookup (data : list byte) (offset : Z) (b : byte) :
  0 <= offset -> data !! Z.to_nat offset = Some b ->
  at_ data offset = Done (b2z b).
Proof.
  intros Ho Hb. unfold at_, size.
  pose proof (lookup_lt_Some _ _ _ Hb) as Hlt.
  destruct (Z.leb_spec 0 offset); [|lia].
  destruct (Z.ltb_spec offset (Z.of_nat (length data))); [|lia].
  simpl. rewrite Hb. reflexivity.
Qed.

(** Bits that do not meet add up. *)
Lemma lor_shiftl_add (a b n : Z) :
  0 <= n -> 0 <= b < 2 ^ n -> Z.lor (Z.shiftl a n) b = a * 2 ^ n + b.
Proof.
  intros Hn Hb.
  rewrite <- Z.shiftl_mul_pow2 by lia.
  rewrite <- Z.lxor_lor, <- Z.add_nocarry_lxor; try reflexivity.
  all: apply Z.bits_inj_0; intros m; rewrite Z.land_spec.
  all: destruct (Z.lt_ge_cases m 0) as [Hneg|Hpos];
    [rewrite (Z.testbit_neg_r b) by lia; apply andb_false_r|].
  all: destruct (Z.lt_ge_cases m n) as [Hlow|Hhigh];
    [rewrite Z.shiftl_spec_low by lia; reflexivity|].
  all: rewrite <- (Z.mod_small b (2 ^ n)) by lia.
  all: rewrite Z.mod_pow2_bits_high by lia; apply andb_false_r.
Qed.

Lemma lor_bound (a b n : Z) :
  0 <= n -> 0 <= a < 2 ^ n -> 0 <= b < 2 ^ n -> 0 <= Z.lor a b < 2 ^ n.
Proof.
  intros Hn Ha Hb.
  assert (Hnonneg : 0 <= Z.lor a b) by (apply Z.lor_nonneg; lia).
  split; [exact Hnonneg|].
  destruct (Z.eq_dec (Z.lor a b) 0) as [->|Hpos]; [lia|].
  apply Z.log2_lt_pow2; [lia|].
  rewrite Z.log2_lor by lia.
  assert (Hlog : forall c, 0 <= c < 2 ^ n -> 0 < n -> Z.log2 c < n).
  { intros c Hc Hn'. destruct (Z.eq_dec c 0) as [->|Hc0]; [simpl; lia|].
    apply Z.log2_lt_pow2; lia. }
  assert (0 < n).
  { destruct (Z.eq_dec n 0) as [->|]; [|lia].
    assert (Ha0 : a = 0) by (change (2 ^ 0) with 1 in Ha; lia).
    assert (Hb0 : b = 0) by (change (2 ^ 0) with 1 in Hb; lia).
    exfalso. apply Hpos. rewrite Ha0, Hb0. reflexivity. }
  apply Z.max_lub_lt; auto.
Qed.

(** X1 (big-endian 16-bit read).  When the two bytes at [offset] and
    [offset + 1] lie within the buffer, [GetUint16] returns the first
    times 256 plus the second. *)
Theorem GetUint16_big_endian (data : list byte) (offset : Z) (b0 b1 : byte) :
  0 <= offset -> size data < 2 ^ 64 ->
  data !! Z.to_nat offset = Some b0 ->
  data !! Z.to_nat (offset + 1) = Some b1 ->
  GetUint16 data offset = Done (256 * b2z b0 + b2z b1).
Proof.
  intros Ho Hsize H0 H1. unfold GetUint16.
  pose proof (lookup_lt_Some _ _ _ H1) as Hlt. unfold size in Hsize.
  rewrite (at_lookup data offset b0) by assumption. simpl.
  rewrite sz_small by lia.
  rewrite (at_lookup data (offset + 1) b1) by (assumption || lia). simpl.
  pose proof (b2z_range b0). pose proof (b2z_range b1).
  rewrite (lor_shiftl_add (b2z b0) (b2z b1) 8) by lia.
  unfold u16. rewrite Z.mod_small by lia. f_equal. lia.
Qed.

(** X2 (a tag is a 32-bit number).  A tag is read as the 32-bit
    big-endian number at its offset: on every buffer and offset
    [GetTag] and [GetUint32] agree, also in where they fail. *)
Theorem GetTag_is_GetUint32 (data : list byte) (offset : Z) :
  GetTag data offset = GetUint32 data offset.
Proof.
  unfold GetTag, GetUint32, FT_MAKE_TAG.
  destruct (at_ data offset) as [v0| | | |] eqn:E0; try reflexivity.
  destruct (at_ data (sz (offset + 1))) as [v1| | | |] eqn:E1; try reflexivity.
  destruct (at_ data (sz (offset + 2))) as [v2| | | |] eqn:E2; try reflexivity.
  destruct (at_ data (sz (offset + 3))) as [v3| | | |] eqn:E3; try reflexivity.
  cbn [mbind outcome_bind]. apply at_value in E0, E1, E2, E3.
  assert (H0 : 0 <= Z.shiftl v0 24 < 2 ^ 32)
    by (rewrite Z.shiftl_mul_pow2 by lia; lia).
  assert (H1 : 0 <= Z.shiftl v1 16 < 2 ^ 32)
    by (rewrite Z.shiftl_mul_pow2 by lia; lia).
  assert (H2 : 0 <= Z.shiftl v2 8 < 2 ^ 32)
    by (rewrite Z.shiftl_mul_pow2 by lia; lia).
  rewrite (u32_small (Z.shiftl v0 24)), (u32_small (Z.shiftl v1 16)),
    (u32_small (Z.shiftl v2 8)) by assumption.
  rewrite u32_small; [reflexivity|].
  repeat apply lor_bound; lia.
Qed.

End Readers_facts.

(** ** The GSUB parser *)

Module GSUB_more.
Import GSUB GSUB_facts Readers_facts.

Lemma u16_at_Done (data : list byte) (offset v : Z) :
  GetUint16 data offset = Done v -> u16_at data offset = v.
Proof. unfold u16_at. intros ->. reflexivity. Qed.

(** *** Coverage lists hold glyph ids *)

Lemma coverage_glyphs_ids (gsub : list byte) (glyph_array_offset : Z) (n : nat) :
  forall coverage_index coverage r,
    Forall is_glyph_id coverage ->
    coverage_glyphs gsub glyph_array_offset n coverage_index coverage = Done r ->
    Forall is_glyph_id r.
Proof.
  induction n as [|n IH]; intros coverage_index coverage r Hcov;
    cbn [coverage_glyphs].
  - intros [= <-]. exact Hcov.
  - destruct (size gsub <? _); [discriminate|].
    intros Hloop. apply bind_Done in Hloop as (glyph_id & Hread & Hloop).
    eapply IH; [|exact Hloop].
    apply Forall_app. split; [exact Hcov|].
    constructor; [apply (GetUint16_value _ _ _ Hread) | constructor].
Qed.

Lemma push_range_ids (fuel : nat) :
  forall glyph_id end_glyph_id coverage r,
    is_glyph_id glyph_id -> Forall is_glyph_id coverage ->
    push_range fuel glyph_id end_glyph_id coverage = Done r ->
    Forall is_glyph_id r.
Proof.
  induction fuel as [|fuel IH]; intros glyph_id end_glyph_id coverage r Hg Hcov;
    cbn [push_range]; [discriminate|].
  destruct (glyph_id <=? end_glyph_id).
  - apply IH; [apply u16_range|].
    apply Forall_app. split; [exact Hcov | repeat constructor; apply Hg].
  - intros [= <-]. exact Hcov.
Qed.

Lemma coverage_ranges_ids (fuel : nat) (gsub : list byte)
    (range_records_offset : Z) (n : nat) :
  forall range_index coverage_index coverage r,
    Forall is_glyph_id coverage ->
    coverage_ranges fuel gsub range_records_offset n range_index coverage_index
                    coverage = Done r ->
    Forall is_glyph_id r.
Proof.
  induction n as [|n IH]; intros range_index coverage_index coverage r Hcov;
    cbn [coverage_ranges]; cbv zeta.
  - intros [= <-]. exact Hcov.
  - destruct (size gsub <? _); [discriminate|].
    intros Hloop.
    apply bind_Done in Hloop as (start_glyph_id & Hstart & Hloop).
    apply bind_Done in Hloop as (end_glyph_id & _ & Hloop).
    apply bind_Done in Hloop as (start_coverage_index & _ & Hloop).
    destruct (_ || _); [discriminate|].
    apply bind_Done in Hloop as (coverage' & Hpush & Hloop).
    eapply IH; [|exact Hloop].
    apply (push_range_ids _ _ _ _ _ (GetUint16_value _ _ _ Hstart) Hcov Hpush).
Qed.

Lemma ReadCoverageTable_ids (fuel : nat) (gsub : list byte) (offset : Z)
    (coverage : list Z) :
  ReadCoverageTable fuel gsub offset = Done coverage ->
  Forall is_glyph_id coverage.
Proof.
  unfold ReadCoverageTable.
  destruct (size gsub <? sz (offset + 2)); [discriminate|].
  intros Hread. apply bind_Done in Hread as (coverage_format & _ & Hread).
  destruct (coverage_format =? 1).
  - destruct (size gsub <? _); [discriminate|].
    apply bind_Done in Hread as (glyph_count & _ & Hread).
    apply (coverage_glyphs_ids _ _ _ _ _ _ (Forall_nil_2 _) Hread).
  - destruct (coverage_format =? 2); [|discriminate].
    destruct (size gsub <? _); [discriminate|].
    apply bind_Done in Hread as (range_count & _ & Hread).
    apply (coverage_ranges_ids _ _ _ _ _ _ _ _ (Forall_nil_2 _) Hread).
Qed.

(** *** The substitution map holds glyph ids *)

Lemma glyph_map_insert (m : gmap Z Z) (g subst : Z) :
  glyph_map m -> is_glyph_id g -> is_glyph_id subst ->
  glyph_map (<[g := subst]> m).
Proof.
  intros Hm Hg Hs k v. rewrite lookup_insert.
  destruct (decide (g = k)) as [<-|]; [intros [= <-]; auto | apply Hm].
Qed.

Lemma single_subst_delta_ids (coverage : list Z) (delta_glyph_id : Z) :
  forall m, glyph_map m -> Forall is_glyph_id coverage ->
            glyph_map (single_subst_delta coverage delta_glyph_id m).
Proof.
  unfold single_subst_delta.
  induction coverage as [|g coverage IH]; intros m Hm Hcov; simpl; [exact Hm|].
  apply Forall_cons in Hcov as [Hg Hcov].
  apply IH; [|exact Hcov].
  apply glyph_map_insert; [exact Hm | exact Hg | apply u16_range].
Qed.

Lemma substitute_glyphs_ids (gsub : list byte) (coverage : list Z)
    (substitute_glyph_ids_offset : Z) (n : nat) :
  forall coverage_index m r,
    0 <= coverage_index -> Forall is_glyph_id coverage -> glyph_map m ->
    substitute_glyphs gsub coverage substitute_glyph_ids_offset n coverage_index m
    = Done r ->
    glyph_map r.
Proof.
  induction n as [|n IH]; intros coverage_index m r Hi Hcov Hm;
    cbn [substitute_glyphs].
  - intros [= <-]. exact Hm.
  - destruct (size gsub <? _); [discriminate|].
    intros Hloop. apply bind_Done in Hloop as (substitute_glyph_id & Hread & Hloop).
    destruct (Z.leb_spec (Z.of_nat (length coverage)) coverage_index);
      [discriminate|].
    eapply IH; [| exact Hcov | | exact Hloop]; [lia|].
    apply glyph_map_insert; [exact Hm | | apply (GetUint16_value _ _ _ Hread)].
    rewrite Forall_forall in Hcov. apply Hcov.
    apply list_elem_of_In, nth_In. lia.
Qed.

Lemma single_substitution_ids (fuel : nat) (gsub : list byte)
    (lookup_type subtable_offset subst_format : Z) (m r : gmap Z Z) :
  glyph_map m ->
  single_substitution fuel gsub lookup_type subtable_offset subst_format m
  = Done r ->
  glyph_map r.
Proof.
  intros Hm. unfold single_substitution.
  destruct (lookup_type =? 1); [|intros [= <-]; exact Hm].
  destruct (size gsub <? _); [discriminate|].
  intros Hsub. apply bind_Done in Hsub as (o & _ & Hsub).
  apply bind_Done in Hsub as (coverage & Hcoverage & Hsub).
  apply ReadCoverageTable_ids in Hcoverage.
  destruct (subst_format =? 1).
  - destruct (size gsub <? _); [discriminate|].
    apply bind_Done in Hsub as (delta_glyph_id & _ & [= <-]).
    apply single_subst_delta_ids; assumption.
  - destruct (subst_format =? 2); [|injection Hsub as <-; exact Hm].
    apply bind_Done in Hsub as (glyph_count & _ & Hsub).
    destruct (size gsub <? _); [discriminate|].
    eapply substitute_glyphs_ids; [| | | exact Hsub]; (lia || assumption).
Qed.

Lemma subtables_ids (fuel : nat) (gsub : list byte)
    (lookup_offset subtable_offsets_offset : Z) (is_extension : bool) (n : nat) :
  forall subtable_index lookup_type m r,
    glyph_map m ->
    subtables fuel gsub lookup_offset subtable_offsets_offset is_extension n
              subtable_index lookup_type m = Done r ->
    glyph_map r.
Proof.
  induction n as [|n IH]; intros subtable_index lookup_type m r Hm;
    cbn [subtables].
  - intros [= <-]. exact Hm.
  - destruct (size gsub <? _); [discriminate|].
    intros Hloop. apply bind_Done in Hloop as (o & _ & Hloop).
    destruct (size gsub <? _); [discriminate|].
    apply bind_Done in Hloop as (subst_format & _ & Hloop).
    apply bind_Done in Hloop as (redirect & _ & Hloop).
    destruct redirect as [[[lookup_type' subtable_offset'] subst_format']|].
    + apply bind_Done in Hloop as (m' & Hsub & Hloop).
      eapply IH; [|exact Hloop].
      apply (single_substitution_ids _ _ _ _ _ _ _ Hm Hsub).
    + eapply IH; [exact Hm | exact Hloop].
Qed.

Lemma lookups_ids (fuel : nat) (gsub : list byte)
    (lookup_list_offset feature_count lookup_list_indices_offset : Z) (n : nat) :
  forall lookup_index m r,
    glyph_map m ->
    lookups fuel gsub lookup_list_offset feature_count lookup_list_indices_offset
            n lookup_index m = Done r ->
    glyph_map r.
Proof.
  induction n as [|n IH]; intros lookup_index m r Hm; cbn [lookups].
  - intros [= <-]. exact Hm.
  - destruct (size gsub <? _); [discriminate|].
    intros Hloop. apply bind_Done in Hloop as (lookup_list_index & _ & Hloop).
    destruct (_ || _); [discriminate|].
    apply bind_Done in Hloop as (o & _ & Hloop).
    destruct (size gsub <? _); [discriminate|].
    apply bind_Done in Hloop as (lookup_type & _ & Hloop).
    apply bind_Done in Hloop as (lookup_flag & _ & Hloop).
    apply bind_Done in Hloop as (subtable_count & _ & Hloop).
    apply bind_Done in Hloop as (m' & Hsub & Hloop).
    eapply IH; [|exact Hloop].
    apply (subtables_ids _ _ _ _ _ _ _ _ _ _ Hm Hsub).
Qed.

Lemma features_ids (fuel : nat) (gsub : list byte)
    (required_feature_tag feature_list_offset lookup_list_offset feature_count : Z)
    (feature_indices : list Z) :
  forall m r,
    glyph_map m ->
    features fuel gsub required_feature_tag feature_list_offset lookup_list_offset
             feature_count feature_indices m = Done r ->
    glyph_map r.
Proof.
  induction feature_indices as [|feature_index rest IH]; intros m r Hm;
    cbn [features]; cbv zeta.
  - intros [= <-]. exact Hm.
  - destruct (_ || _); [discriminate|].
    intros Hloop. apply bind_Done in Hloop as (feature_tag & _ & Hloop).
    destruct (negb (feature_tag =? required_feature_tag));
      [apply (IH _ _ Hm Hloop)|].
    apply bind_Done in Hloop as (o & _ & Hloop).
    destruct (size gsub <? _); [discriminate|].
    apply bind_Done in Hloop as (feature_params_offset & _ & Hloop).
    destruct (negb (feature_params_offset =? 0)); [discriminate|].
    apply bind_Done in Hloop as (lookup_index_count & _ & Hloop).
    apply (lookups_ids _ _ _ _ _ _ _ _ _ Hm Hloop).
Qed.

(** X7 (the map holds glyph ids).  Whatever the table, the map
    [LoadGSUBTable] returns sends 16-bit glyph ids to 16-bit glyph
    ids. *)
Theorem LoadGSUBTable_glyph_map (fuel : nat) (table : option (list byte))
    (required_feature_tag script_tag lang_sys_tag : Z) (m : gmap Z Z) :
  LoadGSUBTable fuel table required_feature_tag script_tag lang_sys_tag = Done m ->
  glyph_map m.
Proof.
  assert (Hempty : glyph_map ∅) by (intros g subst; rewrite lookup_empty; discriminate).
  unfold LoadGSUBTable.
  destruct table as [gsub|]; [|intros [= <-]; exact Hempty].
  cbv zeta. destruct (ulong (size gsub - 2) <? 8); [intros [= <-]; exact Hempty|].
  match goal with
  | |- returning ∅ ?body = Done m -> _ =>
      destruct body as [r| | | |] eqn:Hbody; simpl;
        [intros [= <-] | intros [= <-]; exact Hempty
        | discriminate | discriminate | discriminate]
  end.
  apply bind_Done in Hbody as (script_list_offset & _ & Hbody).
  apply bind_Done in Hbody as (feature_indices & _ & Hbody).
  apply bind_Done in Hbody as (feature_list_offset & _ & Hbody).
  apply bind_Done in Hbody as (lookup_list_offset & _ & Hbody).
  apply bind_Done in Hbody as (lookup_count & _ & Hbody).
  destruct (_ || _); [discriminate|].
  apply bind_Done in Hbody as (feature_count & _ & Hbody).
  apply (features_ids _ _ _ _ _ _ _ _ _ Hempty Hbody).
Qed.

(** *** Coverage format 1 *)

Lemma coverage_glyphs_spec (gsub : list byte) (offset : Z) (n : nat) :
  forall coverage_index coverage,
    0 <= offset -> offset + 4 <= size gsub -> size gsub < 2 ^ 63 ->
    0 <= coverage_index ->
    (offset + 4 + (coverage_index + Z.of_nat n) * 2 <= size gsub ->
     coverage_glyphs gsub (offset + 4) n coverage_index coverage
     = Done (coverage
             ++ ((fun i => u16_at gsub (offset + 4 + i * 2))
                   <$> seqZ coverage_index (Z.of_nat n))))
    /\ (size gsub < offset + 4 + (coverage_index + Z.of_nat n) * 2 ->
        coverage_index + Z.of_nat n < 2 ^ 32 -> (0 < n)%nat ->
        coverage_glyphs gsub (offset + 4) n coverage_index coverage = Bail).
Proof.
  induction n as [|n IH]; intros coverage_index coverage Ho Hheader Hsize Hi.
  - simpl. rewrite app_nil_r. split; [reflexivity | lia].
  - cbn [coverage_glyphs]. rewrite Nat2Z.inj_succ.
    destruct (IH (coverage_index + 1)
                 (coverage ++ [u16_at gsub (offset + 4 + coverage_index * 2)])
                 Ho Hheader Hsize ltac:(lia)) as [IHdone IHbail].
    split.
    + intros Hend. rewrite !sz_small by lia.
      destruct (Z.ltb_spec (size gsub) (offset + 4 + coverage_index * 2 + 2));
        [lia|].
      rewrite GetUint16_u16_at by lia. cbn [mbind outcome_bind].
      rewrite IHdone by lia.
      rewrite (seqZ_cons coverage_index (Z.succ (Z.of_nat n))) by lia.
      rewrite Z.pred_succ, <- Z.add_1_r.
      rewrite fmap_cons, <- app_assoc. reflexivity.
    + intros Hshort Hcount _. rewrite !sz_small by lia.
      destruct (Z.ltb_spec (size gsub) (offset + 4 + coverage_index * 2 + 2));
        [reflexivity|].
      rewrite GetUint16_u16_at by lia. cbn [mbind outcome_bind].
      apply IHbail; lia.
Qed.

(** X4 (coverage format 1).  A format 1 coverage table parses to its
    glyph array, in order, when the array lies within the table, and to
    [std::nullopt] when the table ends before the end of the array. *)
Theorem ReadCoverageTable_format_1 (fuel : nat) (gsub : list byte) (offset : Z) :
  0 <= offset -> size gsub < 2 ^ 63 ->
  offset + 4 <= size gsub ->
  u16_at gsub offset = 1 ->
  (offset + 4 + u16_at gsub (offset + 2) * 2 <= size gsub ->
   ReadCoverageTable fuel gsub offset = Done (glyph_array gsub offset))
  /\ (size gsub < offset + 4 + u16_at gsub (offset + 2) * 2 ->
      ReadCoverageTable fuel gsub offset = Bail).
Proof.
  intros Ho Hsize Hheader Hformat.
  pose proof (u16_at_range gsub (offset + 2)) as Hcount.
  unfold ReadCoverageTable, glyph_array.
  rewrite !sz_small by lia.
  destruct (Z.ltb_spec (size gsub) (offset + 2)); [lia|].
  rewrite !GetUint16_u16_at by lia. cbn [mbind outcome_bind].
  rewrite Hformat. simpl.
  destruct (Z.ltb_spec (size gsub) (offset + 4)); [lia|].
  destruct (coverage_glyphs_spec gsub offset (Z.to_nat (u16_at gsub (offset + 2)))
              0 [] Ho Hheader Hsize ltac:(lia)) as [Hdone Hbail].
  rewrite Z2Nat.id in Hdone, Hbail by lia.
  split.
  - intros Hend. apply Hdone. lia.
  - intros Hshort. apply Hbail; lia.
Qed.

(** *** Single substitution, format 1 *)

Lemma u16_add_to_int16 (g raw : Z) : u16 (g + to_int16 raw) = u16 (g + raw).
Proof.
  unfold to_int16, u16.
  destruct (raw mod 2 ^ 16 <? 2 ^ 15).
  - apply Z.add_mod_idemp_r. lia.
  - replace (g + (raw mod 2 ^ 16 - 2 ^ 16))
      with (g + raw mod 2 ^ 16 + (-1) * 2 ^ 16) by lia.
    rewrite Z.mod_add by lia. apply Z.add_mod_idemp_r. lia.
Qed.

(** X8 (single substitution format 1).  With the delta read as
    [int16_t] from the 16-bit number [raw], the map of format 1 sends
    every covered glyph [g] to [(g + raw) mod 65536] and leaves the
    other glyphs as they were. *)
Theorem single_subst_delta_lookup (coverage : list Z) (raw : Z) (m : gmap Z Z)
    (g : Z) :
  single_subst_delta coverage (to_int16 raw) m !! g
  = if decide (g ∈ coverage) then Some ((g + raw) mod 65536) else m !! g.
Proof.
  unfold single_subst_delta. revert m.
  induction coverage as [|c coverage IH]; intros m; simpl.
  - destruct (decide (g ∈ [])) as [Hin|]; [inversion Hin | reflexivity].
  - rewrite IH.
    destruct (decide (g ∈ coverage)) as [Hin|Hout].
    + rewrite decide_True by (right; exact Hin). reflexivity.
    + destruct (decide (g = c)) as [->|Hne].
      * rewrite decide_True by left. rewrite lookup_insert_eq.
        rewrite u16_add_to_int16. reflexivity.
      * rewrite decide_False by (rewrite elem_of_cons; tauto).
        rewrite lookup_insert_ne by congruence. reflexivity.
Qed.

(** *** Single substitution, format 2 *)

Lemma substitute_glyphs_spec (gsub : list byte) (coverage : list Z)
    (offset : Z) (n : nat) :
  forall coverage_index m r,
    0 <= offset -> 0 <= coverage_index ->
    offset + (coverage_index + Z.of_nat n) * 2 < 2 ^ 64 ->
    NoDup coverage ->
    substitute_glyphs gsub coverage offset n coverage_index m = Done r ->
    (forall j, coverage_index <= j < coverage_index + Z.of_nat n ->
               j < Z.of_nat (length coverage)
               /\ r !! nth (Z.to_nat j) coverage 0
                  = Some (u16_at gsub (offset + j * 2)))
    /\ (forall g, (forall j, coverage_index <= j < coverage_index + Z.of_nat n ->
                             nth (Z.to_nat j) coverage 0 <> g) ->
                  r !! g = m !! g).
Proof.
  induction n as [|n IH]; intros coverage_index m r Ho Hi Hwrap Hnodup;
    cbn [substitute_glyphs].
  - intros [= <-]. split; [intros j Hj; lia | reflexivity].
  - rewrite Nat2Z.inj_succ in *.
    destruct (size gsub <? _); [discriminate|].
    intros Hloop. apply bind_Done in Hloop as (substitute_glyph_id & Hread & Hloop).
    destruct (Z.leb_spec (Z.of_nat (length coverage)) coverage_index) as [|Hlen];
      [discriminate|].
    rewrite sz_small in Hread by lia. apply u16_at_Done in Hread.
    destruct (IH (coverage_index + 1) _ _ Ho ltac:(lia) ltac:(lia) Hnodup Hloop)
      as [IHset IHframe].
    split.
    + intros j Hj. destruct (Z.eq_dec j coverage_index) as [->|Hne].
      * split; [exact Hlen|].
        rewrite IHframe.
        { rewrite lookup_insert_eq, Hread. reflexivity. }
        intros j Hj' Hsame.
        destruct (IHset j Hj') as [Hjlen _].
        apply (NoDup_nth coverage 0) in Hsame;
          [lia | apply NoDup_ListNoDup; exact Hnodup | lia | lia].
      * apply IHset. lia.
    + intros g Hg. rewrite IHframe by (intros j Hj; apply Hg; lia).
      rewrite lookup_insert_ne; [reflexivity|]. apply Hg. lia.
Qed.

(** X9 (single substitution format 2).  Format 2 pairs the coverage
    list with the substitute array.  When the loop over [glyphCount]
    substitutes returns a map, the coverage list (without repetitions)
    has at least [glyphCount] glyphs, glyph [j] of it is sent to
    substitute [j], and every other glyph is as it was. *)
Theorem substitute_glyphs_lookup (gsub : list byte) (coverage : list Z)
    (offset : Z) (glyph_count : nat) (m r : gmap Z Z) :
  0 <= offset -> offset + Z.of_nat glyph_count * 2 < 2 ^ 64 ->
  NoDup coverage ->
  substitute_glyphs gsub coverage offset glyph_count 0 m = Done r ->
  (glyph_count <= length coverage)%nat
  /\ (forall j, (j < glyph_count)%nat ->
                r !! nth j coverage 0
                = Some (u16_at gsub (offset + Z.of_nat j * 2)))
  /\ (forall g, (forall j, (j < glyph_count)%nat -> nth j coverage 0 <> g) ->
                r !! g = m !! g).
Proof.
  intros Ho Hwrap Hnodup Hloop.
  destruct (substitute_glyphs_spec gsub coverage offset glyph_count 0 m r
              Ho ltac:(lia) ltac:(lia) Hnodup Hloop) as [Hset Hframe].
  split; [|split].
  - destruct glyph_count as [|k]; [lia|].
    destruct (Hset (Z.of_nat k) ltac:(lia)) as [Hlen _]. lia.
  - intros j Hj. destruct (Hset (Z.of_nat j) ltac:(lia)) as [_ Hlookup].
    rewrite Nat2Z.id in Hlookup. exact Hlookup.
  - intros g Hg. apply Hframe. intros j Hj.
    apply Hg. lia.
Qed.

(** *** A script list without the script *)

Lemma script_records_without_tag (gsub : list byte)
    (script_list_offset script_tag lang_sys_tag : Z) (n : nat) :
  forall script_index feature_indices r,
    0 <= script_list_offset < 2 ^ 32 -> 0 <= script_index ->
    script_index + Z.of_nat n <= 65536 ->
    (forall i, script_index <= i < script_index + Z.of_nat n ->
               GetTag gsub (script_list_offset + 2 + i * 6) <> Done script_tag) ->
    script_records gsub script_list_offset script_tag lang_sys_tag
                   (sz (script_list_offset + 2)) n script_index feature_indices
    = Done r ->
    r = feature_indices.
Proof.
  induction n as [|n IH]; intros script_index feature_indices r Hlist Hi Hn Htags;
    cbn [script_records]; cbv zeta.
  - intros [= <-]. reflexivity.
  - rewrite Nat2Z.inj_succ in *.
    rewrite (sz_small (script_list_offset + 2)) by lia.
    rewrite (sz_small (script_list_offset + 2 + script_index * 6)) by lia.
    destruct (size gsub <? _); [discriminate|].
    intros Hloop. apply bind_Done in Hloop as (tag & Htag & Hloop).
    destruct (Z.eqb_spec tag script_tag) as [->|Hne].
    + exfalso. apply (Htags script_index); [lia | exact Htag].
    + cbn [negb] in Hloop.
      rewrite <- (sz_small (script_list_offset + 2)) in Hloop by lia.
      apply (IH (script_index + 1) _ _ Hlist ltac:(lia) ltac:(lia)) in Hloop;
        [exact Hloop|].
      intros i Hrange. apply Htags. lia.
Qed.

Lemma ReadScriptFeatureIndices_without_tag (gsub : list byte)
    (script_list_offset script_tag lang_sys_tag : Z) (r : list Z) :
  0 <= script_list_offset < 2 ^ 32 ->
  Forall (fun tag => tag <> Done script_tag) (script_tags gsub script_list_offset) ->
  ReadScriptFeatureIndices gsub script_list_offset script_tag lang_sys_tag = Done r ->
  r = [].
Proof.
  intros Hlist Htags. unfold ReadScriptFeatureIndices.
  destruct (size gsub <? _); [intros [= <-]; reflexivity|].
  destruct (GetUint16 gsub script_list_offset) as [script_count| | | |] eqn:Hcount;
    cbn [mbind outcome_bind returning]; try discriminate;
    [|intros [= <-]; reflexivity].
  pose proof (GetUint16_value _ _ _ Hcount) as Hrange.
  apply u16_at_Done in Hcount.
  destruct (script_records _ _ _ _ _ _ _ _) as [r'| | | |] eqn:Hloop;
    cbn [returning]; try discriminate; intros [= <-]; [|reflexivity].
  apply script_records_without_tag in Hloop; [exact Hloop | lia | lia | lia |].
  intros i Hi. unfold script_tags in Htags. rewrite Hcount in Htags.
  rewrite Forall_fmap, Forall_forall in Htags.
  apply (Htags i). apply elem_of_seqZ. lia.
Qed.

(** X10 (script absent).  When no script record of the script list
    carries the script tag, the map [LoadGSUBTable] returns is
    empty. *)
Theorem LoadGSUBTable_without_script (fuel : nat) (gsub : list byte)
    (required_feature_tag script_tag lang_sys_tag : Z) (m : gmap Z Z) :
  Forall (fun tag => tag <> Done script_tag) (script_tags gsub (u16_at gsub 4)) ->
  LoadGSUBTable fuel (Some gsub) required_feature_tag script_tag lang_sys_tag
  = Done m ->
  m = ∅.
Proof.
  intros Htags. unfold LoadGSUBTable. cbv zeta.
  destruct (ulong (size gsub - 2) <? 8); [intros [= <-]; reflexivity|].
  match goal with
  | |- returning ∅ ?body = Done m -> _ =>
      destruct body as [r| | | |] eqn:Hbody; simpl;
        [intros [= <-] | intros [= <-]; reflexivity
        | discriminate | discriminate | discriminate]
  end.
  apply bind_Done in Hbody as (script_list_offset & Hoffset & Hbody).
  apply bind_Done in Hbody as (feature_indices & Hindices & Hbody).
  pose proof (GetUint16_value _ _ _ Hoffset) as Hrange.
  apply u16_at_Done in Hoffset. rewrite Hoffset in Htags.
  apply ReadScriptFeatureIndices_without_tag in Hindices; [|lia|exact Htags].
  subst feature_indices.
  apply bind_Done in Hbody as (feature_list_offset & _ & Hbody).
  apply bind_Done in Hbody as (lookup_list_offset & _ & Hbody).
  apply bind_Done in Hbody as (lookup_count & _ & Hbody).
  destruct (_ || _); [discriminate|].
  apply bind_Done in Hbody as (feature_count & _ & Hbody).
  injection Hbody as <-. reflexivity.
Qed.

(** *** A feature list without the feature *)

Lemma feature_index_array_values (gsub : list byte) (feature_indices_offset : Z)
    (n : nat) :
  forall i feature_indices r,
    Forall is_glyph_id feature_indices ->
    feature_index_array gsub feature_indices_offset n i feature_indices = Done r ->
    Forall is_glyph_id r.
Proof.
  induction n as [|n IH]; intros i feature_indices r Hvalues;
    cbn [feature_index_array].
  - intros [= <-]. exact Hvalues.
  - destruct (size gsub <? _); [discriminate|].
    intros Hloop. apply bind_Done in Hloop as (feature_index & Hread & Hloop).
    eapply IH; [|exact Hloop].
    apply Forall_app. split; [exact Hvalues|].
    constructor; [apply (GetUint16_value _ _ _ Hread) | constructor].
Qed.

Lemma script_records_values (gsub : list byte)
    (script_list_offset script_tag lang_sys_tag script_records_offset : Z)
    (n : nat) :
  forall script_index feature_indices r,
    Forall is_glyph_id feature_indices ->
    script_records gsub script_list_offset script_tag lang_sys_tag
                   script_records_offset n script_index feature_indices = Done r ->
    Forall is_glyph_id r.
Proof.
  induction n as [|n IH]; intros script_index feature_indices r Hvalues;
    cbn [script_records]; cbv zeta.
  - intros [= <-]. exact Hvalues.
  - destruct (size gsub <? _); [discriminate|].
    intros Hloop. apply bind_Done in Hloop as (tag & _ & Hloop).
    destruct (negb (tag =? script_tag)); [apply (IH _ _ _ Hvalues Hloop)|].
    apply bind_Done in Hloop as (o & _ & Hloop).
    destruct (size gsub <? _); [discriminate|].
    apply bind_Done in Hloop as (d & _ & Hloop).
    apply bind_Done in Hloop as (lang_sys_count & _ & Hloop).
    apply bind_Done in Hloop as (lang_sys_offset & _ & Hloop).
    destruct (lang_sys_offset =? _); [apply (IH _ _ _ Hvalues Hloop)|].
    destruct (size gsub <? _); [discriminate|].
    apply bind_Done in Hloop as (required_feature_index & Hrequired & Hloop).
    apply bind_Done in Hloop as (feature_index_count & _ & Hloop).
    eapply feature_index_array_values; [|exact Hloop].
    destruct (negb (required_feature_index =? 65535)); [|exact Hvalues].
    apply Forall_app. split; [exact Hvalues|].
    constructor; [apply (GetUint16_value _ _ _ Hrequired) | constructor].
Qed.

Lemma ReadScriptFeatureIndices_values (gsub : list byte)
    (script_list_offset script_tag lang_sys_tag : Z) (r : list Z) :
  ReadScriptFeatureIndices gsub script_list_offset script_tag lang_sys_tag = Done r ->
  Forall is_glyph_id r.
Proof.
  unfold ReadScriptFeatureIndices.
  match goal with
  | |- returning [] ?body = Done r -> _ =>
      destruct body as [r'| | | |] eqn:Hbody; simpl;
        [intros [= <-] | intros [= <-]; constructor
        | discriminate | discriminate | discriminate]
  end.
  destruct (size gsub <? _); [discriminate|].
  apply bind_Done in Hbody as (script_count & _ & Hbody).
  apply (script_records_values _ _ _ _ _ _ _ _ _ (Forall_nil_2 _) Hbody).
Qed.

Lemma features_without_tag (fuel : nat) (gsub : list byte)
    (required_feature_tag feature_list_offset lookup_list_offset feature_count : Z)
    (feature_indices : list Z) :
  forall m r,
    0 <= feature_list_offset < 65536 ->
    Forall is_glyph_id feature_indices ->
    (forall i, 0 <= i < feature_count ->
               GetTag gsub (feature_list_offset + 2 + i * 6)
               <> Done required_feature_tag) ->
    features fuel gsub required_feature_tag feature_list_offset lookup_list_offset
             feature_count feature_indices m = Done r ->
    r = m.
Proof.
  induction feature_indices as [|feature_index rest IH];
    intros m r Hlist Hvalues Htags; cbn [features]; cbv zeta.
  - intros [= <-]. reflexivity.
  - apply Forall_cons in Hvalues as [Hindex Hvalues]. unfold is_glyph_id in Hindex.
    rewrite (sz_small (feature_list_offset + 2)) by lia.
    rewrite (sz_small (feature_list_offset + 2 + feature_index * 6)) by lia.
    destruct (Z.leb_spec feature_count feature_index) as [|Hbelow];
      [discriminate|].
    destruct (size gsub <? _); [discriminate|].
    cbn [orb]. intros Hloop.
    apply bind_Done in Hloop as (feature_tag & Htag & Hloop).
    destruct (Z.eqb_spec feature_tag required_feature_tag) as [->|Hne].
    + exfalso. apply (Htags feature_index); [lia | exact Htag].
    + cbn [negb] in Hloop. apply (IH _ _ Hlist Hvalues Htags Hloop).
Qed.

(** X11 (feature absent).  When no feature record of the feature list
    carries the feature tag, the map [LoadGSUBTable] returns is
    empty. *)
Theorem LoadGSUBTable_without_feature (fuel : nat) (gsub : list byte)
    (required_feature_tag script_tag lang_sys_tag : Z) (m : gmap Z Z) :
  Forall (fun tag => tag <> Done required_feature_tag)
         (feature_tags gsub (u16_at gsub 6)) ->
  LoadGSUBTable fuel (Some gsub) required_feature_tag script_tag lang_sys_tag
  = Done m ->
  m = ∅.
Proof.
  intros Htags. unfold LoadGSUBTable. cbv zeta.
  destruct (ulong (size gsub - 2) <? 8); [intros [= <-]; reflexivity|].
  match goal with
  | |- returning ∅ ?body = Done m -> _ =>
      destruct body as [r| | | |] eqn:Hbody; simpl;
        [intros [= <-] | intros [= <-]; reflexivity
        | discriminate | discriminate | discriminate]
  end.
  apply bind_Done in Hbody as (script_list_offset & _ & Hbody).
  apply bind_Done in Hbody as (feature_indices & Hindices & Hbody).
  apply ReadScriptFeatureIndices_values in Hindices.
  apply bind_Done in Hbody as (feature_list_offset & Hoffset & Hbody).
  pose proof (GetUint16_value _ _ _ Hoffset) as Hrange.
  apply u16_at_Done in Hoffset. rewrite Hoffset in Htags.
  apply bind_Done in Hbody as (lookup_list_offset & _ & Hbody).
  apply bind_Done in Hbody as (lookup_count & _ & Hbody).
  destruct (_ || _); [discriminate|].
  apply bind_Done in Hbody as (feature_count & Hcount & Hbody).
  pose proof (GetUint16_value _ _ _ Hcount) as Hcount_range.
  apply u16_at_Done in Hcount.
  apply features_without_tag in Hbody; [exact Hbody | lia | exact Hindices |].
  intros i Hi. unfold feature_tags in Htags. rewrite Hcount in Htags.
  rewrite Forall_fmap, Forall_forall in Htags.
  apply (Htags i). apply elem_of_seqZ. lia.
Qed.

End GSUB_more.

(** ** The face resolver *)

Section Renderer_more.
Context `{FontProvider} `{FreeType} `{Canvas} `{!AlphaBlend}.
Context `{Float32} `{UtfHelper} `{CharStyleBits}.

(** *** SetFontFamily *)

Lemma set_font_family__same (self : Renderer) :
  set_font_family_ (font_family_ self) self = self.
Proof. destruct self; reflexivity. Qed.

(** X13 (family lists that reset nothing).  [SetFontFamily] refuses
    the empty list and leaves the renderer as it was; given the list
    the renderer has, it leaves the renderer as it was; given the first
    list of a renderer, it stores the list and touches nothing else.
    None of the three closes a face. *)
Theorem SetFontFamily_keeps_faces (self : Renderer) (font_family : list string) :
  SetFontFamily self [] = (false, self, [])
  /\ (font_family <> [] -> font_family_ self = font_family ->
      SetFontFamily self font_family = (true, self, []))
  /\ (font_family <> [] -> font_family_ self = [] ->
      SetFontFamily self font_family
      = (true, set_font_family_ font_family self, [])).
Proof.
  split; [reflexivity|]. split.
  - intros Hnew <-. unfold SetFontFamily.
    destruct (font_family_ self) as [|f family] eqn:Efamily; [congruence|].
    simpl. rewrite bool_decide_eq_true_2 by reflexivity. simpl.
    rewrite <- Efamily, set_font_family__same. reflexivity.
  - intros Hnew Hold. unfold SetFontFamily. rewrite Hold.
    destruct font_family as [|f font_family]; [congruence|]. reflexivity.
Qed.

(** *** MatchFontFamilyName *)

(** X14 (family name match).  [MatchFontFamilyName] holds exactly when
    one of the name records the face delivers is a family name or a
    full name whose text, decoded by its platform, is the name asked
    for. *)
Theorem MatchFontFamilyName_spec (face : FT_Face) (name : string) :
  MatchFontFamilyName face name = true
  <-> exists sfnt_name,
        Some sfnt_name ∈ FT_Sfnt_Names face
        /\ (name_id sfnt_name = TT_NAME_ID_FONT_FAMILY
            \/ name_id sfnt_name = TT_NAME_ID_FULL_NAME)
        /\ sfnt_name_text sfnt_name = name.
Proof.
  unfold MatchFontFamilyName.
  generalize (FT_Sfnt_Names face). intros names.
  induction names as [|[sfnt_name|] names IH]; cbn [match_sfnt_names].
  - split; [discriminate|]. intros (sfnt_name & Hin & _). inversion Hin.
  - fold (sfnt_name_text sfnt_name).
    destruct ((name_id sfnt_name =? TT_NAME_ID_FONT_FAMILY)
              || (name_id sfnt_name =? TT_NAME_ID_FULL_NAME)) eqn:Eid.
    + destruct (bool_decide (sfnt_name_text sfnt_name = name)) eqn:Etext.
      * apply bool_decide_eq_true_1 in Etext.
        split; [|reflexivity]. intros _. exists sfnt_name.
        apply orb_true_iff in Eid. rewrite !Z.eqb_eq in Eid.
        split; [left | auto].
      * apply bool_decide_eq_false_1 in Etext. rewrite IH.
        split; intros (other & Hin & Hid & Htext); exists other.
        -- split; [right; exact Hin | auto].
        -- apply elem_of_cons in Hin as [[= <-]|Hin]; [congruence | auto].
    + apply orb_false_iff in Eid. rewrite !Z.eqb_neq in Eid. rewrite IH.
      split; intros (other & Hin & Hid & Htext); exists other.
      * split; [right; exact Hin | auto].
      * apply elem_of_cons in Hin as [[= <-]|Hin]; [tauto | auto].
  - rewrite IH.
    split; intros (other & Hin & Hid & Htext); exists other.
    + split; [right; exact Hin | auto].
    + apply elem_of_cons in Hin as [[=]|Hin]; auto.
Qed.

(** *** LoadFontFace *)

(** Lines 703-716 change at most the face and the buffer of the slot
    that is loaded. *)
Lemma store_font_data_state (self : Renderer) (is_fallback : bool)
    (info : FontfaceInfo) (calls : list Call) :
  let self' := (store_font_data self is_fallback info calls).1 in
  self' = self
  \/ (is_fallback = false
      /\ self' = set_main_face_data_ (font_data info) (set_main_face_ None self))
  \/ (is_fallback = true
      /\ self' = set_fallback_face_data_ (font_data info)
                   (set_fallback_face_ None self)).
Proof.
  unfold store_font_data.
  destruct (negb (vec_empty (font_data info))); [|left; reflexivity].
  destruct is_fallback; simpl; auto.
Qed.

Lemma open_font_face_state (fuel : nat) (self : Renderer) (is_fallback : bool)
    (info : FontfaceInfo) (font_index : Z) (calls : list Call)
    (result : Result (FT_Face * Z) FontProviderError.t) (self' : Renderer)
    (calls' : list Call) :
  open_font_face fuel self is_fallback info font_index calls
  = Done (result, self', calls') ->
  self' = (store_font_data self is_fallback info calls).1.
Proof.
  unfold open_font_face.
  destruct (store_font_data self is_fallback info calls) as [self1 calls1].
  destruct (new_face _ info _ (face_index info)) as [[opened|] call];
    [|intros [= _ <- _]; reflexivity].
  destruct (0 <=? face_index info); [intros [= _ <- _]; reflexivity|].
  destruct (string_empty (family_name info) && string_empty (postscript_name info));
    [intros [= _ <- _]; reflexivity|].
  intros Hfind. apply bind_Done in Hfind as ([result' calls2] & _ & Hdone).
  injection Hdone as _ <- _. reflexivity.
Qed.

Lemma LoadFontFace_state (fuel : nat) (self : Renderer) (is_fallback : bool)
    (codepoint begin_index : option Z)
    (result : Result (FT_Face * Z) FontProviderError.t) (self' : Renderer)
    (calls : list Call) :
  LoadFontFace fuel self is_fallback codepoint begin_index
  = Done (result, self', calls) ->
  self' = self
  \/ (is_fallback = false
      /\ exists data,
           self' = set_main_face_data_ data (set_main_face_ None self))
  \/ (is_fallback = true
      /\ exists data,
           self' = set_fallback_face_data_ data (set_fallback_face_ None self)).
Proof.
  unfold LoadFontFace.
  destruct (match begin_index with
            | Some b => vec_size (font_family_ self) <=? b
            | None => false
            end); [intros [= _ <- _]; left; reflexivity|].
  intros Hload. apply bind_Done in Hload as (font_name & _ & Hload).
  destruct (next_suitable_font _ _ _ _ _) as [[font_index result'] calls'].
  destruct result' as [info|error]; [|injection Hload as _ <- _; left; reflexivity].
  apply open_font_face_state in Hload as ->.
  destruct (store_font_data_state self is_fallback info calls')
    as [->|[[-> ->]|[-> ->]]]; eauto.
Qed.

(** X15 (what loading a face keeps).  [LoadFontFace] keeps the family
    list, the face index and both substitution maps, and it keeps the
    face and the buffer of the slot it does not load: loading a
    fallback face never touches the main slot, and the other way
    round. *)
Theorem LoadFontFace_frame (fuel : nat) (self : Renderer) (is_fallback : bool)
    (codepoint begin_index : option Z)
    (result : Result (FT_Face * Z) FontProviderError.t) (self' : Renderer)
    (calls : list Call) :
  LoadFontFace fuel self is_fallback codepoint begin_index
  = Done (result, self', calls) ->
  font_family_ self' = font_family_ self
  /\ main_face_index_ self' = main_face_index_ self
  /\ main_half_width_subst_map_ self' = main_half_width_subst_map_ self
  /\ fallback_half_width_subst_map_ self' = fallback_half_width_subst_map_ self
  /\ (if is_fallback
      then main_face_ self' = main_face_ self
           /\ main_face_data_ self' = main_face_data_ self
      else fallback_face_ self' = fallback_face_ self
           /\ fallback_face_data_ self' = fallback_face_data_ self).
Proof.
  intros Hload.
  destruct (LoadFontFace_state _ _ _ _ _ _ _ _ Hload)
    as [->|[(-> & data & ->)|(-> & data & ->)]];
    try destruct is_fallback; simpl; auto 10.
Qed.

(** The walk of lines 688-695 from a family of the list: it ends on a
    family of the list whose answer it returns, and every family it
    passed was refused. *)
Lemma next_suitable_font_walk (codepoint : option Z) (family rest : list string) :
  forall (font_index : Z) (name : string) (calls : list Call)
         (font_index' : Z) (result' : Result FontfaceInfo FontProviderError.t)
         (calls' : list Call),
    0 <= font_index ->
    family !! Z.to_nat font_index = Some name ->
    drop (Z.to_nat (font_index + 1)) family = rest ->
    next_suitable_font codepoint rest font_index (GetFontFace name codepoint) calls
    = (font_index', result', calls') ->
    font_index <= font_index' < vec_size family
    /\ (exists name',
          family !! Z.to_nat font_index' = Some name'
          /\ result' = GetFontFace name' codepoint)
    /\ (forall i name_i,
          font_index <= i < font_index' ->
          family !! Z.to_nat i = Some name_i ->
          is_err (GetFontFace name_i codepoint) = true).
Proof.
  induction rest as [|next rest IH];
    intros font_index name calls font_index' result' calls' Hindex Hname Hrest;
    cbn [next_suitable_font].
  - intros [= <- <- <-]. pose proof (lookup_lt_Some _ _ _ Hname) as Hlt.
    unfold vec_size. split; [lia|]. split; [eauto|]. intros i name_i Hi. lia.
  - destruct (is_err (GetFontFace name codepoint)) eqn:Herr.
    + intros Hwalk.
      assert (Hnext : family !! Z.to_nat (font_index + 1) = Some next).
      { rewrite <- (Nat.add_0_r (Z.to_nat (font_index + 1))), <- lookup_drop, Hrest.
        reflexivity. }
      assert (Hrest' : drop (Z.to_nat (font_index + 1 + 1)) family = rest).
      { replace (Z.to_nat (font_index + 1 + 1))
          with (Z.to_nat (font_index + 1) + 1)%nat by lia.
        rewrite <- drop_drop, Hrest. reflexivity. }
      destruct (IH (font_index + 1) next _ _ _ _ ltac:(lia) Hnext Hrest' Hwalk)
        as (Hrange & Hresult & Hpassed).
      split; [lia|]. split; [exact Hresult|].
      intros i name_i Hi Hname_i.
      destruct (Z.eq_dec i font_index) as [->|Hne].
      * rewrite Hname in Hname_i. injection Hname_i as <-. exact Herr.
      * apply (Hpassed i name_i); [lia | exact Hname_i].
    + intros [= <- <- <-]. pose proof (lookup_lt_Some _ _ _ Hname) as Hlt.
      unfold vec_size. split; [lia|]. split; [eauto|]. intros i name_i Hi. lia.
Qed.

(** X16 (the family of the face).  When [LoadFontFace] opens a face,
    the index it returns with it is the position, at or after
    [begin_index], of a family the provider accepted for the code
    point, and the provider refused every family from [begin_index] up
    to it. *)
Theorem LoadFontFace_family_of_face (fuel : nat) (self : Renderer)
    (is_fallback : bool) (codepoint begin_index : option Z)
    (face : FT_Face) (index : Z) (self' : Renderer) (calls : list Call) :
  LoadFontFace fuel self is_fallback codepoint begin_index
  = Done (Ok (face, index), self', calls) ->
  default 0 begin_index <= index < vec_size (font_family_ self)
  /\ (exists name info,
        font_family_ self !! Z.to_nat index = Some name
        /\ GetFontFace name codepoint = Ok info)
  /\ (forall i name,
        default 0 begin_index <= i < index ->
        font_family_ self !! Z.to_nat i = Some name ->
        is_err (GetFontFace name codepoint) = true).
Proof.
  unfold LoadFontFace.
  destruct (match begin_index with
            | Some b => vec_size (font_family_ self) <=? b
            | None => false
            end); [discriminate|].
  intros Hload. apply bind_Done in Hload as (font_name & Hat & Hload).
  unfold vec_at in Hat.
  destruct (Z.leb_spec 0 (default 0 begin_index)) as [Hbegin|]; [|discriminate].
  destruct (_ <? _); [|discriminate]. simpl in Hat.
  destruct (font_family_ self !! Z.to_nat (default 0 begin_index))
    as [name|] eqn:Hname; [|discriminate].
  injection Hat as ->.
  destruct (next_suitable_font _ _ _ _ _) as [[font_index result'] calls'] eqn:Hwalk.
  destruct (next_suitable_font_walk _ _ _ _ _ _ _ _ _ Hbegin Hname eq_refl Hwalk)
    as (Hrange & (name' & Hname' & ->) & Hpassed).
  destruct (GetFontFace name' codepoint) as [info|error] eqn:Hanswer;
    [|discriminate].
  apply open_font_face_index in Hload as ->.
  split; [exact Hrange|]. split; [eauto | exact Hpassed].
Qed.

(** *** The search of a collection (lines 733-768) *)

Lemma find_exact_face_match (fuel : nat) (use_memory_data : bool)
    (info : FontfaceInfo) (memory_data : list byte) (font_index : Z) :
  forall i face calls face' index calls',
    0 <= i ->
    find_exact_face fuel use_memory_data info memory_data font_index i face calls
    = Done (Ok (face', index), calls') ->
    (exists j, 0 <= j
               /\ (new_face use_memory_data info memory_data j).1 = Some face')
    /\ ((postscript_name info <> EmptyString
         /\ FT_Get_Postscript_Name face' = postscript_name info)
        \/ (family_name info <> EmptyString
            /\ MatchFontFamilyName face' (family_name info) = true)).
Proof.
  induction fuel as [|fuel IH]; intros i face calls face' index calls' Hi;
    cbn [find_exact_face]; [discriminate|].
  destruct (i <? num_faces face); [|discriminate].
  destruct (new_face use_memory_data info memory_data i) as [[opened|] call] eqn:Hopen;
    [|discriminate].
  destruct (negb (string_empty (postscript_name info))
            && bool_decide (postscript_name info = FT_Get_Postscript_Name opened))
    eqn:Hps.
  { intros [= <- _ _]. apply andb_true_iff in Hps as [Hnonempty Hsame].
    apply bool_decide_eq_true_1 in Hsame.
    split; [exists i; rewrite Hopen; auto|]. left. split; [|auto].
    intros Hempty. rewrite Hempty in Hnonempty. discriminate. }
  destruct (negb (string_empty (family_name info))
            && MatchFontFamilyName opened (family_name info)) eqn:Hfamily.
  { intros [= <- _ _]. apply andb_true_iff in Hfamily as [Hnonempty Hmatch].
    split; [exists i; rewrite Hopen; auto|]. right. split; [|exact Hmatch].
    intros Hempty. rewrite Hempty in Hnonempty. discriminate. }
  apply IH. lia.
Qed.

(** X17 (search of a collection).  When the provider does not know
    the face index ([face_index < 0]) and lines 701-769 still open a
    face, that face was opened from the file or the buffer at a face
    index from 0 on, and either its PostScript name is the non-empty
    one the provider gave or it matches the non-empty family name the
    provider gave. *)
Theorem open_font_face_unknown_index (fuel : nat) (self : Renderer)
    (is_fallback : bool) (info : FontfaceInfo) (font_index : Z)
    (calls : list Call) (face : FT_Face) (index : Z) (self' : Renderer)
    (calls' : list Call) :
  face_index info < 0 ->
  open_font_face fuel self is_fallback info font_index calls
  = Done (Ok (face, index), self', calls') ->
  (exists j,
     0 <= j
     /\ (if vec_empty (font_data info) then FT_New_Face (filename info) j
         else FT_New_Memory_Face (font_data info) j) = Some face)
  /\ ((postscript_name info <> EmptyString
       /\ FT_Get_Postscript_Name face = postscript_name info)
      \/ (family_name info <> EmptyString
          /\ MatchFontFamilyName face (family_name info) = true)).
Proof.
  intros Hunknown. unfold open_font_face.
  assert (Hdata : forall j,
    (new_face (negb (vec_empty (font_data info))) info
       (if negb is_fallback
        then main_face_data_ (store_font_data self is_fallback info calls).1
        else fallback_face_data_ (store_font_data self is_fallback info calls).1)
       j).1
    = if vec_empty (font_data info) then FT_New_Face (filename info) j
      else FT_New_Memory_Face (font_data info) j).
  { intros j. unfold new_face, store_font_data.
    destruct (vec_empty (font_data info)); [reflexivity|].
    destruct is_fallback; reflexivity. }
  destruct (store_font_data self is_fallback info calls) as [self1 calls1].
  simpl in Hdata.
  destruct (new_face _ info _ (face_index info)) as [[opened|] call];
    [|discriminate].
  destruct (Z.leb_spec 0 (face_index info)); [lia|].
  destruct (string_empty (family_name info) && string_empty (postscript_name info));
    [discriminate|].
  intros Hfind. apply bind_Done in Hfind as ([result calls2] & Hfind & Hdone).
  injection Hdone as -> _ _.
  apply find_exact_face_match in Hfind as ((j & Hj & Hopen) & Hnames); [|lia].
  split; [|exact Hnames]. exists j. rewrite <- Hdata. auto.
Qed.

(** *** The calls of the resolver *)

Lemma face_call_not_table (call : Call) :
  is_face_call call = true -> is_table_call call = false.
Proof. destruct call; simpl; congruence. Qed.

Lemma release_calls (holder : option FT_Face) :
  Forall (fun call => is_face_call call = true) (release holder).
Proof. destruct holder; repeat constructor. Qed.

Lemma new_face_call (use_memory_data : bool) (info : FontfaceInfo)
    (memory_data : list byte) (index : Z) :
  is_face_call (new_face use_memory_data info memory_data index).2 = true.
Proof. unfold new_face. destruct use_memory_data; reflexivity. Qed.

Lemma next_suitable_font_calls (codepoint : option Z) (rest : list string) :
  forall font_index result calls,
    Forall (fun call => is_face_call call = true) calls ->
    Forall (fun call => is_face_call call = true)
           (next_suitable_font codepoint rest font_index result calls).2.
Proof.
  induction rest as [|name rest IH]; intros font_index result calls Hcalls;
    cbn [next_suitable_font]; [exact Hcalls|].
  destruct (is_err result); [|exact Hcalls].
  apply IH. apply Forall_app. split; [exact Hcalls | repeat constructor].
Qed.

Lemma find_exact_face_calls (fuel : nat) (use_memory_data : bool)
    (info : FontfaceInfo) (memory_data : list byte) (font_index : Z) :
  forall i face calls result calls',
    Forall (fun call => is_face_call call = true) calls ->
    find_exact_face fuel use_memory_data info memory_data font_index i face calls
    = Done (result, calls') ->
    Forall (fun call => is_face_call call = true) calls'.
Proof.
  induction fuel as [|fuel IH]; intros i face calls result calls' Hcalls;
    cbn [find_exact_face]; [discriminate|].
  destruct (i <? num_faces face); [|intros [= _ <-]; exact Hcalls].
  pose proof (new_face_call use_memory_data info memory_data i) as Hcall.
  assert (Hnext : Forall (fun call => is_face_call call = true)
                    ((calls ++ [CallDoneFace face])
                     ++ [(new_face use_memory_data info memory_data i).2])).
  { repeat (apply Forall_app; split); try exact Hcalls; repeat constructor.
    exact Hcall. }
  destruct (new_face use_memory_data info memory_data i) as [[opened|] call];
    simpl in Hnext; [|intros [= _ <-]; exact Hnext].
  destruct (negb (string_empty (postscript_name info)) && _);
    [intros [= _ <-]; exact Hnext|].
  destruct (negb (string_empty (family_name info)) && _);
    [intros [= _ <-]; exact Hnext|].
  apply IH. exact Hnext.
Qed.

Lemma open_font_face_calls (fuel : nat) (self : Renderer) (is_fallback : bool)
    (info : FontfaceInfo) (font_index : Z) (calls : list Call)
    (result : Result (FT_Face * Z) FontProviderError.t) (self' : Renderer)
    (calls' : list Call) :
  Forall (fun call => is_face_call call = true) calls ->
  open_font_face fuel self is_fallback info font_index calls
  = Done (result, self', calls') ->
  Forall (fun call => is_face_call call = true) calls'.
Proof.
  intros Hcalls. unfold open_font_face.
  assert (Hstore : Forall (fun call => is_face_call call = true)
                     (store_font_data self is_fallback info calls).2).
  { unfold store_font_data.
    destruct (negb (vec_empty (font_data info))); [|exact Hcalls].
    destruct is_fallback; simpl; apply Forall_app; split;
      (exact Hcalls || apply release_calls). }
  destruct (store_font_data self is_fallback info calls) as [self1 calls1].
  simpl in Hstore.
  match goal with
  | |- context [new_face ?u info ?d (face_index info)] =>
      pose proof (new_face_call u info d (face_index info)) as Hcall;
      destruct (new_face u info d (face_index info)) as [[opened|] call]
  end; simpl in Hcall.
  2:{ intros [= _ _ <-]. apply Forall_app. split; [exact Hstore|].
      repeat constructor. exact Hcall. }
  assert (Hopened : Forall (fun call => is_face_call call = true) (calls1 ++ [call])).
  { apply Forall_app. split; [exact Hstore | repeat constructor; exact Hcall]. }
  destruct (0 <=? face_index info); [intros [= _ _ <-]; exact Hopened|].
  destruct (string_empty (family_name info) && string_empty (postscript_name info));
    [intros [= _ _ <-]; exact Hopened|].
  intros Hfind. apply bind_Done in Hfind as ([result' calls2] & Hfind & Hdone).
  injection Hdone as _ _ <-.
  apply (find_exact_face_calls _ _ _ _ _ _ _ _ _ _ Hopened Hfind).
Qed.

Lemma LoadFontFace_calls (fuel : nat) (self : Renderer) (is_fallback : bool)
    (codepoint begin_index : option Z)
    (result : Result (FT_Face * Z) FontProviderError.t) (self' : Renderer)
    (calls : list Call) :
  LoadFontFace fuel self is_fallback codepoint begin_index
  = Done (result, self', calls) ->
  Forall (fun call => is_face_call call = true) calls.
Proof.
  unfold LoadFontFace.
  destruct (match begin_index with
            | Some b => vec_size (font_family_ self) <=? b
            | None => false
            end); [intros [= _ _ <-]; constructor|].
  intros Hload. apply bind_Done in Hload as (font_name & _ & Hload).
  match type of Hload with
  | context [next_suitable_font ?c ?r ?i ?a ?l] =>
      pose proof (next_suitable_font_calls c r i a l) as Hwalk;
      destruct (next_suitable_font c r i a l) as [[font_index result'] calls']
  end.
  simpl in Hwalk. specialize (Hwalk ltac:(repeat constructor)).
  destruct result' as [info|error]; [|injection Hload as _ _ <-; exact Hwalk].
  apply (open_font_face_calls _ _ _ _ _ _ _ _ _ Hwalk Hload).
Qed.

(** The index [LoadFontFace] returns with a face is a position of the
    family list. *)
Lemma LoadFontFace_index_range (fuel : nat) (self : Renderer) (is_fallback : bool)
    (codepoint begin_index : option Z)
    (face : FT_Face) (index : Z) (self' : Renderer) (calls : list Call) :
  LoadFontFace fuel self is_fallback codepoint begin_index
  = Done (Ok (face, index), self', calls) ->
  default 0 begin_index <= index < vec_size (font_family_ self).
Proof.
  unfold LoadFontFace.
  destruct (match begin_index with
            | Some b => vec_size (font_family_ self) <=? b
            | None => false
            end); [discriminate|].
  intros Hload. apply bind_Done in Hload as (font_name & Hat & Hload).
  unfold vec_at in Hat.
  destruct (Z.leb_spec 0 (default 0 begin_index)) as [Hbegin|]; [|discriminate].
  destruct (_ <? _); [|discriminate]. simpl in Hat.
  destruct (font_family_ self !! Z.to_nat (default 0 begin_index))
    as [name|] eqn:Hname; [|discriminate].
  injection Hat as ->.
  destruct (next_suitable_font _ _ _ _ _) as [[font_index result'] calls'] eqn:Hwalk.
  destruct (next_suitable_font_walk _ _ _ _ _ _ _ _ _ Hbegin Hname eq_refl Hwalk)
    as (Hrange & _ & _).
  destruct result' as [info|error]; [|discriminate].
  apply open_font_face_index in Hload as ->. exact Hrange.
Qed.

(** *** The stages of DrawChar *)

Ltac conjuncts := repeat match goal with |- _ /\ _ => split end.

(** Lines 458-469. *)
Lemma ensure_main_face_frame (fuel : nat) (self : Renderer)
    (main : TextRenderStatus.t + FT_Face) (self1 : Renderer) (calls1 : list Call) :
  ensure_main_face fuel self = Done (main, self1, calls1) ->
  font_family_ self1 = font_family_ self
  /\ main_half_width_subst_map_ self1 = main_half_width_subst_map_ self
  /\ fallback_half_width_subst_map_ self1 = fallback_half_width_subst_map_ self
  /\ fallback_face_ self1 = fallback_face_ self
  /\ fallback_face_data_ self1 = fallback_face_data_ self
  /\ Forall (fun call => is_face_call call = true) calls1
  /\ (main_face_index_valid self -> main_face_index_valid self1)
  /\ (forall face, main = inr face -> main_face_ self1 = Some face).
Proof.
  unfold ensure_main_face.
  destruct (main_face_ self) as [face|] eqn:Hface.
  { intros [= <- <- <-]. conjuncts; auto. intros face' [= <-]. exact Hface. }
  intros Hmain.
  apply bind_Done in Hmain as ([[result selfL] callsL] & Hload & Hmain).
  pose proof (LoadFontFace_calls _ _ _ _ _ _ _ _ Hload) as Hcalls.
  assert (Hstate : font_family_ selfL = font_family_ self
                   /\ main_half_width_subst_map_ selfL
                      = main_half_width_subst_map_ self
                   /\ fallback_half_width_subst_map_ selfL
                      = fallback_half_width_subst_map_ self
                   /\ fallback_face_ selfL = fallback_face_ self
                   /\ fallback_face_data_ selfL = fallback_face_data_ self
                   /\ main_face_ selfL = None).
  { destruct (LoadFontFace_state _ _ _ _ _ _ _ _ Hload)
      as [->|[(_ & data & ->)|([=] & _)]]; simpl; auto 10. }
  destruct Hstate as (Hfamily & Hmap & Hfallback_map & Hfallback & Hdata & Hnone).
  destruct result as [[face index]|error].
  - apply LoadFontFace_index_range in Hload. simpl in Hload.
    injection Hmain as <- <- <-.
    simpl. conjuncts; auto.
    + apply Forall_app. split; [exact Hcalls | apply release_calls].
    + intros _ _. simpl. rewrite Hfamily. exact Hload.
    + intros face' [= <-]. reflexivity.
  - injection Hmain as <- <- <-. conjuncts; auto.
    + intros _ Hpresent. congruence.
    + intros face [=].
Qed.

(** Lines 471-506. *)
Lemma resolve_glyph_frame (fuel : nat) (self : Renderer) (main_face : FT_Face)
    (ucs4 : Z) (fallback_policy : TextRenderFallbackPolicy.t)
    (resolved : TextRenderStatus.t + FT_Face * Z) (self2 : Renderer)
    (calls2 : list Call) :
  resolve_glyph fuel self main_face ucs4 fallback_policy
  = Done (resolved, self2, calls2) ->
  font_family_ self2 = font_family_ self
  /\ main_face_ self2 = main_face_ self
  /\ main_face_data_ self2 = main_face_data_ self
  /\ main_face_index_ self2 = main_face_index_ self
  /\ main_half_width_subst_map_ self2 = main_half_width_subst_map_ self
  /\ fallback_half_width_subst_map_ self2 = fallback_half_width_subst_map_ self
  /\ Forall (fun call => is_face_call call = true) calls2.
Proof.
  unfold resolve_glyph. cbv zeta.
  destruct (FT_Get_Char_Index main_face ucs4 =? 0);
    [|intros [= _ <- <-]; conjuncts; auto].
  destruct fallback_policy; [|intros [= _ <- <-]; conjuncts; auto].
  destruct (fallback_glyph self ucs4) as [[face glyph_index]|];
    [intros [= _ <- <-]; conjuncts; auto|].
  destruct (vec_size (font_family_ self) <=? _);
    [intros [= _ <- <-]; conjuncts; auto|].
  intros Hresolve.
  apply bind_Done in Hresolve as ([[result selfL] callsL] & Hload & Hresolve).
  pose proof (LoadFontFace_calls _ _ _ _ _ _ _ _ Hload) as Hcalls.
  assert (Hstate : font_family_ selfL = font_family_ self
                   /\ main_face_ selfL = main_face_ self
                   /\ main_face_data_ selfL = main_face_data_ self
                   /\ main_face_index_ selfL = main_face_index_ self
                   /\ main_half_width_subst_map_ selfL
                      = main_half_width_subst_map_ self
                   /\ fallback_half_width_subst_map_ selfL
                      = fallback_half_width_subst_map_ self).
  { destruct (LoadFontFace_state _ _ _ _ _ _ _ _ Hload)
      as [->|[([=] & _)|(_ & data & ->)]]; simpl; auto 10. }
  destruct Hstate as (Hfamily & Hface & Hdata & Hindex & Hmap & Hfallback_map).
  destruct result as [[face index]|error].
  - assert (Hreleased : Forall (fun call => is_face_call call = true)
                          (callsL ++ release (fallback_face_ selfL)))
      by (apply Forall_app; split; [exact Hcalls | apply release_calls]).
    destruct (FT_Get_Char_Index face ucs4 =? 0);
      injection Hresolve as _ <- <-; simpl; conjuncts; auto.
  - injection Hresolve as _ <- <-. conjuncts; auto.
Qed.

(** Lines 509-519 assign a substitution map and nothing else. *)
Lemma ensure_subst_map_frame (fuel : nat) (self : Renderer) (face : FT_Face)
    (self3 : Renderer) (calls3 : list Call) :
  ensure_subst_map fuel self face = Done (self3, calls3) ->
  font_family_ self3 = font_family_ self
  /\ main_face_ self3 = main_face_ self
  /\ fallback_face_ self3 = fallback_face_ self
  /\ main_face_data_ self3 = main_face_data_ self
  /\ fallback_face_data_ self3 = fallback_face_data_ self
  /\ main_face_index_ self3 = main_face_index_ self
  /\ Forall (fun call => is_face_call call = false) calls3.
Proof.
  unfold ensure_subst_map. cbv zeta.
  destruct (bool_decide (Some face = main_face_ self)).
  - destruct (main_half_width_subst_map_ self);
      [intros [= <- <-]; conjuncts; auto|].
    intros Hload. apply bind_Done in Hload as (m & _ & [= <- <-]).
    simpl. conjuncts; auto; repeat constructor.
  - destruct (bool_decide (Some face = fallback_face_ self));
      [|intros [= <- <-]; conjuncts; auto].
    destruct (fallback_half_width_subst_map_ self);
      [intros [= <- <-]; conjuncts; auto|].
    intros Hload. apply bind_Done in Hload as (m & _ & [= <- <-]).
    simpl. conjuncts; auto; repeat constructor.
Qed.

(** Lines 508-528. *)
Lemma half_width_substitution_frame (fuel : nat) (self : Renderer) (face : FT_Face)
    (glyph_index char_width char_height glyph_index' char_width' : Z)
    (self3 : Renderer) (calls3 : list Call) :
  half_width_substitution fuel self face glyph_index char_width char_height
  = Done (glyph_index', char_width', self3, calls3) ->
  (font_family_ self3 = font_family_ self
   /\ main_face_ self3 = main_face_ self
   /\ fallback_face_ self3 = fallback_face_ self
   /\ main_face_data_ self3 = main_face_data_ self
   /\ fallback_face_data_ self3 = fallback_face_data_ self
   /\ main_face_index_ self3 = main_face_index_ self
   /\ Forall (fun call => is_face_call call = false) calls3)
  /\ (char_width <> char_height ÷ 2 -> self3 = self /\ calls3 = []).
Proof.
  unfold half_width_substitution.
  destruct (Z.eqb_spec char_width (char_height ÷ 2)) as [Hhalf|Hfull].
  - intros Hsubst.
    apply bind_Done in Hsubst as ([self' calls'] & Hensure & Hsubst).
    apply ensure_subst_map_frame in Hensure.
    assert (self3 = self' /\ calls3 = calls') as [-> ->].
    { destruct (subst_map self' face) as [m|]; [destruct (m !! glyph_index)|];
        injection Hsubst as _ _ <- <-; auto. }
    split; [exact Hensure | tauto].
  - intros [= _ _ <- <-]. conjuncts; auto.
Qed.

Lemma prepare_glyph_no_face_call (face : FT_Face) (glyph_index style : Z)
    (stroke_width : float) (char_width char_height : Z) :
  Forall (fun call => is_face_call call = false /\ is_table_call call = false)
         (prepare_glyph face glyph_index style stroke_width char_width char_height).2.
Proof.
  destruct (prepare_glyph_calls face glyph_index style stroke_width
              char_width char_height) as (rest & -> & [->| ->]);
    repeat constructor.
Qed.

(** The stages a draw went through, read back from its result. *)
Lemma DrawChar_stages
    (fuel : nat) (self : Renderer) (target_bmp : Bitmap)
    (target_x target_y ucs4 style : Z) (color stroke_color : ColorRGBA)
    (stroke_width : float) (char_width char_height : Z)
    (underline_info : option UnderlineInfo)
    (fallback_policy : TextRenderFallbackPolicy.t)
    (status : TextRenderStatus.t) (self' : Renderer) (bmp : Bitmap)
    (calls : list Call) :
  DrawChar fuel self target_bmp target_x target_y ucs4 style color
           stroke_color stroke_width char_width char_height
           underline_info fallback_policy
  = Done (status, self', bmp, calls) ->
  (self' = self /\ calls = [])
  \/ exists main self1 calls1,
       ensure_main_face fuel self = Done (main, self1, calls1)
       /\ ((self' = self1 /\ calls = calls1)
           \/ exists main_face resolved self2 calls2,
                main = inr main_face
                /\ resolve_glyph fuel self1 main_face ucs4 fallback_policy
                   = Done (resolved, self2, calls2)
                /\ ((self' = self2 /\ calls = calls1 ++ calls2)
                    \/ exists face glyph_index glyph_index' char_width' calls3,
                         resolved = inr (face, glyph_index)
                         /\ half_width_substitution fuel self2 face glyph_index
                                                    char_width char_height
                            = Done (glyph_index', char_width', self', calls3)
                         /\ calls
                            = calls1 ++ calls2 ++ calls3
                              ++ (prepare_glyph face glyph_index' style
                                    (if float_ltb stroke_width float_zero
                                     then float_zero else stroke_width)
                                    char_width' char_height).2)).
Proof.
  unfold DrawChar. intros Hdraw.
  destruct (negb (0 <? char_height)); [discriminate|].
  destruct (is_space_character ucs4); [injection Hdraw as _ <- _ <-; auto|].
  right.
  apply bind_Done in Hdraw as ([[main self1] calls1] & Hmain & Hdraw).
  exists main, self1, calls1. split; [exact Hmain|].
  destruct main as [status1|main_face]; [injection Hdraw as _ <- _ <-; auto|].
  right.
  apply bind_Done in Hdraw as ([[resolved self2] calls2] & Hresolve & Hdraw).
  exists main_face, resolved, self2, calls2.
  split; [reflexivity|]. split; [exact Hresolve|].
  destruct resolved as [status2|[face glyph_index]];
    [injection Hdraw as _ <- _ <-; auto|].
  right.
  apply bind_Done in Hdraw
    as ([[[glyph_index' char_width'] self3] calls3] & Hsubst & Hdraw).
  exists face, glyph_index, glyph_index', char_width', calls3.
  split; [reflexivity|].
  destruct (prepare_glyph face glyph_index' style _ char_width' char_height)
    as [[status4|p] calls4]; injection Hdraw as _ <- _ <-; simpl; auto.
Qed.

(** *** What a draw keeps *)

Lemma main_face_index_valid_same (self self' : Renderer) :
  font_family_ self' = font_family_ self ->
  main_face_ self' = main_face_ self ->
  main_face_index_ self' = main_face_index_ self ->
  main_face_index_valid self -> main_face_index_valid self'.
Proof.
  unfold main_face_index_valid. intros -> -> ->. auto.
Qed.

(** X18 (the face index stays valid).  While the renderer holds a
    main face, [main_face_index_] is a position of [font_family_].
    This holds for the renderer as it is constructed and it is kept by
    [SetFontFamily] and by [DrawChar]; [DrawChar] also keeps the family
    list. *)
Theorem main_face_index_valid_kept :
  main_face_index_valid fresh
  /\ (forall (self : Renderer) (font_family : list string),
        main_face_index_valid self ->
        main_face_index_valid (SetFontFamily self font_family).1.2)
  /\ (forall (fuel : nat) (self : Renderer) (target_bmp : Bitmap)
             (target_x target_y ucs4 style : Z) (color stroke_color : ColorRGBA)
             (stroke_width : float) (char_width char_height : Z)
             (underline_info : option UnderlineInfo)
             (fallback_policy : TextRenderFallbackPolicy.t)
             (status : TextRenderStatus.t) (self' : Renderer) (bmp : Bitmap)
             (calls : list Call),
        main_face_index_valid self ->
        DrawChar fuel self target_bmp target_x target_y ucs4 style color
                 stroke_color stroke_width char_width char_height
                 underline_info fallback_policy
        = Done (status, self', bmp, calls) ->
        main_face_index_valid self' /\ font_family_ self' = font_family_ self).
Proof.
  split; [intros Hface; exfalso; apply Hface; reflexivity|]. split.
  - intros self font_family Hvalid. unfold SetFontFamily.
    destruct (vec_empty font_family); [exact Hvalid|].
    destruct (vec_empty (font_family_ self)) eqn:Hempty; simpl.
    + intros Hface. exfalso. simpl in Hface. apply Hvalid in Hface.
      destruct (font_family_ self); [|discriminate].
      unfold vec_size in Hface. simpl in Hface. lia.
    + destruct (bool_decide (font_family_ self = font_family)) eqn:Hsame; simpl.
      * apply bool_decide_eq_true_1 in Hsame. rewrite <- Hsame.
        rewrite set_font_family__same. exact Hvalid.
      * intros Hface. exfalso. apply Hface. reflexivity.
  - intros * Hvalid Hdraw.
    apply DrawChar_stages in Hdraw
      as [[-> _]|(main & self1 & calls1 & Hmain & Hdraw)]; [auto|].
    apply ensure_main_face_frame in Hmain
      as (Hfamily1 & _ & _ & _ & _ & _ & Hvalid1 & _).
    specialize (Hvalid1 Hvalid).
    destruct Hdraw
      as [[-> _]|(main_face & resolved & self2 & calls2 & _ & Hresolve & Hdraw)];
      [auto|].
    apply resolve_glyph_frame in Hresolve
      as (Hfamily2 & Hface2 & _ & Hindex2 & _ & _ & _).
    assert (Hvalid2 : main_face_index_valid self2).
    { apply (main_face_index_valid_same self1); auto. }
    destruct Hdraw
      as [[-> _]|(face & glyph_index & glyph_index' & char_width' & calls3
                  & _ & Hsubst & _)]; [split; [exact Hvalid2 | congruence]|].
    apply half_width_substitution_frame in Hsubst
      as [(Hfamily3 & Hface3 & _ & _ & _ & Hindex3 & _) _].
    split; [|congruence].
    apply (main_face_index_valid_same self2); auto.
Qed.

(** X19 (no resolution when the main face has the glyph).  A draw of
    a character the main face has makes no call that resolves, opens or
    closes a face, and it keeps both faces, both buffers, the face
    index and the family list. *)
Theorem DrawChar_with_glyph_in_main_face
    (fuel : nat) (self : Renderer) (target_bmp : Bitmap)
    (target_x target_y ucs4 style : Z) (color stroke_color : ColorRGBA)
    (stroke_width : float) (char_width char_height : Z)
    (underline_info : option UnderlineInfo)
    (fallback_policy : TextRenderFallbackPolicy.t) (face : FT_Face)
    (status : TextRenderStatus.t) (self' : Renderer) (bmp : Bitmap)
    (calls : list Call) :
  main_face_ self = Some face ->
  FT_Get_Char_Index face ucs4 <> 0 ->
  DrawChar fuel self target_bmp target_x target_y ucs4 style color
           stroke_color stroke_width char_width char_height
           underline_info fallback_policy
  = Done (status, self', bmp, calls) ->
  Forall (fun call => is_face_call call = false) calls
  /\ font_family_ self' = font_family_ self
  /\ main_face_ self' = main_face_ self
  /\ fallback_face_ self' = fallback_face_ self
  /\ main_face_data_ self' = main_face_data_ self
  /\ fallback_face_data_ self' = fallback_face_data_ self
  /\ main_face_index_ self' = main_face_index_ self.
Proof.
  intros Hface Hglyph Hdraw.
  apply DrawChar_stages in Hdraw
    as [[-> ->]|(main & self1 & calls1 & Hmain & Hdraw)]; [conjuncts; auto|].
  unfold ensure_main_face in Hmain. rewrite Hface in Hmain.
  injection Hmain as <- <- <-.
  destruct Hdraw
    as [[-> ->]|(main_face & resolved & self2 & calls2 & [= <-] & Hresolve & Hdraw)];
    [conjuncts; auto|].
  unfold resolve_glyph in Hresolve. cbv zeta in Hresolve.
  apply Z.eqb_neq in Hglyph. rewrite Hglyph in Hresolve.
  injection Hresolve as <- <- <-.
  destruct Hdraw
    as [[-> ->]|(face' & glyph_index & glyph_index' & char_width' & calls3
                 & _ & Hsubst & ->)]; [conjuncts; auto|].
  apply half_width_substitution_frame in Hsubst as [Hframe _].
  destruct Hframe as (Hfamily & Hmain & Hfallback & Hdata & Hfallback_data
                      & Hindex & Hcalls).
  conjuncts; auto. simpl.
  apply Forall_app. split; [exact Hcalls|].
  eapply Forall_impl; [apply prepare_glyph_no_face_call|].
  intros call [Hcall _]. exact Hcall.
Qed.

(** X20 (code point not found).  In a draw with [char_height > 0], a
    character outside the whitespace set that the main face does not
    have ends the draw with [kCodePointNotFound], the renderer and the
    bitmap as they were and no call made, in two cases: under the
    policy [kFailOnCodePointNotFound]; and under [kAuto] when the
    fallback face, if there is one, does not have it either and the
    main face came from the last family of the list. *)
Theorem DrawChar_code_point_not_found
    (fuel : nat) (self : Renderer) (target_bmp : Bitmap)
    (target_x target_y ucs4 style : Z) (color stroke_color : ColorRGBA)
    (stroke_width : float) (char_width char_height : Z)
    (underline_info : option UnderlineInfo)
    (fallback_policy : TextRenderFallbackPolicy.t) (face : FT_Face) :
  0 < char_height ->
  ~ whitespace_set ucs4 ->
  main_face_ self = Some face ->
  FT_Get_Char_Index face ucs4 = 0 ->
  fallback_policy = TextRenderFallbackPolicy.kFailOnCodePointNotFound
  \/ (fallback_glyph self ucs4 = None
      /\ vec_size (font_family_ self) < 2 ^ 64
      /\ main_face_index_ self = vec_size (font_family_ self) - 1) ->
  DrawChar fuel self target_bmp target_x target_y ucs4 style color
           stroke_color stroke_width char_width char_height
           underline_info fallback_policy
  = Done (TextRenderStatus.kCodePointNotFound, self, target_bmp, []).
Proof.
  intros Hheight Hspace Hface Hglyph Hcase.
  rewrite <- is_space_character_spec in Hspace.
  apply not_true_is_false in Hspace.
  unfold DrawChar, ensure_main_face.
  rewrite (assert_holds _ Hheight), Hspace, Hface.
  cbn [mbind outcome_bind]. cbv beta iota.
  unfold resolve_glyph. cbv zeta. rewrite Hglyph. simpl (0 =? 0).
  destruct Hcase as [->|(Hfallback & Hsize & Hlast)]; [reflexivity|].
  destruct fallback_policy; [|reflexivity].
  rewrite Hfallback, Hlast.
  replace (vec_size (font_family_ self) - 1 + 1)
    with (vec_size (font_family_ self)) by lia.
  assert (Hnonneg : 0 <= vec_size (font_family_ self))
    by (unfold vec_size; lia).
  unfold sz. rewrite Z.mod_small by lia. rewrite Z.leb_refl. reflexivity.
Qed.

(** X21 (the GSUB table is parsed once).  Once lines 509-519 have run
    for a face, running them again for the same face parses no table
    and changes nothing: the GSUB table of a slot is read at most once
    while its map is there. *)
Theorem ensure_subst_map_once (fuel : nat) (self : Renderer) (face : FT_Face)
    (self' : Renderer) (calls : list Call) :
  ensure_subst_map fuel self face = Done (self', calls) ->
  ensure_subst_map fuel self' face = Done (self', []).
Proof.
  unfold ensure_subst_map. cbv zeta.
  destruct (bool_decide (Some face = main_face_ self)) eqn:Hmain.
  - destruct (main_half_width_subst_map_ self) as [m|] eqn:Hmap.
    + intros [= <- _]. rewrite Hmain, Hmap. reflexivity.
    + intros Hload. apply bind_Done in Hload as (m & _ & [= <- _]).
      simpl. rewrite Hmain. reflexivity.
  - destruct (bool_decide (Some face = fallback_face_ self)) eqn:Hfallback.
    + destruct (fallback_half_width_subst_map_ self) as [m|] eqn:Hmap.
      * intros [= <- _]. rewrite Hmain, Hfallback, Hmap. reflexivity.
      * intros Hload. apply bind_Done in Hload as (m & _ & [= <- _]).
        simpl. rewrite Hmain, Hfallback. reflexivity.
    + intros [= <- _]. rewrite Hmain, Hfallback. reflexivity.
Qed.

(** X22 (full-width draws leave the maps alone).  A draw whose cell is
    not half as wide as it is high reads no GSUB table and keeps both
    substitution maps. *)
Theorem DrawChar_full_width_keeps_maps
    (fuel : nat) (self : Renderer) (target_bmp : Bitmap)
    (target_x target_y ucs4 style : Z) (color stroke_color : ColorRGBA)
    (stroke_width : float) (char_width char_height : Z)
    (underline_info : option UnderlineInfo)
    (fallback_policy : TextRenderFallbackPolicy.t)
    (status : TextRenderStatus.t) (self' : Renderer) (bmp : Bitmap)
    (calls : list Call) :
  char_width <> char_height ÷ 2 ->
  DrawChar fuel self target_bmp target_x target_y ucs4 style color
           stroke_color stroke_width char_width char_height
           underline_info fallback_policy
  = Done (status, self', bmp, calls) ->
  main_half_width_subst_map_ self' = main_half_width_subst_map_ self
  /\ fallback_half_width_subst_map_ self' = fallback_half_width_subst_map_ self
  /\ Forall (fun call => is_table_call call = false) calls.
Proof.
  intros Hfull Hdraw.
  assert (Hno_table : forall l, Forall (fun call => is_face_call call = true) l ->
                                Forall (fun call => is_table_call call = false) l).
  { intros l Hl. eapply Forall_impl; [exact Hl|].
    intros call. apply face_call_not_table. }
  apply DrawChar_stages in Hdraw
    as [[-> ->]|(main & self1 & calls1 & Hmain & Hdraw)]; [conjuncts; auto|].
  apply ensure_main_face_frame in Hmain
    as (_ & Hmap1 & Hfallback1 & _ & _ & Hcalls1 & _ & _).
  destruct Hdraw
    as [[-> ->]|(main_face & resolved & self2 & calls2 & _ & Hresolve & Hdraw)];
    [conjuncts; auto|].
  apply resolve_glyph_frame in Hresolve
    as (_ & _ & _ & _ & Hmap2 & Hfallback2 & Hcalls2).
  destruct Hdraw
    as [[-> ->]|(face & glyph_index & glyph_index' & char_width' & calls3
                 & _ & Hsubst & ->)].
  { conjuncts; [congruence | congruence |]. apply Forall_app. auto. }
  apply half_width_substitution_frame in Hsubst as [_ Hsame].
  destruct (Hsame Hfull) as [-> ->].
  conjuncts; [congruence | congruence |].
  repeat (apply Forall_app; split); auto.
  eapply Forall_impl; [apply prepare_glyph_no_face_call|].
  intros call [_ Hcall]. exact Hcall.
Qed.

(** *** The underline *)

(** X23 (the underline rectangle).  When the style asks for an
    underline, the cell has one and the scaled thickness is positive,
    the rectangle drawn spans the underline horizontally, is exactly
    [underline_thickness] rows high, for odd and for even thickness,
    and holds the row [underline_y]. *)
Theorem draw_underline_rect (p : Prepared) (target_y style : Z)
    (color : ColorRGBA) (info : UnderlineInfo) (canvas : Bitmap) :
  Z.land style kCharStyleUnderline <> 0 ->
  0 < underline_thickness_px p ->
  let underline_y := target_y + baseline p + em_adjust_y p + Z.abs (underline p) in
  exists rect,
    draw_underline p target_y style color (Some info) canvas
    = DrawRect canvas color rect
    /\ rect_left rect = start_x info
    /\ rect_right rect = start_x info + width info
    /\ rect_bottom rect - rect_top rect = underline_thickness_px p
    /\ rect_top rect <= underline_y < rect_bottom rect.
Proof.
  intros Hstyle Hthick underline_y. unfold draw_underline.
  apply Z.eqb_neq in Hstyle. rewrite Hstyle.
  destruct (Z.ltb_spec 0 (underline_thickness_px p)); [|lia].
  cbn [negb andb]. fold underline_y.
  pose proof (Z.quot_rem' (underline_thickness_px p) 2) as Hdiv.
  pose proof (Z.rem_bound_pos (underline_thickness_px p) 2 ltac:(lia) ltac:(lia))
    as Hrem.
  destruct (Z.eqb_spec (Z.rem (underline_thickness_px p) 2) 0) as [Heven|Hodd];
    cbn [negb]; eexists; (split; [reflexivity|]); simpl; lia.
Qed.

End Renderer_more.

(** ** FontProvider::Create *)

Module Create_facts.

(** X24 (the provider made is compiled in).  Whatever the request,
    the provider [Create] makes is of a class that is compiled in. *)
Theorem Create_compiled_in (config : Config) (type : FontProviderType.t)
    (provider : FontProviderClass) :
  Create config type = Some provider -> compiled_in config provider = true.
Proof.
  unfold Create, auto_select.
  destruct config as [coretext directwrite fontconfig win32 apple]. simpl.
  destruct win32, directwrite, apple, coretext, fontconfig, type; simpl;
    intros [= <-]; reflexivity.
Qed.

(** X25 (requests for a provider).  In a configuration that builds, a
    request that names a class that is compiled in is answered with
    that class; a request that names a class that is not, or names
    none, is answered like [kAuto]. *)
Theorem Create_request (config : Config) (type : FontProviderType.t) :
  (forall provider,
      is_Some (Create config FontProviderType.kAuto) ->
      named_class type = Some provider ->
      compiled_in config provider = true ->
      Create config type = Some provider)
  /\ (named_class type = None
      \/ (exists provider, named_class type = Some provider
                           /\ compiled_in config provider = false) ->
      Create config type = Create config FontProviderType.kAuto).
Proof.
  unfold Create. split.
  - intros provider [selected Hauto].
    destruct (auto_select config) as [auto|]; [|discriminate]. simpl.
    destruct type; simpl; try discriminate; intros [= <-]; simpl;
      intros ->; reflexivity.
  - destruct (auto_select config) as [auto|]; [|reflexivity]. simpl.
    intros [Hnone|(provider & Hnamed & Hout)].
    + destruct type; try discriminate; reflexivity.
    + destruct type; simpl in Hnamed; try discriminate;
        injection Hnamed as <-; simpl in Hout; rewrite Hout; reflexivity.
Qed.

End Create_facts.

(** ** The further properties on concrete inputs *)

Section Scenarios_parser.
Import Fixture Samples.

Lemma GetUint16_big_endian_witness :
  GSUB.GetUint16 gsub_table 4 = Done (256 * b2z Byte.x00 + b2z Byte.x0a).
Proof.
  apply Readers_facts.GetUint16_big_endian.
  - lia.
  - vm_compute. reflexivity.
  - reflexivity.
  - reflexivity.
Defined.

(** The coverage table of [gsub_table], at offset 72. *)
Lemma ReadCoverageTable_in_bounds_witness :
  in_bounds (GSUB.ReadCoverageTable fuel gsub_table 72).
Proof.
  apply GSUB_facts.ReadCoverageTable_in_bounds.
  - vm_compute. reflexivity.
  - lia.
Defined.

(** The script list of [gsub_table], at offset 10. *)
Lemma ReadScriptFeatureIndices_in_bounds_witness :
  in_bounds (GSUB.ReadScriptFeatureIndices gsub_table 10
               GSUB.kOpenTypeScriptHiraganaKatakana GSUB.kOpenTypeLangSysJapanese).
Proof.
  apply GSUB_facts.ReadScriptFeatureIndices_in_bounds.
  - vm_compute. reflexivity.
  - lia.
Defined.

Lemma ReadCoverageTable_format_1_witness :
  glyph_array coverage_format_1 0 = [5; 7]
  /\ GSUB.ReadCoverageTable fuel coverage_format_1 0
     = Done (glyph_array coverage_format_1 0)
  /\ GSUB.ReadCoverageTable fuel coverage_format_1_cut 0 = Bail.
Proof.
  split; [vm_compute; reflexivity|]. split.
  - apply (proj1 (GSUB_more.ReadCoverageTable_format_1 fuel coverage_format_1 0
                    ltac:(lia) ltac:(vm_compute; reflexivity)
                    ltac:(vm_compute; discriminate) ltac:(reflexivity))).
    vm_compute. discriminate.
  - apply (proj2 (GSUB_more.ReadCoverageTable_format_1 fuel coverage_format_1_cut 0
                    ltac:(lia) ltac:(vm_compute; reflexivity)
                    ltac:(vm_compute; discriminate) ltac:(reflexivity))).
    vm_compute. reflexivity.
Defined.

(** The map of [gsub_table]. *)
Lemma LoadGSUBTable_glyph_map_witness : glyph_map table_map.
Proof.
  apply (GSUB_more.LoadGSUBTable_glyph_map fuel (Some gsub_table)
           GSUB.kOpenTypeFeatureHalfWidth GSUB.kOpenTypeScriptHiraganaKatakana
           GSUB.kOpenTypeLangSysJapanese).
  vm_compute. reflexivity.
Defined.

(** [gsub_table] asked for the script [latn], which it does not have. *)
Lemma LoadGSUBTable_without_script_witness :
  GSUB.LoadGSUBTable fuel (Some gsub_table) GSUB.kOpenTypeFeatureHalfWidth
                     (GSUB.FT_MAKE_TAG 108 97 116 110)
                     GSUB.kOpenTypeLangSysJapanese
  = Done ∅
  /\ (∅ : gmap Z Z) = ∅.
Proof.
  assert (Hload : GSUB.LoadGSUBTable fuel (Some gsub_table)
                    GSUB.kOpenTypeFeatureHalfWidth
                    (GSUB.FT_MAKE_TAG 108 97 116 110)
                    GSUB.kOpenTypeLangSysJapanese
                  = Done ∅) by (vm_compute; reflexivity).
  split; [exact Hload|].
  apply (GSUB_more.LoadGSUBTable_without_script _ _ _ _ _ _) in Hload;
    [exact Hload|].
  vm_compute. repeat constructor. discriminate.
Defined.

(** [gsub_table] asked for the feature [vert], which it does not
    have. *)
Lemma LoadGSUBTable_without_feature_witness :
  GSUB.LoadGSUBTable fuel (Some gsub_table) (GSUB.FT_MAKE_TAG 118 101 114 116)
                     GSUB.kOpenTypeScriptHiraganaKatakana
                     GSUB.kOpenTypeLangSysJapanese
  = Done ∅
  /\ (∅ : gmap Z Z) = ∅.
Proof.
  assert (Hload : GSUB.LoadGSUBTable fuel (Some gsub_table)
                    (GSUB.FT_MAKE_TAG 118 101 114 116)
                    GSUB.kOpenTypeScriptHiraganaKatakana
                    GSUB.kOpenTypeLangSysJapanese
                  = Done ∅) by (vm_compute; reflexivity).
  split; [exact Hload|].
  apply (GSUB_more.LoadGSUBTable_without_feature _ _ _ _ _ _) in Hload;
    [exact Hload|].
  vm_compute. repeat constructor. discriminate.
Defined.

(** The first nine bytes of [gsub_table]. *)
Lemma LoadGSUBTable_short_witness :
  GSUB.LoadGSUBTable fuel (Some (take 9 gsub_table))
                     GSUB.kOpenTypeFeatureHalfWidth
                     GSUB.kOpenTypeScriptHiraganaKatakana
                     GSUB.kOpenTypeLangSysJapanese
  = Done ∅.
Proof.
  apply GSUB_claims.LoadGSUBTable_short. vm_compute.
  split; [discriminate | reflexivity].
Defined.

(** The substitute array of [gsub_table], at offset 68, against its
    coverage list 5, 6. *)
Lemma substitute_glyphs_lookup_witness :
  GSUB.substitute_glyphs gsub_table [5; 6] 68 2 0 ∅ = Done table_map
  /\ (2 <= length [5; 6])%nat
  /\ table_map !! 5 = Some 100
  /\ table_map !! 6 = Some 200
  /\ table_map !! 7 = None.
Proof.
  assert (Hloop : GSUB.substitute_glyphs gsub_table [5; 6] 68 2 0 ∅
                  = Done table_map) by (vm_compute; reflexivity).
  split; [exact Hloop|].
  destruct (GSUB_more.substitute_glyphs_lookup gsub_table [5; 6] 68 2 ∅ table_map
              ltac:(lia) ltac:(lia)
              ltac:(apply (bool_decide_unpack _); vm_compute; exact I) Hloop)
    as (Hlength & Hset & Hframe).
  split; [exact Hlength|]. split; [|split].
  - apply (Hset 0%nat). lia.
  - apply (Hset 1%nat). lia.
  - rewrite (Hframe 7); [reflexivity|].
    intros [|[|j]] Hj; simpl; lia.
Defined.
End Scenarios_parser.

Section Scenarios_renderer.
Import Fixture Samples.
#[local] Existing Instances provider freetype canvas alphablend float32 utf
  style_bits.

Lemma SetFontFamily_keeps_faces_witness :
  SetFontFamily (loaded "A" 1%nat) ["A"%string] = (true, loaded "A" 1%nat, [])
  /\ SetFontFamily fresh ["A"%string] = (true, with_families ["A"%string], []).
Proof.
  split.
  - apply (proj1 (proj2 (SetFontFamily_keeps_faces (loaded "A" 1%nat)
                           ["A"%string]))).
    + discriminate.
    + reflexivity.
  - apply (proj2 (proj2 (SetFontFamily_keeps_faces fresh ["A"%string]))).
    + discriminate.
    + reflexivity.
Defined.

Lemma SetFontFamily_resets_faces_witness :
  let self' := (SetFontFamily (loaded "A" 1%nat) ["B"%string]).1.2 in
  font_family_ self' = ["B"%string]
  /\ main_face_ self' = None /\ fallback_face_ self' = None
  /\ main_face_data_ self' = [] /\ fallback_face_data_ self' = []
  /\ main_face_index_ self' = 0.
Proof.
  apply SetFontFamily_resets_faces; discriminate.
Defined.

(** Loading the family [M], whose data comes from memory, as the main
    face. *)
Lemma LoadFontFace_frame_witness :
  let self := with_families ["M"%string] in
  let self' := set_main_face_data_ [Byte.x00] self in
  font_family_ self' = font_family_ self
  /\ main_face_index_ self' = main_face_index_ self
  /\ main_half_width_subst_map_ self' = main_half_width_subst_map_ self
  /\ fallback_half_width_subst_map_ self' = fallback_half_width_subst_map_ self
  /\ fallback_face_ self' = fallback_face_ self
  /\ fallback_face_data_ self' = fallback_face_data_ self.
Proof.
  apply (LoadFontFace_frame fuel (with_families ["M"%string]) false None None
           (Err FontProviderError.kFontNotFound)
           (set_main_face_data_ [Byte.x00] (with_families ["M"%string]))
           [CallGetFontFace "M" None; CallNewMemoryFace [Byte.x00] 0]).
  vm_compute. reflexivity.
Defined.

(** The family list [E; A; B]: [E] is refused and [A] is accepted. *)
Lemma LoadFontFace_family_of_face_witness :
  let family := ["E"; "A"; "B"]%string in
  0 <= 1 < vec_size family
  /\ (exists name info,
        family !! Z.to_nat 1 = Some name /\ GetFontFace name None = Ok info)
  /\ (forall i name,
        0 <= i < 1 -> family !! Z.to_nat i = Some name ->
        is_err (GetFontFace name None) = true).
Proof.
  apply (LoadFontFace_family_of_face fuel
           (with_families ["E"; "A"; "B"]%string) false None None 1%nat 1
           (with_families ["E"; "A"; "B"]%string)
           [CallGetFontFace "E" None; CallGetFontFace "A" None;
            CallNewFace "a.ttf" 0]).
  vm_compute. reflexivity.
Defined.

(** A half-width draw on the renderer that holds face 1 for [A]. *)
Lemma main_face_index_valid_kept_witness :
  main_face_index_valid (with_cached_map "A" (Some 1%nat))
  /\ font_family_ (with_cached_map "A" (Some 1%nat))
     = font_family_ (loaded "A" 1%nat).
Proof.
  assert (Hdraw : draw_half_width (loaded "A" 1%nat)
                  = Done (TextRenderStatus.kOK, with_cached_map "A" (Some 1%nat),
                          [(1, 100, 0); (0, 0, 32)],
                          [CallLoadSfntTable 1%nat (GSUB.FT_MAKE_TAG 71 83 85 66);
                           CallSetPixelSizes 1%nat 32 32; CallLoadGlyph 1%nat 100]))
    by (vm_compute; reflexivity).
  unfold draw_half_width, draw in Hdraw.
  eapply (proj2 (proj2 main_face_index_valid_kept)); [|exact Hdraw].
  intros _. vm_compute. split; [discriminate | reflexivity].
Defined.

(** The same draw: face 1 has U+30A2. *)
Lemma DrawChar_with_glyph_in_main_face_witness :
  let self := loaded "A" 1%nat in
  let self' := with_cached_map "A" (Some 1%nat) in
  Forall (fun call => is_face_call call = false)
         [CallLoadSfntTable 1%nat (GSUB.FT_MAKE_TAG 71 83 85 66);
          CallSetPixelSizes 1%nat 32 32; CallLoadGlyph 1%nat 100]
  /\ font_family_ self' = font_family_ self
  /\ main_face_ self' = main_face_ self
  /\ fallback_face_ self' = fallback_face_ self
  /\ main_face_data_ self' = main_face_data_ self
  /\ fallback_face_data_ self' = fallback_face_data_ self
  /\ main_face_index_ self' = main_face_index_ self.
Proof.
  assert (Hdraw : draw_half_width (loaded "A" 1%nat)
                  = Done (TextRenderStatus.kOK, with_cached_map "A" (Some 1%nat),
                          [(1, 100, 0); (0, 0, 32)],
                          [CallLoadSfntTable 1%nat (GSUB.FT_MAKE_TAG 71 83 85 66);
                           CallSetPixelSizes 1%nat 32 32; CallLoadGlyph 1%nat 100]))
    by (vm_compute; reflexivity).
  unfold draw_half_width, draw in Hdraw.
  eapply (DrawChar_with_glyph_in_main_face) with (face := 1%nat);
    [| |exact Hdraw].
  - reflexivity.
  - vm_compute. discriminate.
Defined.

(** U+1F600, which face 1 does not have: under
    [kFailOnCodePointNotFound], and under [kAuto] with [A] the only
    family. *)
Lemma DrawChar_code_point_not_found_witness :
  draw (loaded "A" 1%nat) 0x1F600 16 32
       TextRenderFallbackPolicy.kFailOnCodePointNotFound
  = Done (TextRenderStatus.kCodePointNotFound, loaded "A" 1%nat, blank, [])
  /\ draw (loaded "A" 1%nat) 0x1F600 16 32 TextRenderFallbackPolicy.kAuto
     = Done (TextRenderStatus.kCodePointNotFound, loaded "A" 1%nat, blank, []).
Proof.
  assert (Hspace : ~ whitespace_set 0x1F600).
  { unfold whitespace_set. simpl. lia. }
  split; unfold draw.
  - apply DrawChar_code_point_not_found with (face := 1%nat);
      [lia | exact Hspace | reflexivity | reflexivity | left; reflexivity].
  - apply DrawChar_code_point_not_found with (face := 1%nat);
      [lia | exact Hspace | reflexivity | reflexivity |].
    right. split; [reflexivity|]. split; [vm_compute|]; reflexivity.
Defined.

Lemma ensure_subst_map_once_witness :
  ensure_subst_map fuel (with_cached_map "A" (Some 1%nat)) 1%nat
  = Done (with_cached_map "A" (Some 1%nat), []).
Proof.
  eapply ensure_subst_map_once with (self := loaded "A" 1%nat).
  vm_compute. reflexivity.
Defined.

(** A full-width draw of U+30A2 with the family [A]. *)
Lemma DrawChar_full_width_keeps_maps_witness :
  main_half_width_subst_map_ (loaded "A" 1%nat)
  = main_half_width_subst_map_ (with_families ["A"%string])
  /\ fallback_half_width_subst_map_ (loaded "A" 1%nat)
     = fallback_half_width_subst_map_ (with_families ["A"%string])
  /\ Forall (fun call => is_table_call call = false)
            [CallGetFontFace "A" None; CallNewFace "a.ttf" 0;
             CallSetPixelSizes 1%nat 32 32; CallLoadGlyph 1%nat 5].
Proof.
  assert (Hdraw : draw (with_families ["A"%string]) 0x30A2 32 32
                       TextRenderFallbackPolicy.kAuto
                  = Done (TextRenderStatus.kOK, loaded "A" 1%nat,
                          [(1, 5, 0); (0, 0, 32)],
                          [CallGetFontFace "A" None; CallNewFace "a.ttf" 0;
                           CallSetPixelSizes 1%nat 32 32; CallLoadGlyph 1%nat 5]))
    by (vm_compute; reflexivity).
  unfold draw in Hdraw.
  eapply DrawChar_full_width_keeps_maps; [|exact Hdraw].
  vm_compute. discriminate.
Defined.

(** An underline three rows thick under a glyph whose baseline is at
    row 32, with the underline position one row below it. *)
Lemma draw_underline_rect_witness :
  let p := {| baseline := 32; em_adjust_y := 0; underline := -1;
              underline_thickness_px := 3;
              glyph_image := {| glyph_left := 0; glyph_top := 0; bitmap := 5 |};
              border_glyph_image := None |} in
  exists rect,
    draw_underline p 10 4 1 (Some {| start_x := 2; width := 16 |}) blank
    = DrawRect blank 1 rect
    /\ rect_left rect = 2
    /\ rect_right rect = 2 + 16
    /\ rect_bottom rect - rect_top rect = 3
    /\ rect_top rect <= 10 + 32 + 0 + Z.abs (-1) < rect_bottom rect.
Proof.
  intros p.
  apply (draw_underline_rect p).
  - vm_compute. discriminate.
  - vm_compute. reflexivity.
Defined.
End Scenarios_renderer.

Section Scenarios_collection.
Import Fixture Samples.
#[local] Existing Instances collection utf.

(** The face of [c.ttc] whose family name is [Three] and the one whose
    PostScript name is [Two-Regular], looked for without a face
    index. *)
Lemma open_font_face_unknown_index_witness :
  ((exists j, 0 <= j /\ FT_New_Face "c.ttc" j = Some (collection_face 2))
   /\ ((EmptyString <> EmptyString
        /\ FT_Get_Postscript_Name (collection_face 2) = EmptyString)
       \/ ("Three"%string <> EmptyString
           /\ MatchFontFamilyName (collection_face 2) "Three" = true)))
  /\ ((exists j, 0 <= j /\ FT_New_Face "c.ttc" j = Some (collection_face 1))
      /\ (("Two-Regular"%string <> EmptyString
           /\ FT_Get_Postscript_Name (collection_face 1) = "Two-Regular"%string)
          \/ (EmptyString <> EmptyString
              /\ MatchFontFamilyName (collection_face 1) EmptyString = true))).
Proof.
  split.
  - eapply (open_font_face_unknown_index Fixture.fuel fresh false
              (unknown_index "Three" EmptyString) 0 []).
    + reflexivity.
    + vm_compute. reflexivity.
  - eapply (open_font_face_unknown_index Fixture.fuel fresh true
              (unknown_index EmptyString "Two-Regular") 0 []).
    + reflexivity.
    + vm_compute. reflexivity.
Defined.
End Scenarios_collection.

Section Scenarios_provider.
Import Samples.

(** A request for CoreText on the Linux build. *)
Lemma Create_compiled_in_witness :
  compiled_in linux FontProviderFontconfig = true.
Proof.
  apply (Create_facts.Create_compiled_in linux FontProviderType.kCoreText).
  reflexivity.
Defined.

(** On the Windows build a request for Fontconfig is honoured and a
    request for CoreText is answered like [kAuto], with DirectWrite. *)
Lemma Create_request_witness :
  Create windows FontProviderType.kFontconfig = Some FontProviderFontconfig
  /\ Create windows FontProviderType.kCoreText
     = Create windows FontProviderType.kAuto.
Proof.
  split.
  - apply (proj1 (Create_facts.Create_request windows
                    FontProviderType.kFontconfig)).
    + exists FontProviderDirectWrite. reflexivity.
    + reflexivity.
    + reflexivity.
  - apply (proj2 (Create_facts.Create_request windows
                    FontProviderType.kCoreText)).
    right. exists FontProviderCoreText. split; reflexivity.
Defined.
End Scenarios_provider.
